(** * VaultPay: the escrow procedures of the database schema

    A shallow embedding of the PL/pgSQL functions of the VaultPay
    migrations ([generate_vid], [generate_vtid],
    [create_transaction_with_escrow], [update_transaction_status],
    [process_expired_transactions], the trigger function
    [notify_transaction_update]) and of the client-side checks that
    surround them ([validateTransaction], [handleMarkCondition]).

    Further parts cover [save_device_token], the BEFORE INSERT triggers
    [set_vault_id] and [set_vtid], the client's view of a transaction
    (TransactionDetails), the conditions of the send-money form and the
    notification queue of NotificationManager.

    Representation.
    - A table is the list of its rows, in storage order.
    - A [DECIMAL(12, 2)] value is an integer number of hundredths; a value
      assigned to such a column must be below 10^10 units in absolute
      value, otherwise the assignment raises [numeric_field_overflow].
      Arguments of type [DECIMAL] are taken at scale 2 as well.
    - A [TIMESTAMP WITH TIME ZONE] is an integer number of microseconds; a
      nullable column is an [option].
    - The [status] column, whose CHECK admits four texts, is an enumeration;
      the [p_new_status] argument is an arbitrary text.
    - A function body is a computation over the database that returns a
      value, raises an exception (the enclosing transaction is rolled
      back), or is still inside its [LOOP] when its fuel runs out. *)

From Stdlib Require Import ZArith List String Ascii Bool Lia Permutation Sorted.
Import ListNotations.
Open Scope string_scope.
Open Scope Z_scope.

(** ** Column types *)

Definition uuid := N.
Definition timestamptz := Z.
Definition numeric := Z.

Definition INTERVAL_1_hour : Z := 3600000000.

Inductive tx_status : Type :=
| pending
| accepted
| completed
| cancelled.

Definition status_text (s : tx_status) : string :=
  match s with
  | pending => "pending"
  | accepted => "accepted"
  | completed => "completed"
  | cancelled => "cancelled"
  end.

Definition status_eqb (a b : tx_status) : bool :=
  match a, b with
  | pending, pending | accepted, accepted
  | completed, completed | cancelled, cancelled => true
  | _, _ => false
  end.

(** One element of the [conditions] JSONB array, as the client writes it. *)
Module TransactionCondition.
Record t : Type := mk
  { description : string;
    completed : bool }.
End TransactionCondition.

(** ** Tables *)

Module users.
Record row : Type := mk
  { id : uuid;
    name : string;
    email : string;
    phone : option string;
    location : option string;
    vault_id : string;
    balance : numeric;
    escrow_balance : numeric;
    created_at : option timestamptz;
    unread_transactions : list uuid }.
End users.

Module transactions.
Record row : Type := mk
  { id : uuid;
    vtid : string;
    sender_id : uuid;
    receiver_id : uuid;
    amount : numeric;
    status : tx_status;
    conditions : list TransactionCondition.t;
    time_limit : Z;
    created_at : option timestamptz;
    accepted_at : option timestamptz;
    completed_at : option timestamptz;
    cancelled_at : option timestamptz }.
End transactions.

Record database : Type := mkdb
  { public_users : list users.row;
    public_transactions : list transactions.row }.

(** ** Exceptions and the computation monad *)

(** The four [RAISE EXCEPTION] messages of the functions, and the errors
    PostgreSQL raises for a value out of a column's range and for a
    violated constraint. *)
Inductive exception : Type :=
| Insufficient_balance
| Transaction_not_found
| Transaction_must_be_accepted_before_completion
| Invalid_status (p_new_status : string)
| numeric_field_overflow
| check_violation (constraint : string)
| unique_violation (constraint : string)
| foreign_key_violation (constraint : string).

(** How a call ends; [Unfinished] is a [LOOP] that has used up the fuel
    given to it without leaving. *)
Inductive outcome (A : Type) : Type :=
| Returned (a : A)
| Raised (e : exception)
| Unfinished.
Arguments Returned {A} a.
Arguments Raised {A} e.
Arguments Unfinished {A}.

Definition plpgsql (A : Type) : Type := database -> outcome (A * database).

Definition ret {A} (a : A) : plpgsql A := fun db => Returned (a, db).

Definition RAISE {A} (e : exception) : plpgsql A := fun _ => Raised e.

Definition bind {A B} (c : plpgsql A) (k : A -> plpgsql B) : plpgsql B :=
  fun db =>
    match c db with
    | Returned (a, db') => k a db'
    | Raised e => Raised e
    | Unfinished => Unfinished
    end.

(** Expressions that can raise, before any state is involved. *)
Definition obind {A B} (o : outcome A) (k : A -> outcome B) : outcome B :=
  match o with
  | Returned a => k a
  | Raised e => Raised e
  | Unfinished => Unfinished
  end.

Declare Scope plpgsql_scope.
Delimit Scope plpgsql_scope with plpgsql.
Notation "x <- c ;; k" := (bind c (fun x => k))
  (at level 61, c at next level, right associativity) : plpgsql_scope.
Notation "c ;; k" := (bind c (fun _ => k))
  (at level 61, right associativity) : plpgsql_scope.
Notation "x <~ o ;; k" := (obind o (fun x => k))
  (at level 61, o at next level, right associativity) : plpgsql_scope.
Open Scope plpgsql_scope.

(** The database as a call leaves it: what the call returned with, or the
    state before the call when it did not return. *)
Definition state_after {A} (db : database) (o : outcome (A * database)) : database :=
  match o with
  | Returned (_, db') => db'
  | Raised _ | Unfinished => db
  end.

(** ** Statements *)

(** Assignment to a [DECIMAL(12, 2)] column. *)
Definition numeric_12_2 (v : Z) : outcome numeric :=
  if Z.abs v <? 10 ^ 12 then Returned v else Raised numeric_field_overflow.

(** [UPDATE ... SET ... WHERE ...] over the rows of one table. *)
Fixpoint UPDATE {R : Type} (SET : R -> outcome R) (WHERE : R -> bool)
         (rows : list R) : outcome (list R) :=
  match rows with
  | [] => Returned []
  | r :: rest =>
      r' <~ (if WHERE r then SET r else Returned r) ;;
      rest' <~ UPDATE SET WHERE rest ;;
      Returned (r' :: rest')
  end.

Definition UPDATE_users (SET : users.row -> outcome users.row)
           (WHERE : users.row -> bool) : plpgsql unit :=
  fun db =>
    us <~ UPDATE SET WHERE (public_users db) ;;
    Returned (tt, mkdb us (public_transactions db)).

(** [SELECT ... INTO ... WHERE id = ...]: the first matching row, if any. *)
Definition SELECT_user (i : uuid) : plpgsql (option users.row) :=
  fun db => Returned (find (fun u => N.eqb (users.id u) i) (public_users db), db).

Definition SELECT_transaction (i : uuid) : plpgsql (option transactions.row) :=
  fun db =>
    Returned (find (fun t => N.eqb (transactions.id t) i) (public_transactions db), db).

Definition with_balance (b : numeric) (u : users.row) : users.row :=
  users.mk (users.id u) (users.name u) (users.email u) (users.phone u)
    (users.location u) (users.vault_id u) b (users.escrow_balance u)
    (users.created_at u) (users.unread_transactions u).

Definition with_escrow_balance (e : numeric) (u : users.row) : users.row :=
  users.mk (users.id u) (users.name u) (users.email u) (users.phone u)
    (users.location u) (users.vault_id u) (users.balance u) e
    (users.created_at u) (users.unread_transactions u).

Definition with_unread_transactions (l : list uuid) (u : users.row) : users.row :=
  users.mk (users.id u) (users.name u) (users.email u) (users.phone u)
    (users.location u) (users.vault_id u) (users.balance u)
    (users.escrow_balance u) (users.created_at u) l.

(** [SET unread_transactions = array_append(unread_transactions, i::TEXT)] *)
Definition SET_unread_append (i : uuid) (u : users.row) : outcome users.row :=
  Returned (with_unread_transactions (users.unread_transactions u ++ [i]) u).

Definition id_is (i : uuid) (u : users.row) : bool := N.eqb (users.id u) i.

Definition id_IN (i j : uuid) (u : users.row) : bool :=
  N.eqb (users.id u) i || N.eqb (users.id u) j.

(** ** The trigger of the push-notification migration

    [transaction_notification_trigger] runs [notify_transaction_update]
    AFTER UPDATE ON public.transactions FOR EACH ROW. *)

Definition notify_transaction_update (OLD NEW : transactions.row) : plpgsql unit :=
  if negb (status_eqb (transactions.status OLD) (transactions.status NEW)) then
    match transactions.status NEW with
    | accepted =>
        UPDATE_users (SET_unread_append (transactions.id NEW))
          (id_is (transactions.sender_id NEW))
    | completed =>
        UPDATE_users (SET_unread_append (transactions.id NEW))
          (id_IN (transactions.sender_id NEW) (transactions.receiver_id NEW))
    | cancelled =>
        UPDATE_users (SET_unread_append (transactions.id NEW))
          (id_IN (transactions.sender_id NEW) (transactions.receiver_id NEW))
    | pending => ret tt
    end
  else ret tt.

Fixpoint FOR_EACH_ROW {R : Type} (body : R -> plpgsql unit) (rows : list R)
  : plpgsql unit :=
  match rows with
  | [] => ret tt
  | r :: rest => body r ;; FOR_EACH_ROW body rest
  end.

(** [UPDATE public.transactions SET ... WHERE ...]; the row triggers run
    when the statement has updated its rows. *)
Definition UPDATE_transactions (SET : transactions.row -> transactions.row)
           (WHERE : transactions.row -> bool) : plpgsql unit :=
  fun db =>
    let updated := filter WHERE (public_transactions db) in
    FOR_EACH_ROW (fun OLD => notify_transaction_update OLD (SET OLD)) updated
      (mkdb (public_users db)
            (map (fun t => if WHERE t then SET t else t) (public_transactions db))).

Definition tx_id_is (i : uuid) (t : transactions.row) : bool :=
  N.eqb (transactions.id t) i.

Definition SET_accepted (NOW : timestamptz) (t : transactions.row) : transactions.row :=
  transactions.mk (transactions.id t) (transactions.vtid t)
    (transactions.sender_id t) (transactions.receiver_id t)
    (transactions.amount t) accepted (transactions.conditions t)
    (transactions.time_limit t) (transactions.created_at t)
    (Some NOW) (transactions.completed_at t) (transactions.cancelled_at t).

Definition SET_completed (NOW : timestamptz) (t : transactions.row) : transactions.row :=
  transactions.mk (transactions.id t) (transactions.vtid t)
    (transactions.sender_id t) (transactions.receiver_id t)
    (transactions.amount t) completed (transactions.conditions t)
    (transactions.time_limit t) (transactions.created_at t)
    (transactions.accepted_at t) (Some NOW) (transactions.cancelled_at t).

Definition SET_cancelled (NOW : timestamptz) (t : transactions.row) : transactions.row :=
  transactions.mk (transactions.id t) (transactions.vtid t)
    (transactions.sender_id t) (transactions.receiver_id t)
    (transactions.amount t) cancelled (transactions.conditions t)
    (transactions.time_limit t) (transactions.created_at t)
    (transactions.accepted_at t) (transactions.completed_at t) (Some NOW).

(** ** update_transaction_status *)

Definition update_transaction_status (NOW : timestamptz)
           (p_transaction_id : uuid) (p_new_status : string) : plpgsql unit :=
  found <- SELECT_transaction p_transaction_id ;;
  match found with
  | None => RAISE Transaction_not_found
  | Some transaction_record =>
      if String.eqb (status_text (transactions.status transaction_record)) p_new_status then
        ret tt
      else if String.eqb p_new_status "accepted" then
        UPDATE_transactions (SET_accepted NOW) (tx_id_is p_transaction_id) ;;
        UPDATE_users (SET_unread_append p_transaction_id)
          (id_is (transactions.sender_id transaction_record))
      else if String.eqb p_new_status "completed" then
        if negb (status_eqb (transactions.status transaction_record) accepted) then
          RAISE Transaction_must_be_accepted_before_completion
        else
          UPDATE_transactions (SET_completed NOW) (tx_id_is p_transaction_id) ;;
          UPDATE_users
            (fun u =>
               e <~ numeric_12_2
                      (users.escrow_balance u - transactions.amount transaction_record) ;;
               Returned (with_escrow_balance e u))
            (id_is (transactions.sender_id transaction_record)) ;;
          UPDATE_users
            (fun u =>
               b <~ numeric_12_2
                      (users.balance u + transactions.amount transaction_record) ;;
               Returned (with_balance b u))
            (id_is (transactions.receiver_id transaction_record)) ;;
          UPDATE_users (SET_unread_append p_transaction_id)
            (id_is (transactions.receiver_id transaction_record))
      else if String.eqb p_new_status "cancelled" then
        UPDATE_transactions (SET_cancelled NOW) (tx_id_is p_transaction_id) ;;
        UPDATE_users
          (fun u =>
             b <~ numeric_12_2
                    (users.balance u + transactions.amount transaction_record) ;;
             e <~ numeric_12_2
                    (users.escrow_balance u - transactions.amount transaction_record) ;;
             Returned (with_escrow_balance e (with_balance b u)))
          (id_is (transactions.sender_id transaction_record)) ;;
        UPDATE_users (SET_unread_append p_transaction_id)
          (id_IN (transactions.sender_id transaction_record)
                 (transactions.receiver_id transaction_record))
      else
        RAISE (Invalid_status p_new_status)
  end.

(** ** process_expired_transactions *)

(** The WHERE clause of [expired_cursor]; a comparison with a NULL
    created_at is not true. *)
Definition expired_cursor (NOW : timestamptz) (t : transactions.row) : bool :=
  status_eqb (transactions.status t) pending &&
  match transactions.created_at t with
  | Some created => created + transactions.time_limit t * INTERVAL_1_hour <? NOW
  | None => false
  end.

(** The cursor reads the table as it is when the loop starts. *)
Definition process_expired_transactions (NOW : timestamptz) : plpgsql unit :=
  fun db =>
    FOR_EACH_ROW
      (fun expired_transaction =>
         update_transaction_status NOW (transactions.id expired_transaction) "cancelled")
      (filter (expired_cursor NOW) (public_transactions db))
      db.

(** ** generate_vid and generate_vtid

    [md5_random i] is the text [MD5(RANDOM()::TEXT)] evaluates to the
    [i]-th time the loop body runs.  [fuel] bounds the number of times the
    model runs the body; the source's [LOOP] has no bound. *)

Definition UPPER_char (c : ascii) : ascii :=
  let n := nat_of_ascii c in
  if (97 <=? n)%nat && (n <=? 122)%nat then ascii_of_nat (n - 32) else c.

Fixpoint UPPER (s : string) : string :=
  match s with
  | EmptyString => EmptyString
  | String c rest => String (UPPER_char c) (UPPER rest)
  end.

(** [SUBSTRING(s FROM 1 FOR n)] *)
Definition SUBSTRING_FROM_1_FOR (n : nat) (s : string) : string :=
  String.substring 0 n s.

Fixpoint generate_LOOP (width : nat) (md5_random : nat -> string)
         (stored : list string) (fuel draw : nat) : outcome string :=
  match fuel with
  | O => Unfinished
  | S fuel' =>
      let new_code := UPPER (SUBSTRING_FROM_1_FOR width (md5_random draw)) in
      let code_exists := existsb (String.eqb new_code) stored in
      if negb code_exists then Returned new_code
      else generate_LOOP width md5_random stored fuel' (S draw)
  end.

Definition generate_vid (md5_random : nat -> string) (fuel : nat) : plpgsql string :=
  fun db =>
    new_vid <~ generate_LOOP 8 md5_random (map users.vault_id (public_users db)) fuel 0 ;;
    Returned (new_vid, db).

Definition generate_vtid (md5_random : nat -> string) (fuel : nat) : plpgsql string :=
  fun db =>
    new_vtid <~ generate_LOOP 12 md5_random
                 (map transactions.vtid (public_transactions db)) fuel 0 ;;
    Returned (new_vtid, db).

(** ** create_transaction_with_escrow *)

(** [sender_balance < p_amount] where [sender_balance] may be NULL: the
    comparison with NULL is not true. *)
Definition NULL_lt (a : option numeric) (b : numeric) : bool :=
  match a with
  | Some x => x <? b
  | None => false
  end.

(** [INSERT INTO public.transactions (...) VALUES (...) RETURNING *].
    [id] takes its default [uuid_generate_v4()], [created_at] its default
    [NOW()].  The row is coerced to the column types, then checked against
    the CHECK constraints (by constraint name), the unique indexes and the
    foreign keys, which is the order in which PostgreSQL reports their
    violations. *)
Definition INSERT_INTO_transactions (NOW : timestamptz) (uuid_generate_v4 : uuid)
           (new_vtid : string) (p_sender_id p_receiver_id : uuid)
           (p_amount : numeric) (p_conditions : list TransactionCondition.t)
           (p_time_limit : Z) : plpgsql transactions.row :=
  fun db =>
    amount <~ numeric_12_2 p_amount ;;
    let new_transaction :=
      transactions.mk uuid_generate_v4 new_vtid p_sender_id p_receiver_id amount
        pending p_conditions p_time_limit (Some NOW) None None None in
    if N.eqb p_sender_id p_receiver_id then
      Raised (check_violation "different_users")
    else if negb (0 <? amount) then
      Raised (check_violation "transactions_amount_check")
    else if existsb (tx_id_is uuid_generate_v4) (public_transactions db) then
      Raised (unique_violation "transactions_pkey")
    else if existsb (fun t => String.eqb (transactions.vtid t) new_vtid)
              (public_transactions db) then
      Raised (unique_violation "transactions_vtid_key")
    else if negb (existsb (id_is p_sender_id) (public_users db)) then
      Raised (foreign_key_violation "transactions_sender_id_fkey")
    else if negb (existsb (id_is p_receiver_id) (public_users db)) then
      Raised (foreign_key_violation "transactions_receiver_id_fkey")
    else
      Returned (new_transaction,
                mkdb (public_users db) (public_transactions db ++ [new_transaction])).

Definition create_transaction_with_escrow
           (NOW : timestamptz) (uuid_generate_v4 : uuid)
           (md5_random : nat -> string) (fuel : nat)
           (p_sender_id p_receiver_id : uuid) (p_amount : numeric)
           (p_conditions : list TransactionCondition.t) (p_time_limit : Z)
  : plpgsql transactions.row :=
  sender <- SELECT_user p_sender_id ;;
  let sender_balance := option_map users.balance sender in
  if NULL_lt sender_balance p_amount then
    RAISE Insufficient_balance
  else
    new_vtid <- generate_vtid md5_random fuel ;;
    UPDATE_users
      (fun u =>
         b <~ numeric_12_2 (users.balance u - p_amount) ;;
         e <~ numeric_12_2 (users.escrow_balance u + p_amount) ;;
         Returned (with_escrow_balance e (with_balance b u)))
      (id_is p_sender_id) ;;
    new_transaction <- INSERT_INTO_transactions NOW uuid_generate_v4 new_vtid
                         p_sender_id p_receiver_id p_amount p_conditions p_time_limit ;;
    UPDATE_users (SET_unread_append (transactions.id new_transaction))
      (id_is p_receiver_id) ;;
    ret new_transaction.

(** ** The client's checks (app/modal.tsx, TransactionDetails) *)

Definition MIN_CONDITIONS : nat := 1.

(** [parseInt] is the JavaScript built-in; [None] stands for [NaN]. *)
Definition validateTransaction (parseInt : string -> option Z)
           (conditions : list TransactionCondition.t) (timeLimit : string) : bool :=
  if (List.length conditions <? MIN_CONDITIONS)%nat then false
  else
    match parseInt timeLimit with
    | None => false
    | Some timeLimitNum => if timeLimitNum <? 1 then false else true
    end.

(** What [handleMarkCondition] asks of [updateTransaction]. *)
Inductive storage_request : Type :=
| updateTransaction_conditions (id : uuid) (conditions : list TransactionCondition.t)
| updateTransaction_status (id : uuid) (status : string).

Fixpoint mark_condition (conditions : list TransactionCondition.t) (index : nat)
         (completed : bool) : option (list TransactionCondition.t) :=
  match conditions, index with
  | [], _ => None
  | c :: rest, O =>
      Some (TransactionCondition.mk (TransactionCondition.description c) completed :: rest)
  | c :: rest, S i =>
      match mark_condition rest i completed with
      | Some rest' => Some (c :: rest')
      | None => None
      end
  end.

(** The requests made, in order, when none of them fails; an index outside
    the array throws before any request and the handler only shows an
    alert. *)
Definition handleMarkCondition (transaction : transactions.row) (index : nat)
           (completed : bool) : list storage_request :=
  match mark_condition (transactions.conditions transaction) index completed with
  | None => []
  | Some newConditions =>
      let allConditionsMet := forallb TransactionCondition.completed newConditions in
      updateTransaction_conditions (transactions.id transaction) newConditions ::
      (if allConditionsMet
       then [updateTransaction_status (transactions.id transaction) "completed"]
       else [])
  end.

(** * Vocabulary of the properties *)

(** ** Rows before and after a call *)

Definition find_transaction (i : uuid) (db : database) : option transactions.row :=
  find (tx_id_is i) (public_transactions db).

Definition find_user (i : uuid) (db : database) : option users.row :=
  find (id_is i) (public_users db).

(** The transactions table after [SET] has been applied to the rows with
    id [i]. *)
Definition rows_set (SET : transactions.row -> transactions.row) (i : uuid)
           (rows : list transactions.row) : list transactions.row :=
  map (fun t => if tx_id_is i t then SET t else t) rows.

(** Two versions of a user row that agree on everything but the funds and
    the unread list. *)
Definition same_profile (u u' : users.row) : Prop :=
  users.id u' = users.id u /\
  users.name u' = users.name u /\
  users.email u' = users.email u /\
  users.phone u' = users.phone u /\
  users.location u' = users.location u /\
  users.vault_id u' = users.vault_id u /\
  users.created_at u' = users.created_at u.

(** [u'] is [u] with [d_balance] added to its balance and [d_escrow] to its
    escrow balance; the unread list is not constrained. *)
Definition funds_moved (d_balance d_escrow : Z) (u u' : users.row) : Prop :=
  same_profile u u' /\
  users.balance u' = users.balance u + d_balance /\
  users.escrow_balance u' = users.escrow_balance u + d_escrow.

(** A call that either returns or raises the overflow of a
    [DECIMAL(12, 2)] assignment, and nothing else. *)
Definition returns_or_overflows {A} (o : outcome A) : Prop :=
  (exists a, o = Returned a) \/ o = Raised numeric_field_overflow.

(** ** Deadlines and the sweep *)

(** The instant after which a transaction counts as expired: the client's
    [endTime] in [formatTimeRemaining], (accepted_at, else created_at) plus
    [time_limit] hours. *)
Definition endTime (t : transactions.row) : option timestamptz :=
  match transactions.accepted_at t with
  | Some a => Some (a + transactions.time_limit t * INTERVAL_1_hour)
  | None =>
      option_map (fun c => c + transactions.time_limit t * INTERVAL_1_hour)
        (transactions.created_at t)
  end.

Definition deadline_passed (NOW : timestamptz) (t : transactions.row) : bool :=
  match endTime t with
  | Some e => e <? NOW
  | None => false
  end.

(** The loop of [process_expired_transactions] over the rows of its
    cursor. *)
Definition cancel_each (NOW : timestamptz) (cursor : list transactions.row)
  : plpgsql unit :=
  FOR_EACH_ROW
    (fun expired_transaction =>
       update_transaction_status NOW (transactions.id expired_transaction) "cancelled")
    cursor.

(** [t] has the id of [r]. *)
Definition has_id_of (r : transactions.row) (t : transactions.row) : bool :=
  N.eqb (transactions.id t) (transactions.id r).

(** What the sweep hands back to user [uid]: the amounts of the swept rows
    that [uid] sent. *)
Fixpoint refunded (uid : uuid) (swept : list transactions.row) : Z :=
  match swept with
  | [] => 0
  | t :: rest =>
      (if N.eqb uid (transactions.sender_id t) then transactions.amount t else 0)
      + refunded uid rest
  end.

(** The room the balances need for a sweep of [rows]. *)
Fixpoint total_amount (rows : list transactions.row) : Z :=
  match rows with
  | [] => 0
  | t :: rest => Z.abs (transactions.amount t) + total_amount rest
  end.

(** ** Creation *)

(** The SET clause of the sender's UPDATE in
    [create_transaction_with_escrow]. *)
Definition SET_escrowed (p_amount : numeric) (u : users.row) : outcome users.row :=
  b <~ numeric_12_2 (users.balance u - p_amount) ;;
  e <~ numeric_12_2 (users.escrow_balance u + p_amount) ;;
  Returned (with_escrow_balance e (with_balance b u)).

(** The users table after the receiver's UPDATE. *)
Definition notified (i p_receiver_id : uuid) (us : list users.row) : list users.row :=
  map (fun u => if id_is p_receiver_id u
                then with_unread_transactions (users.unread_transactions u ++ [i]) u
                else u) us.

Definition with_conditions (c : list TransactionCondition.t) (t : transactions.row)
  : transactions.row :=
  transactions.mk (transactions.id t) (transactions.vtid t)
    (transactions.sender_id t) (transactions.receiver_id t)
    (transactions.amount t) (transactions.status t) c
    (transactions.time_limit t) (transactions.created_at t)
    (transactions.accepted_at t) (transactions.completed_at t)
    (transactions.cancelled_at t).

(** The outcome of a call made on [db] with other conditions, read for the
    same call made with conditions [c]. *)
Definition for_conditions (c : list TransactionCondition.t) (db : database)
           (o : outcome (transactions.row * database))
  : outcome (transactions.row * database) :=
  match o with
  | Returned (t, db') =>
      Returned (with_conditions c t,
                mkdb (public_users db') (public_transactions db ++ [with_conditions c t]))
  | Raised e => Raised e
  | Unfinished => Unfinished
  end.

(** ** Codes *)

(** The code the loop body makes of one MD5 text. *)
Definition candidate (width : nat) (digest : string) : string :=
  UPPER (SUBSTRING_FROM_1_FOR width digest).

(** The draw at which the loop leaves: the first whose candidate is not
    stored. *)
Definition first_fresh (width : nat) (md5_random : nat -> string)
           (stored : list string) (n : nat) : Prop :=
  (forall i, (i < n)%nat -> In (candidate width (md5_random i)) stored) /\
  ~ In (candidate width (md5_random n)) stored.

(** A character of an MD5 text: a digit or a letter from a to f. *)
Definition is_md5_char (c : ascii) : bool :=
  let n := nat_of_ascii c in
  ((48 <=? n) && (n <=? 57) || (97 <=? n) && (n <=? 102))%nat.

(** A digit or an upper-case letter. *)
Definition is_upper_alnum (c : ascii) : bool :=
  let n := nat_of_ascii c in
  ((48 <=? n) && (n <=? 57) || (65 <=? n) && (n <=? 90))%nat.

Fixpoint string_forall (p : ascii -> bool) (s : string) : bool :=
  match s with
  | EmptyString => true
  | String c rest => p c && string_forall p rest
  end.

(** What [MD5] returns: 32 hexadecimal characters, letters in lower case. *)
Definition is_md5_text (s : string) : bool :=
  (String.length s =? 32)%nat && string_forall is_md5_char s.

(** ** The escrow balance and the open transactions *)

Definition in_escrow (t : transactions.row) : bool :=
  match transactions.status t with
  | pending | accepted => true
  | completed | cancelled => false
  end.

(** What row [t] holds in escrow for user [uid]. *)
Definition held (uid : uuid) (t : transactions.row) : Z :=
  if N.eqb (transactions.sender_id t) uid && in_escrow t
  then transactions.amount t else 0.

(** The sum of [amount] over the rows sent by [uid] that are pending or
    accepted. *)
Fixpoint escrowed (uid : uuid) (rows : list transactions.row) : Z :=
  match rows with
  | [] => 0
  | t :: rest => held uid t + escrowed uid rest
  end.

Definition escrow_invariant (db : database) : Prop :=
  forall u, In u (public_users db) ->
            users.escrow_balance u = escrowed (users.id u) (public_transactions db) /\
            0 <= users.balance u /\
            0 <= users.escrow_balance u.

(** Users with distinct ids, nothing in escrow, no transaction yet. *)
Definition initial (db : database) : Prop :=
  public_transactions db = [] /\
  NoDup (map users.id (public_users db)) /\
  forall u, In u (public_users db) -> 0 <= users.balance u /\ users.escrow_balance u = 0.

(** What the primary keys and the CHECK on [amount] guarantee. *)
Definition well_formed (db : database) : Prop :=
  NoDup (map users.id (public_users db)) /\
  NoDup (map transactions.id (public_transactions db)) /\
  forall t, In t (public_transactions db) -> 0 < transactions.amount t.

(** The transitions of the status machine: pending to accepted or
    cancelled, accepted to completed or cancelled. *)
Definition permitted (from : tx_status) (p_new_status : string) : bool :=
  match from with
  | pending => String.eqb p_new_status "accepted" || String.eqb p_new_status "cancelled"
  | accepted => String.eqb p_new_status "completed" || String.eqb p_new_status "cancelled"
  | completed | cancelled => false
  end.

(** The states the three procedures lead to from an initial state. *)
Inductive reachable : database -> Prop :=
| reachable_initial (db : database) :
    initial db -> reachable db
| reachable_create (db db' : database) (t : transactions.row)
    (NOW : timestamptz) (uuid_generate_v4 : uuid) (md5_random : nat -> string)
    (fuel : nat) (p_sender_id p_receiver_id : uuid) (p_amount : numeric)
    (p_conditions : list TransactionCondition.t) (p_time_limit : Z) :
    reachable db ->
    create_transaction_with_escrow NOW uuid_generate_v4 md5_random fuel p_sender_id
      p_receiver_id p_amount p_conditions p_time_limit db = Returned (t, db') ->
    reachable db'
| reachable_update (db db' : database) (NOW : timestamptz) (p_transaction_id : uuid)
    (p_new_status : string) :
    reachable db ->
    update_transaction_status NOW p_transaction_id p_new_status db = Returned (tt, db') ->
    reachable db'
| reachable_sweep (db db' : database) (NOW : timestamptz) :
    reachable db ->
    process_expired_transactions NOW db = Returned (tt, db') ->
    reachable db'.

(** ** A running scenario

    Alice sends Bob 500.00 under one condition, with a time limit of one
    hour; Bob accepts after half an hour; the transaction is completed. *)

Module Scenario.

Definition alice : users.row :=
  users.mk 1%N "Alice" "alice@example.org" None None "A1B2C3D4"
    100000 0 (Some 0) [].

Definition bob : users.row :=
  users.mk 2%N "Bob" "bob@example.org" None None "E5F6A7B8"
    100000 0 (Some 0) [].

Definition carol : users.row :=
  users.mk 3%N "Carol" "carol@example.org" None None "D41D8CD9"
    100000 0 (Some 0) [].

Definition genesis : database := mkdb [alice; bob] [].

Definition crowded : database := mkdb [alice; bob; carol] [].

Definition digests (draw : nat) : string :=
  match draw with
  | O => "d41d8cd98f00b204e9800998ecf8427e"
  | _ => "0cc175b9c0f1b6a831c399e269772661"
  end.

Definition deliver : list TransactionCondition.t :=
  [TransactionCondition.mk "goods delivered" false].

Definition half_hour : timestamptz := 1800000000.
Definition two_hours : timestamptz := 2 * INTERVAL_1_hour.

Definition db_pending : database :=
  state_after genesis
    (create_transaction_with_escrow 0 7%N digests 1 1%N 2%N 50000 deliver 1 genesis).

Definition db_accepted : database :=
  state_after db_pending (update_transaction_status half_hour 7%N "accepted" db_pending).

Definition db_completed : database :=
  state_after db_accepted
    (update_transaction_status (2 * half_hour) 7%N "completed" db_accepted).

Definition db_refunded_twice : database :=
  state_after db_completed
    (update_transaction_status two_hours 7%N "cancelled" db_completed).

Definition db_cancelled : database :=
  state_after db_pending (update_transaction_status half_hour 7%N "cancelled" db_pending).

Definition status_of (i : uuid) (db : database) : option tx_status :=
  option_map transactions.status (find_transaction i db).

Definition funds_of (i : uuid) (db : database) : option (numeric * numeric) :=
  option_map (fun u => (users.balance u, users.escrow_balance u)) (find_user i db).

End Scenario.

(** * Further vocabulary *)

(** ** Funds and rows across calls *)

(** What a user owns, spendable or locked. *)
Definition net_worth (u : users.row) : Z :=
  users.balance u + users.escrow_balance u.

Fixpoint total_funds (us : list users.row) : Z :=
  match us with
  | [] => 0
  | u :: rest => net_worth u + total_funds rest
  end.

(** The same user with the same net worth. *)
Definition worth_kept (u u' : users.row) : Prop :=
  same_profile u u' /\ net_worth u' = net_worth u.

(** The columns of a transaction that no procedure assigns after the
    insert. *)
Definition written_once (t : transactions.row)
  : uuid * string * uuid * uuid * numeric * list TransactionCondition.t * Z
    * option timestamptz :=
  (transactions.id t, transactions.vtid t, transactions.sender_id t,
   transactions.receiver_id t, transactions.amount t, transactions.conditions t,
   transactions.time_limit t, transactions.created_at t).

(** The call has added and removed no row, re-written none of the
    write-once columns, and left the users and their profiles in place. *)
Definition same_rows_and_users (db db' : database) : Prop :=
  map written_once (public_transactions db') = map written_once (public_transactions db) /\
  Forall2 same_profile (public_users db) (public_users db').

(** * The device tokens of the push-notification migration *)

Module device_tokens.
Record row : Type := mk
  { id : uuid;
    user_id : uuid;
    token : string;
    device_name : option string;
    platform : string;
    created_at : option timestamptz;
    last_used_at : option timestamptz }.
End device_tokens.

(** [WHERE user_id = p_user_id AND token = p_token] *)
Definition token_of (p_user_id : uuid) (p_token : string) (r : device_tokens.row) : bool :=
  N.eqb (device_tokens.user_id r) p_user_id && String.eqb (device_tokens.token r) p_token.

(** [SET device_name = p_device_name, platform = p_platform,
    last_used_at = NOW()] *)
Definition SET_token_used (NOW : timestamptz) (p_device_name : option string)
           (p_platform : string) (r : device_tokens.row) : device_tokens.row :=
  device_tokens.mk (device_tokens.id r) (device_tokens.user_id r) (device_tokens.token r)
    p_device_name p_platform (device_tokens.created_at r) (Some NOW).

(** [save_device_token], over the rows of [device_tokens]; [users] is read
    by the foreign key of the insert only.  The token and the platform,
    whose columns are NOT NULL, are given; the device name may be NULL. *)
Definition save_device_token (NOW : timestamptz) (uuid_generate_v4 : uuid)
           (users : list users.row)
           (p_user_id : uuid) (p_token : string) (p_device_name : option string)
           (p_platform : string) (tokens : list device_tokens.row)
  : outcome (uuid * list device_tokens.row) :=
  let token_id :=
    option_map device_tokens.id (find (token_of p_user_id p_token) tokens) in
  match token_id with
  | None =>
      let new_token :=
        device_tokens.mk uuid_generate_v4 p_user_id p_token p_device_name p_platform
          (Some NOW) (Some NOW) in
      if existsb (fun r => N.eqb (device_tokens.id r) uuid_generate_v4) tokens then
        Raised (unique_violation "device_tokens_pkey")
      else if existsb (token_of p_user_id p_token) tokens then
        Raised (unique_violation "device_tokens_user_id_token_key")
      else if negb (existsb (id_is p_user_id) users) then
        Raised (foreign_key_violation "device_tokens_user_id_fkey")
      else
        Returned (uuid_generate_v4, (tokens ++ [new_token])%list)
  | Some i =>
      Returned
        (i, map (fun r => if N.eqb (device_tokens.id r) i
                          then SET_token_used NOW p_device_name p_platform r
                          else r) tokens)
  end.

(** What the primary key, the UNIQUE (user_id, token) and the foreign key
    of [device_tokens] require. *)
Definition tokens_well_formed (users : list users.row)
           (tokens : list device_tokens.row) : Prop :=
  NoDup (map device_tokens.id tokens) /\
  NoDup (map (fun r => (device_tokens.user_id r, device_tokens.token r)) tokens) /\
  forall r, In r tokens -> existsb (id_is (device_tokens.user_id r)) users = true.

Definition phone_of_alice : device_tokens.row :=
  device_tokens.mk 40%N 1%N "ExponentPushToken[a]" (Some "Pixel") "android"
    (Some 0) (Some 0).

(** ** Unread lists *)

(** [u'] is user [u] with [n] more entries [i] at the end of the unread
    list. *)
Definition unread_grown (n : nat) (i : uuid) (u u' : users.row) : Prop :=
  users.id u' = users.id u /\
  users.unread_transactions u' = (users.unread_transactions u ++ repeat i n)%list.

(** How many entries a change to [new_status] adds to the unread list of
    [u]: those of the trigger and those of the function's own statement. *)
Definition notifications (new_status : tx_status) (t : transactions.row)
           (u : users.row) : nat :=
  match new_status with
  | pending => 0
  | accepted => if id_is (transactions.sender_id t) u then 2 else 0
  | completed =>
      (if id_IN (transactions.sender_id t) (transactions.receiver_id t) u then 1 else 0) +
      (if id_is (transactions.receiver_id t) u then 1 else 0)
  | cancelled =>
      if id_IN (transactions.sender_id t) (transactions.receiver_id t) u then 2 else 0
  end.

(** ** Runs that follow the status machine *)

(** The states reached from an initial state by creations, sweeps and the
    status changes the status machine permits. *)
Inductive lawful : database -> Prop :=
| lawful_initial (db : database) :
    initial db -> lawful db
| lawful_create (db db' : database) (t : transactions.row)
    (NOW : timestamptz) (uuid_generate_v4 : uuid) (md5_random : nat -> string)
    (fuel : nat) (p_sender_id p_receiver_id : uuid) (p_amount : numeric)
    (p_conditions : list TransactionCondition.t) (p_time_limit : Z) :
    lawful db ->
    create_transaction_with_escrow NOW uuid_generate_v4 md5_random fuel p_sender_id
      p_receiver_id p_amount p_conditions p_time_limit db = Returned (t, db') ->
    lawful db'
| lawful_update (db db' : database) (NOW : timestamptz) (p_transaction_id : uuid)
    (p_new_status : string) (t : transactions.row) :
    lawful db ->
    find_transaction p_transaction_id db = Some t ->
    permitted (transactions.status t) p_new_status = true ->
    update_transaction_status NOW p_transaction_id p_new_status db = Returned (tt, db') ->
    lawful db'
| lawful_sweep (db db' : database) (NOW : timestamptz) :
    lawful db ->
    process_expired_transactions NOW db = Returned (tt, db') ->
    lawful db'.

(** * The BEFORE INSERT triggers

    [set_vault_id_trigger] and [set_vtid_trigger] run for each new row WHEN
    the column IS NULL.  The trigger functions assign one column of [NEW]
    and return [NEW]; they are given here on that column, [None] for NULL. *)

Definition set_vault_id (md5_random : nat -> string) (fuel : nat)
           (NEW_vault_id : option string) : plpgsql (option string) :=
  match NEW_vault_id with
  | None =>
      new_vid <- generate_vid md5_random fuel ;;
      ret (Some new_vid)
  | Some _ => ret NEW_vault_id
  end.

Definition set_vtid (md5_random : nat -> string) (fuel : nat)
           (NEW_vtid : option string) : plpgsql (option string) :=
  match NEW_vtid with
  | None =>
      new_vtid <- generate_vtid md5_random fuel ;;
      ret (Some new_vtid)
  | Some _ => ret NEW_vtid
  end.

(** BEFORE INSERT ... FOR EACH ROW WHEN (NEW.column IS NULL) EXECUTE
    FUNCTION f(): the column of the row that goes on to the insert. *)
Definition BEFORE_INSERT_WHEN_NULL (f : option string -> plpgsql (option string))
           (NEW_column : option string) : plpgsql (option string) :=
  match NEW_column with
  | None => f NEW_column
  | Some _ => ret NEW_column
  end.

(** * The client's view of a transaction (TransactionDetails)

    The client reads its own clock, [Date.now()], in milliseconds, and turns
    the timestamps of a row into milliseconds with [new Date(...).getTime()],
    here [getTime]; [new Date(null).getTime()] is 0. *)

Module TransactionDetails.

Definition Date_getTime (getTime : timestamptz -> Z) (ts : option timestamptz) : Z :=
  match ts with
  | Some s => getTime s
  | None => 0
  end.

(** [user?.id === transaction.receiver_id] *)
Definition isReceiver (user : option uuid) (transaction : transactions.row) : bool :=
  match user with
  | Some id => N.eqb id (transactions.receiver_id transaction)
  | None => false
  end.

Definition isSender (user : option uuid) (transaction : transactions.row) : bool :=
  match user with
  | Some id => N.eqb id (transactions.sender_id transaction)
  | None => false
  end.

Definition isExpired (getTime : timestamptz -> Z) (Date_now : Z)
           (transaction : transactions.row) : bool :=
  Date_getTime getTime (transactions.created_at transaction)
  + transactions.time_limit transaction * 60 * 60 * 1000 <=? Date_now.

(** The request [checkExpiration] makes, if any. *)
Definition checkExpiration (getTime : timestamptz -> Z) (Date_now : Z)
           (transaction : transactions.row) : list storage_request :=
  if isExpired getTime Date_now transaction
     && status_eqb (transactions.status transaction) pending
  then [updateTransaction_status (transactions.id transaction) "cancelled"]
  else [].

(** Whether the button 'Accept Transaction' is rendered. *)
Definition accept_button (getTime : timestamptz -> Z) (Date_now : Z)
           (user : option uuid) (transaction : transactions.row) : bool :=
  isReceiver user transaction
  && status_eqb (transactions.status transaction) pending
  && negb (isExpired getTime Date_now transaction).

Definition endTime (getTime : timestamptz -> Z) (transaction : transactions.row) : Z :=
  match transactions.accepted_at transaction with
  | Some accepted_at => getTime accepted_at
  | None => Date_getTime getTime (transactions.created_at transaction)
  end
  + transactions.time_limit transaction * 60 * 60 * 1000.

(** The texts of [formatTimeRemaining]; [remaining h m] stands for
    [`${h}h ${m}m remaining`]. *)
Inductive time_text : Type :=
| Transaction_closed
| Time_expired
| remaining (hours minutes : Z).

Definition formatTimeRemaining (getTime : timestamptz -> Z) (Date_now : Z)
           (transaction : transactions.row) : time_text :=
  if status_eqb (transactions.status transaction) completed
     || status_eqb (transactions.status transaction) cancelled
  then Transaction_closed
  else
    let remaining_ms := endTime getTime transaction - Date_now in
    if remaining_ms <=? 0 then Time_expired
    else
      let hours := remaining_ms / (60 * 60 * 1000) in
      let minutes := Z.rem remaining_ms (60 * 60 * 1000) / (60 * 1000) in
      remaining hours minutes.

(** What pressing condition [index] asks of the storage: the handler runs
    for the sender of an accepted transaction, with the mark flipped. *)
Definition onPress_condition (user : option uuid) (transaction : transactions.row)
           (index : nat) : list storage_request :=
  if isSender user transaction && status_eqb (transactions.status transaction) accepted
  then
    match nth_error (transactions.conditions transaction) index with
    | Some condition =>
        handleMarkCondition transaction index
          (negb (TransactionCondition.completed condition))
    | None => []
    end
  else [].

End TransactionDetails.

(** * The conditions of the send-money form (app/modal.tsx)

    [trim] is [String.prototype.trim]; the empty string is the only string
    that is false in a condition. *)

Module TransactionModal.

Record form : Type := mk
  { conditions : list TransactionCondition.t;
    newCondition : string }.

(** [useState([])] and [useState('')] *)
Definition initial : form := mk [] "".

Definition setNewCondition (text : string) (f : form) : form :=
  mk (conditions f) text.

Definition addCondition (trim : string -> string) (f : form) : form :=
  if String.eqb (trim (newCondition f)) "" then f
  else
    let condition := TransactionCondition.mk (trim (newCondition f)) false in
    mk (conditions f ++ [condition]) "".

(** [array.filter((_, i) => keep(i))], the indices counted from [i]. *)
Fixpoint filter_index {A : Type} (keep : nat -> bool) (i : nat) (array : list A)
  : list A :=
  match array with
  | [] => []
  | x :: rest =>
      if keep i then x :: filter_index keep (S i) rest
      else filter_index keep (S i) rest
  end.

Definition removeCondition (index : nat) (f : form) : form :=
  if (List.length (conditions f) <=? MIN_CONDITIONS)%nat then f
  else
    mk (filter_index (fun i => negb (Nat.eqb i index)) 0 (conditions f))
       (newCondition f).

(** What the user does to the conditions of the form. *)
Inductive event : Type :=
| typed (text : string)
| add_pressed
| remove_pressed (index : nat).

Definition handle (trim : string -> string) (f : form) (e : event) : form :=
  match e with
  | typed text => setNewCondition text f
  | add_pressed => addCondition trim f
  | remove_pressed index => removeCondition index f
  end.

Definition after (trim : string -> string) (events : list event) (f : form) : form :=
  fold_left (handle trim) events f.

End TransactionModal.

(** * The notification queue (utils/NotificationManager.ts)

    [Date.now()] is read from a clock, [Date_now k] for the [k]-th reading;
    the queue and [userLastNotified] are the fields of the singleton.
    [Array.prototype.sort] is stable and the comparator is that of a total
    preorder, so the sorted queue is the one a stable insertion sort gives.
    [sendPushNotification] catches its own errors; the promise awaited by
    [processQueue] resolves.  [NotificationData.type] is one of five texts
    by its TypeScript type; here it is any text, and the table of
    priorities has no entry outside its six keys. *)

Module NotificationManager.

Inductive NotificationPriority : Type :=
| LOW
| MEDIUM
| HIGH.

Definition NOTIFICATION_PRIORITIES (type : string) : option NotificationPriority :=
  if String.eqb type "transaction_pending" then Some HIGH
  else if String.eqb type "transaction_accepted" then Some HIGH
  else if String.eqb type "transaction_completed" then Some HIGH
  else if String.eqb type "transaction_cancelled" then Some MEDIUM
  else if String.eqb type "condition_updated" then Some MEDIUM
  else if String.eqb type "reminder" then Some LOW
  else None.

(** Cooldown periods, in milliseconds. *)
Definition PRIORITY_COOLDOWNS (priority : NotificationPriority) : Z :=
  match priority with
  | LOW => 60 * 60 * 1000
  | MEDIUM => 15 * 60 * 1000
  | HIGH => 30 * 1000
  end.

Record NotificationData : Type := mkData
  { type : string;
    transactionId : uuid }.

Record NotificationQueueItem : Type := mkItem
  { userId : uuid;
    title : string;
    body : string;
    data : NotificationData;
    priority : NotificationPriority;
    timestamp : Z;
    attempts : nat }.

Definition maxRetries : nat := 3.

(** The fields of the manager. *)
Record fields : Type := mkFields
  { queue : list NotificationQueueItem;
    processing : bool;
    userLastNotified : uuid -> string -> option Z }.

(** A notification handed to [sendPushNotification]: the clock readings of
    its cooldown check and of the entry made in [userLastNotified]. *)
Record delivery : Type := mkDelivery
  { notification : NotificationQueueItem;
    checked_at : Z;
    notified_at : Z }.

(** The manager, the number of clock readings made so far, and the
    notifications sent so far, the latest first. *)
Record world : Type := mkWorld
  { this : fields;
    readings : nat;
    sent : list delivery }.

Definition constructed : world :=
  mkWorld (mkFields [] false (fun _ _ => None)) 0 [].

Definition priorityOrder (priority : NotificationPriority) : Z :=
  match priority with
  | HIGH => 0
  | MEDIUM => 1
  | LOW => 2
  end.

(** The comparator given to [sort]. *)
Definition compareFn (a b : NotificationQueueItem) : Z :=
  let priorityDiff := priorityOrder (priority a) - priorityOrder (priority b) in
  if negb (priorityDiff =? 0) then priorityDiff
  else timestamp a - timestamp b.

Fixpoint insert (a : NotificationQueueItem) (sorted : list NotificationQueueItem)
  : list NotificationQueueItem :=
  match sorted with
  | [] => [a]
  | b :: rest => if compareFn a b <=? 0 then a :: sorted else b :: insert a rest
  end.

Definition sort (array : list NotificationQueueItem) : list NotificationQueueItem :=
  fold_right insert [] array.

(** [this.userLastNotified[userId]?.[notificationType] || 0] *)
Definition lastNotified (f : fields) (userId : uuid) (notificationType : string) : Z :=
  match userLastNotified f userId notificationType with
  | Some t => t
  | None => 0
  end.

Definition canSendNotification (f : fields) (Date_now : Z) (userId : uuid)
           (notificationType : string) (priority : NotificationPriority) : bool :=
  let cooldownPeriod := PRIORITY_COOLDOWNS priority in
  let timeSinceLastNotification := Date_now - lastNotified f userId notificationType in
  cooldownPeriod <=? timeSinceLastNotification.

(** [this.userLastNotified[userId][type] = t] *)
Definition notified (userId : uuid) (type : string) (t : Z)
           (last : uuid -> string -> option Z) : uuid -> string -> option Z :=
  fun u k => if N.eqb u userId && String.eqb k type then Some t else last u k.

(** [processQueue], up to the point where it stops: at an empty queue, or
    after a notification has been sent and the timer for the next call is
    set.  A call of [processQueue] from its own body costs one unit of
    [fuel]. *)
Fixpoint processQueue (fuel : nat) (Date_now : nat -> Z) (w : world) : option world :=
  match fuel with
  | O => None
  | S fuel' =>
      match queue (this w) with
      | [] =>
          Some (mkWorld (mkFields [] false (userLastNotified (this w)))
                        (readings w) (sent w))
      | _ :: _ =>
          match sort (queue (this w)) with
          | [] =>
              processQueue fuel' Date_now
                (mkWorld (mkFields [] true (userLastNotified (this w)))
                         (readings w) (sent w))
          | notification :: rest =>
              let now := Date_now (readings w) in
              let canSend :=
                canSendNotification (this w) now (userId notification)
                  (type (data notification)) (priority notification) in
              if canSend then
                let now' := Date_now (S (readings w)) in
                Some (mkWorld
                        (mkFields rest true
                           (notified (userId notification) (type (data notification))
                              now' (userLastNotified (this w))))
                        (S (S (readings w)))
                        (mkDelivery notification now now' :: sent w))
              else if (attempts notification <? maxRetries)%nat then
                let now' := Date_now (S (readings w)) in
                let again :=
                  mkItem (userId notification) (title notification) (body notification)
                    (data notification) (priority notification)
                    (now' + Z.of_nat (attempts notification) * 5000)
                    (attempts notification + 1) in
                processQueue fuel' Date_now
                  (mkWorld (mkFields (rest ++ [again]) true (userLastNotified (this w)))
                           (S (S (readings w))) (sent w))
              else
                processQueue fuel' Date_now
                  (mkWorld (mkFields rest true (userLastNotified (this w)))
                           (S (readings w)) (sent w))
          end
      end
  end.

Definition queueNotification (fuel : nat) (Date_now : nat -> Z) (userId : uuid)
           (title body : string) (data : NotificationData)
           (priority : option NotificationPriority) (w : world) : option world :=
  let notificationPriority :=
    match priority with
    | Some p => p
    | None =>
        match NOTIFICATION_PRIORITIES (type data) with
        | Some p => p
        | None => MEDIUM
        end
    end in
  let pushed :=
    mkWorld
      (mkFields
         (queue (this w) ++
          [mkItem userId title body data notificationPriority
             (Date_now (readings w)) 0])
         (processing (this w)) (userLastNotified (this w)))
      (S (readings w)) (sent w) in
  if negb (processing (this w)) then processQueue fuel Date_now pushed
  else Some pushed.

(** What happens to the manager: a call of [queueNotification], or the
    timer set after a notification was sent. *)
Inductive event : Type :=
| call (userId : uuid) (title body : string) (data : NotificationData)
       (priority : option NotificationPriority)
| setTimeout_fired.

Definition handle (fuel : nat) (Date_now : nat -> Z) (w : world) (e : event)
  : option world :=
  match e with
  | call userId title body data priority =>
      queueNotification fuel Date_now userId title body data priority w
  | setTimeout_fired => processQueue fuel Date_now w
  end.

Fixpoint after (fuel : nat) (Date_now : nat -> Z) (events : list event) (w : world)
  : option world :=
  match events with
  | [] => Some w
  | e :: rest =>
      match handle fuel Date_now w e with
      | Some w' => after fuel Date_now rest w'
      | None => None
      end
  end.

Definition same_target (a b : NotificationQueueItem) : bool :=
  N.eqb (userId a) (userId b) && String.eqb (type (data a)) (type (data b)).

(** Each notification sent was checked a cooldown or more after every
    earlier notification of its type to its user was recorded. *)
Fixpoint spaced (deliveries : list delivery) : bool :=
  match deliveries with
  | [] => true
  | later :: earlier =>
      forallb
        (fun e =>
           negb (same_target (notification e) (notification later)) ||
           (PRIORITY_COOLDOWNS (priority (notification later))
            <=? checked_at later - notified_at e))
        earlier
      && spaced earlier
  end.

(** The calls of [processQueue] a queue can still cause without sending. *)
Fixpoint checks_left (queue : list NotificationQueueItem) : nat :=
  match queue with
  | [] => 0
  | n :: rest => 1 + (maxRetries - attempts n) + checks_left rest
  end.

End NotificationManager.

(** ** Vocabulary for the notification queue *)

(** [a] is to be handled no later than [b]: a higher priority, or the same
    priority and not a later timestamp. *)
Definition precedes (a b : NotificationManager.NotificationQueueItem) : Prop :=
  NotificationManager.priorityOrder (NotificationManager.priority a)
  < NotificationManager.priorityOrder (NotificationManager.priority b) \/
  (NotificationManager.priority a = NotificationManager.priority b /\
   NotificationManager.timestamp a <= NotificationManager.timestamp b).

(** The entries of [userLastNotified] are readings of the clock, and cover
    the notifications sent. *)
Definition recorded (Date_now : nat -> Z) (w : NotificationManager.world) : Prop :=
  (forall d, In d (NotificationManager.sent w) ->
             exists t,
               NotificationManager.userLastNotified (NotificationManager.this w)
                 (NotificationManager.userId (NotificationManager.notification d))
                 (NotificationManager.type
                    (NotificationManager.data (NotificationManager.notification d)))
               = Some t /\
               NotificationManager.notified_at d <= t) /\
  (forall u k t,
      NotificationManager.userLastNotified (NotificationManager.this w) u k = Some t ->
      exists i, (i < NotificationManager.readings w)%nat /\ t = Date_now i) /\
  NotificationManager.spaced (NotificationManager.sent w) = true.

(** The clock does not run backwards. *)
Definition monotone (Date_now : nat -> Z) : Prop :=
  forall i j, (i <= j)%nat -> Date_now i <= Date_now j.

(** A clock that advances by a second from one reading to the next. *)
Definition ticking (k : nat) : Z := 1700000000000 + 1000 * Z.of_nat k.

(** Bob accepts: the notification for Alice. *)
Definition accepted_notice : NotificationManager.event :=
  NotificationManager.call 1%N "Transaction Accepted"
    "Bob accepted your transaction of KSH 500"
    (NotificationManager.mkData "transaction_accepted" 7%N)
    (Some NotificationManager.HIGH).

(** Alice was notified at the third reading; the same notification is
    queued again. *)
Definition just_notified : NotificationManager.world :=
  NotificationManager.mkWorld
    (NotificationManager.mkFields
       [NotificationManager.mkItem 1%N "Transaction Accepted"
          "Bob accepted your transaction of KSH 500"
          (NotificationManager.mkData "transaction_accepted" 7%N)
          NotificationManager.HIGH (ticking 3) 0]
       true
       (NotificationManager.notified 1%N "transaction_accepted" (ticking 2)
          (fun _ _ => None)))
    4 [].

(** A reminder queued before a completion notice. *)
Definition two_queued : NotificationManager.world :=
  NotificationManager.mkWorld
    (NotificationManager.mkFields
       [NotificationManager.mkItem 2%N "Reminder" "A transaction awaits you"
          (NotificationManager.mkData "reminder" 7%N)
          NotificationManager.LOW (ticking 0) 0;
        NotificationManager.mkItem 2%N "Transaction Completed"
          "Your transaction with Alice for KSH 500 is complete"
          (NotificationManager.mkData "transaction_completed" 7%N)
          NotificationManager.HIGH (ticking 1) 0]
       true (fun _ _ => None))
    2 [].

(** * Properties *)

(** ** What a statement leaves alone *)

Lemma funds_moved_refl (u : users.row) : funds_moved 0 0 u u.
Proof. unfold funds_moved, same_profile. repeat split; lia. Qed.

Lemma funds_moved_trans (a b c d : Z) (u v w : users.row) :
  funds_moved a b u v -> funds_moved c d v w -> funds_moved (a + c) (b + d) u w.
Proof.
  unfold funds_moved, same_profile.
  intros (P1 & B1 & E1) (P2 & B2 & E2).
  repeat split; try lia; try (etransitivity; [apply P2 | apply P1]).
Qed.

Lemma funds_moved_eq (a b a' b' : Z) (u v : users.row) :
  funds_moved a b u v -> a = a' -> b = b' -> funds_moved a' b' u v.
Proof. intros H <- <-. exact H. Qed.

Lemma Forall2_funds_refl (us : list users.row) :
  Forall2 (funds_moved 0 0) us us.
Proof. induction us; constructor; auto using funds_moved_refl. Qed.

Lemma Forall2_funds_trans (f g h k : users.row -> Z) (us vs ws : list users.row) :
  Forall2 (fun u v => funds_moved (f u) (g u) u v) us vs ->
  Forall2 (fun v w => funds_moved (h v) (k v) v w) vs ws ->
  (forall u v, users.id v = users.id u -> h v = h u /\ k v = k u) ->
  Forall2 (fun u w => funds_moved (f u + h u) (g u + k u) u w) us ws.
Proof.
  intros H1. revert ws.
  induction H1 as [|u v us vs Huv _ IH]; intros ws H2 Hid.
  - inversion H2. constructor.
  - inversion H2 as [|v' w vs' ws' Hvw Hrest]; subst.
    constructor; [|apply IH; assumption].
    destruct (Hid u v) as [E1 E2]; [apply Huv|].
    rewrite E1, E2 in Hvw.
    eapply funds_moved_trans; eassumption.
Qed.

(** ** The UPDATE statement *)

Lemma UPDATE_total {R : Type} (f : R -> R) (SET : R -> outcome R)
      (WHERE : R -> bool) (rows : list R) :
  (forall r, SET r = Returned (f r)) ->
  UPDATE SET WHERE rows = Returned (map (fun r => if WHERE r then f r else r) rows).
Proof.
  intros HSET. induction rows as [|r rest IH]; simpl; [reflexivity|].
  rewrite IH. destruct (WHERE r); [rewrite HSET|]; reflexivity.
Qed.

Lemma UPDATE_Returned {R : Type} (SET : R -> outcome R) (WHERE : R -> bool)
      (rows rows' : list R) :
  UPDATE SET WHERE rows = Returned rows' ->
  Forall2 (fun r r' => if WHERE r then SET r = Returned r' else r' = r) rows rows'.
Proof.
  revert rows'. induction rows as [|r rest IH]; simpl; intros rows' H.
  - inversion H. constructor.
  - destruct (WHERE r) eqn:W.
    + destruct (SET r) as [r'| |] eqn:S; simpl in H; try discriminate.
      destruct (UPDATE SET WHERE rest) as [rest'| |]; simpl in H; try discriminate.
      inversion H; subst. constructor; [rewrite W; assumption | apply IH; reflexivity].
    + simpl in H.
      destruct (UPDATE SET WHERE rest) as [rest'| |]; simpl in H; try discriminate.
      inversion H; subst. constructor; [rewrite W; reflexivity | apply IH; reflexivity].
Qed.

Lemma UPDATE_succeeds {R : Type} (SET : R -> outcome R) (WHERE : R -> bool)
      (rows : list R) :
  (forall r, In r rows -> WHERE r = true -> exists r', SET r = Returned r') ->
  exists rows', UPDATE SET WHERE rows = Returned rows'.
Proof.
  induction rows as [|r rest IH]; simpl; intros H; [eauto|].
  destruct IH as [rest' ->]; [intros; apply H; auto|].
  destruct (WHERE r) eqn:W.
  - destruct (H r) as [r' ->]; auto. simpl. eauto.
  - simpl. eauto.
Qed.

Lemma numeric_12_2_Returned (v w : Z) :
  numeric_12_2 v = Returned w -> w = v /\ Z.abs v < 10 ^ 12.
Proof.
  unfold numeric_12_2. intros E.
  destruct (Z.abs v <? 10 ^ 12) eqn:L; inversion E; subst.
  split; [reflexivity | apply Z.ltb_lt; exact L].
Qed.

Lemma numeric_12_2_fits (v : Z) :
  Z.abs v < 10 ^ 12 -> numeric_12_2 v = Returned v.
Proof.
  unfold numeric_12_2. intros L. apply Z.ltb_lt in L. rewrite L. reflexivity.
Qed.

Lemma numeric_12_2_outcome (v : Z) :
  numeric_12_2 v = Returned v \/ numeric_12_2 v = Raised numeric_field_overflow.
Proof. unfold numeric_12_2. destruct (Z.abs v <? 10 ^ 12); auto. Qed.

(** Appending to unread lists: always returns, touches the unread lists
    only. *)
Lemma UPDATE_users_unread (i : uuid) (WHERE : users.row -> bool) (db : database) :
  UPDATE_users (SET_unread_append i) WHERE db =
  Returned (tt, mkdb (map (fun u => if WHERE u
                                    then with_unread_transactions
                                           (users.unread_transactions u ++ [i]) u
                                    else u) (public_users db))
                     (public_transactions db)).
Proof.
  unfold UPDATE_users.
  rewrite (UPDATE_total
             (fun u => with_unread_transactions (users.unread_transactions u ++ [i]) u))
    by reflexivity.
  reflexivity.
Qed.

Lemma unread_map_funds (i : uuid) (WHERE : users.row -> bool) (us : list users.row) :
  Forall2 (funds_moved 0 0) us
    (map (fun u => if WHERE u
                   then with_unread_transactions (users.unread_transactions u ++ [i]) u
                   else u) us).
Proof.
  induction us as [|u us IH]; simpl; constructor; [|assumption].
  destruct (WHERE u); [|apply funds_moved_refl].
  unfold funds_moved, same_profile; simpl. repeat split; lia.
Qed.

Lemma UPDATE_funds (a b : Z) (SET : users.row -> outcome users.row)
      (WHERE : users.row -> bool) (us us' : list users.row) :
  (forall u u', SET u = Returned u' -> funds_moved a b u u') ->
  UPDATE SET WHERE us = Returned us' ->
  Forall2 (fun u u' => funds_moved (if WHERE u then a else 0)
                                   (if WHERE u then b else 0) u u') us us'.
Proof.
  intros HSET U. apply UPDATE_Returned in U.
  eapply Forall2_impl; [|exact U].
  intros u u' Hu. simpl in Hu.
  destruct (WHERE u); [apply HSET; assumption | subst; apply funds_moved_refl].
Qed.

Lemma UPDATE_users_funds (a b : Z) (SET : users.row -> outcome users.row)
      (WHERE : users.row -> bool) (db db' : database) :
  (forall u u', SET u = Returned u' -> funds_moved a b u u') ->
  UPDATE_users SET WHERE db = Returned (tt, db') ->
  public_transactions db' = public_transactions db /\
  Forall2 (fun u u' => funds_moved (if WHERE u then a else 0)
                                   (if WHERE u then b else 0) u u')
          (public_users db) (public_users db').
Proof.
  intros HSET. unfold UPDATE_users.
  destruct (UPDATE SET WHERE (public_users db)) as [us| |] eqn:U; simpl; try discriminate.
  intros E. inversion E; subst; simpl. split; [reflexivity|].
  apply (UPDATE_funds a b SET WHERE _ _ HSET U).
Qed.

Lemma UPDATE_returns_or_overflows {R : Type} (SET : R -> outcome R)
      (WHERE : R -> bool) (rows : list R) :
  (forall r, returns_or_overflows (SET r)) ->
  returns_or_overflows (UPDATE SET WHERE rows).
Proof.
  intros HSET. induction rows as [|r rest IH]; simpl; [left; eauto|].
  destruct (WHERE r).
  - destruct (HSET r) as [[r' ->] | ->]; simpl; [|right; reflexivity].
    destruct IH as [[rest' ->] | ->]; simpl; [left; eauto | right; reflexivity].
  - simpl. destruct IH as [[rest' ->] | ->]; simpl; [left; eauto | right; reflexivity].
Qed.

Lemma UPDATE_users_returns_or_overflows (SET : users.row -> outcome users.row)
      (WHERE : users.row -> bool) (db : database) :
  (forall u, returns_or_overflows (SET u)) ->
  returns_or_overflows (UPDATE_users SET WHERE db).
Proof.
  intros HSET. unfold UPDATE_users.
  destruct (UPDATE_returns_or_overflows SET WHERE (public_users db) HSET)
    as [[us ->] | ->]; simpl; [left; eauto | right; reflexivity].
Qed.

(** ** The notification trigger only appends to unread lists *)

Lemma notify_transaction_update_runs (OLD NEW : transactions.row) (db : database) :
  exists us',
    notify_transaction_update OLD NEW db = Returned (tt, mkdb us' (public_transactions db)) /\
    Forall2 (funds_moved 0 0) (public_users db) us'.
Proof.
  unfold notify_transaction_update.
  destruct (negb (status_eqb (transactions.status OLD) (transactions.status NEW)));
    [destruct (transactions.status NEW)|];
    try (rewrite UPDATE_users_unread; eexists; split;
         [reflexivity | apply unread_map_funds]);
    (exists (public_users db); destruct db; split;
       [reflexivity | apply Forall2_funds_refl]).
Qed.

Lemma Forall2_funds_0_trans (us vs ws : list users.row) :
  Forall2 (funds_moved 0 0) us vs -> Forall2 (funds_moved 0 0) vs ws ->
  Forall2 (funds_moved 0 0) us ws.
Proof.
  intros H1. revert ws. induction H1; intros ws H2; inversion H2; subst; constructor.
  - eapply funds_moved_eq; [eapply funds_moved_trans; eassumption | reflexivity..].
  - auto.
Qed.

Lemma row_triggers_run (SET : transactions.row -> transactions.row)
      (rows : list transactions.row) (db : database) :
  exists us',
    FOR_EACH_ROW (fun OLD => notify_transaction_update OLD (SET OLD)) rows db =
      Returned (tt, mkdb us' (public_transactions db)) /\
    Forall2 (funds_moved 0 0) (public_users db) us'.
Proof.
  revert db. induction rows as [|r rest IH]; intros db; simpl.
  - exists (public_users db). destruct db. split; [reflexivity | apply Forall2_funds_refl].
  - unfold bind.
    destruct (notify_transaction_update_runs r (SET r) db) as (us1 & -> & F1).
    destruct (IH (mkdb us1 (public_transactions db))) as (us2 & -> & F2).
    exists us2. split; [reflexivity|].
    eapply Forall2_funds_0_trans; eassumption.
Qed.

Lemma UPDATE_transactions_runs (SET : transactions.row -> transactions.row)
      (WHERE : transactions.row -> bool) (db : database) :
  exists us',
    UPDATE_transactions SET WHERE db =
      Returned (tt, mkdb us' (map (fun t => if WHERE t then SET t else t)
                                  (public_transactions db))) /\
    Forall2 (funds_moved 0 0) (public_users db) us'.
Proof.
  unfold UPDATE_transactions.
  destruct (row_triggers_run SET (filter WHERE (public_transactions db))
              (mkdb (public_users db)
                    (map (fun t => if WHERE t then SET t else t) (public_transactions db))))
    as (us' & E & F).
  exists us'. split; assumption.
Qed.

Lemma Forall2_funds_step (f g h k f' g' : users.row -> Z) (us vs ws : list users.row) :
  Forall2 (fun u v => funds_moved (f u) (g u) u v) us vs ->
  Forall2 (fun v w => funds_moved (h v) (k v) v w) vs ws ->
  (forall u v, users.id v = users.id u -> h v = h u /\ k v = k u) ->
  (forall u, f' u = f u + h u /\ g' u = g u + k u) ->
  Forall2 (fun u w => funds_moved (f' u) (g' u) u w) us ws.
Proof.
  intros H1 H2 Hid Hsum.
  eapply Forall2_impl; [|eapply Forall2_funds_trans; eassumption].
  intros u w H. simpl in H. destruct (Hsum u) as [-> ->]. exact H.
Qed.

Lemma id_is_same (i : uuid) (u v : users.row) :
  users.id v = users.id u -> id_is i v = id_is i u.
Proof. unfold id_is. intros ->. reflexivity. Qed.

(** ** update_transaction_status, branch by branch *)

Lemma update_not_found (NOW : timestamptz) (i : uuid) (p : string) (db : database) :
  find_transaction i db = None ->
  update_transaction_status NOW i p db = Raised Transaction_not_found.
Proof.
  unfold find_transaction, tx_id_is, update_transaction_status, bind, SELECT_transaction.
  intros ->. reflexivity.
Qed.

Lemma update_same_status (NOW : timestamptz) (i : uuid) (t : transactions.row)
      (db : database) :
  find_transaction i db = Some t ->
  update_transaction_status NOW i (status_text (transactions.status t)) db =
  Returned (tt, db).
Proof.
  unfold find_transaction, tx_id_is, update_transaction_status, bind, SELECT_transaction.
  intros ->. rewrite String.eqb_refl. reflexivity.
Qed.

Lemma update_to_accepted (NOW : timestamptz) (i : uuid) (t : transactions.row)
      (db : database) :
  find_transaction i db = Some t ->
  transactions.status t <> accepted ->
  exists us',
    update_transaction_status NOW i "accepted" db =
      Returned (tt, mkdb us' (rows_set (SET_accepted NOW) i (public_transactions db))) /\
    Forall2 (funds_moved 0 0) (public_users db) us'.
Proof.
  unfold find_transaction, tx_id_is, update_transaction_status, bind, SELECT_transaction.
  intros -> Hst.
  destruct (transactions.status t) eqn:St; try congruence; simpl;
    (destruct (UPDATE_transactions_runs (SET_accepted NOW)
                 (fun t0 => N.eqb (transactions.id t0) i) db) as (us1 & E1 & F1);
     unfold tx_id_is; rewrite E1, UPDATE_users_unread; simpl;
     eexists; split; [reflexivity|];
     eapply Forall2_funds_0_trans; [exact F1 | apply unread_map_funds]).
Qed.

Lemma update_to_completed_guard (NOW : timestamptz) (i : uuid) (t : transactions.row)
      (db : database) :
  find_transaction i db = Some t ->
  transactions.status t = pending \/ transactions.status t = cancelled ->
  update_transaction_status NOW i "completed" db =
  Raised Transaction_must_be_accepted_before_completion.
Proof.
  unfold find_transaction, tx_id_is, update_transaction_status, bind, SELECT_transaction.
  intros -> [-> | ->]; reflexivity.
Qed.

Lemma update_to_unknown_status (NOW : timestamptz) (i : uuid) (t : transactions.row)
      (p : string) (db : database) :
  find_transaction i db = Some t ->
  p <> status_text (transactions.status t) ->
  p <> "accepted" -> p <> "completed" -> p <> "cancelled" ->
  update_transaction_status NOW i p db = Raised (Invalid_status p).
Proof.
  unfold find_transaction, tx_id_is, update_transaction_status, bind, SELECT_transaction.
  intros -> H0 H1 H2 H3.
  apply not_eq_sym in H0.
  apply String.eqb_neq in H0, H1, H2, H3. rewrite H0, H1, H2, H3. reflexivity.
Qed.

Lemma update_to_completed (NOW : timestamptz) (i : uuid) (t : transactions.row)
      (db : database) :
  find_transaction i db = Some t ->
  transactions.status t = accepted ->
  returns_or_overflows (update_transaction_status NOW i "completed" db) /\
  forall db',
    update_transaction_status NOW i "completed" db = Returned (tt, db') ->
    public_transactions db' = rows_set (SET_completed NOW) i (public_transactions db) /\
    Forall2
      (fun u u' =>
         funds_moved
           (if id_is (transactions.receiver_id t) u then transactions.amount t else 0)
           (if id_is (transactions.sender_id t) u then - transactions.amount t else 0)
           u u')
      (public_users db) (public_users db').
Proof.
  unfold find_transaction, tx_id_is, update_transaction_status, bind, SELECT_transaction.
  intros -> ->. simpl.
  destruct (UPDATE_transactions_runs (SET_completed NOW)
              (fun t0 => N.eqb (transactions.id t0) i) db) as (us1 & E1 & F1).
  unfold tx_id_is. rewrite E1.
  set (SET_e := fun u : users.row =>
                  e <~ numeric_12_2 (users.escrow_balance u - transactions.amount t) ;;
                  Returned (with_escrow_balance e u)).
  set (SET_b := fun u : users.row =>
                  b <~ numeric_12_2 (users.balance u + transactions.amount t) ;;
                  Returned (with_balance b u)).
  assert (He : forall u u', SET_e u = Returned u' ->
                            funds_moved 0 (- transactions.amount t) u u').
  { intros u u'. unfold SET_e.
    destruct (numeric_12_2_outcome (users.escrow_balance u - transactions.amount t))
      as [-> | ->]; simpl; intros E; inversion E.
    unfold funds_moved, same_profile; simpl. repeat split; lia. }
  assert (Hb : forall u u', SET_b u = Returned u' ->
                            funds_moved (transactions.amount t) 0 u u').
  { intros u u'. unfold SET_b.
    destruct (numeric_12_2_outcome (users.balance u + transactions.amount t))
      as [-> | ->]; simpl; intros E; inversion E.
    unfold funds_moved, same_profile; simpl. repeat split; lia. }
  assert (Re : forall u, returns_or_overflows (SET_e u)).
  { intros u. unfold SET_e.
    destruct (numeric_12_2_outcome (users.escrow_balance u - transactions.amount t))
      as [-> | ->]; simpl; [left; eauto | right; reflexivity]. }
  assert (Rb : forall u, returns_or_overflows (SET_b u)).
  { intros u. unfold SET_b.
    destruct (numeric_12_2_outcome (users.balance u + transactions.amount t))
      as [-> | ->]; simpl; [left; eauto | right; reflexivity]. }
  set (db1 := mkdb us1 _).
  destruct (UPDATE_users_returns_or_overflows SET_e (id_is (transactions.sender_id t))
              db1 Re) as [[[[] db2] E2] | E2]; rewrite E2;
    [|split; [right; reflexivity | discriminate]].
  destruct (UPDATE_users_returns_or_overflows SET_b (id_is (transactions.receiver_id t))
              db2 Rb) as [[[[] db3] E3] | E3]; rewrite E3;
    [|split; [right; reflexivity | discriminate]].
  rewrite UPDATE_users_unread.
  split; [left; eauto|].
  intros db' E. inversion E; subst db'; clear E. simpl.
  apply (UPDATE_users_funds _ _ _ _ _ _ He) in E2. destruct E2 as [T2 F2].
  apply (UPDATE_users_funds _ _ _ _ _ _ Hb) in E3. destruct E3 as [T3 F3].
  split; [rewrite T3, T2; reflexivity|].
  eapply Forall2_funds_step;
    [eapply Forall2_funds_step;
     [eapply Forall2_funds_step; [exact F1 | exact F2 | |] | exact F3 | |]
    | apply unread_map_funds | |]; simpl.
  - intros u v Hid. rewrite (id_is_same _ _ _ Hid). split; reflexivity.
  - intros u. split; reflexivity.
  - intros u v Hid. rewrite (id_is_same _ _ _ Hid). split; reflexivity.
  - intros u. split; reflexivity.
  - intros u v Hid. split; reflexivity.
  - intros u. simpl.
    destruct (id_is (transactions.receiver_id t) u),
             (id_is (transactions.sender_id t) u); split; lia.
Qed.

Lemma update_to_cancelled (NOW : timestamptz) (i : uuid) (t : transactions.row)
      (db : database) :
  find_transaction i db = Some t ->
  transactions.status t <> cancelled ->
  returns_or_overflows (update_transaction_status NOW i "cancelled" db) /\
  forall db',
    update_transaction_status NOW i "cancelled" db = Returned (tt, db') ->
    public_transactions db' = rows_set (SET_cancelled NOW) i (public_transactions db) /\
    Forall2
      (fun u u' =>
         funds_moved
           (if id_is (transactions.sender_id t) u then transactions.amount t else 0)
           (if id_is (transactions.sender_id t) u then - transactions.amount t else 0)
           u u')
      (public_users db) (public_users db').
Proof.
  unfold find_transaction, tx_id_is, update_transaction_status, bind, SELECT_transaction.
  intros -> Hst.
  assert (Heqb : String.eqb (status_text (transactions.status t)) "cancelled" = false)
    by (destruct (transactions.status t); try reflexivity; congruence).
  rewrite Heqb. simpl.
  destruct (UPDATE_transactions_runs (SET_cancelled NOW)
              (fun t0 => N.eqb (transactions.id t0) i) db) as (us1 & E1 & F1).
  unfold tx_id_is. rewrite E1.
  set (SET_f := fun u : users.row =>
                  b <~ numeric_12_2 (users.balance u + transactions.amount t) ;;
                  e <~ numeric_12_2 (users.escrow_balance u - transactions.amount t) ;;
                  Returned (with_escrow_balance e (with_balance b u))).
  assert (Hf : forall u u', SET_f u = Returned u' ->
                            funds_moved (transactions.amount t)
                                        (- transactions.amount t) u u').
  { intros u u'. unfold SET_f.
    destruct (numeric_12_2_outcome (users.balance u + transactions.amount t))
      as [-> | ->]; simpl; [|discriminate].
    destruct (numeric_12_2_outcome (users.escrow_balance u - transactions.amount t))
      as [-> | ->]; simpl; intros E; inversion E.
    unfold funds_moved, same_profile; simpl. repeat split; lia. }
  assert (Rf : forall u, returns_or_overflows (SET_f u)).
  { intros u. unfold SET_f.
    destruct (numeric_12_2_outcome (users.balance u + transactions.amount t))
      as [-> | ->]; simpl; [|right; reflexivity].
    destruct (numeric_12_2_outcome (users.escrow_balance u - transactions.amount t))
      as [-> | ->]; simpl; [left; eauto | right; reflexivity]. }
  set (db1 := mkdb us1 _).
  destruct (UPDATE_users_returns_or_overflows SET_f (id_is (transactions.sender_id t))
              db1 Rf) as [[[[] db2] E2] | E2]; rewrite E2;
    [|split; [right; reflexivity | discriminate]].
  rewrite UPDATE_users_unread.
  split; [left; eauto|].
  intros db' E. inversion E; subst db'; clear E. simpl.
  apply (UPDATE_users_funds _ _ _ _ _ _ Hf) in E2. destruct E2 as [T2 F2].
  split; [rewrite T2; reflexivity|].
  eapply Forall2_funds_step;
    [eapply Forall2_funds_step; [exact F1 | exact F2 | |]
    | apply unread_map_funds | |]; simpl.
  - intros u v Hid. rewrite (id_is_same _ _ _ Hid). split; reflexivity.
  - intros u. split; reflexivity.
  - intros u v Hid. split; reflexivity.
  - intros u. simpl.
    destruct (id_is (transactions.sender_id t) u); split; lia.
Qed.

Lemma find_rows_set (SET : transactions.row -> transactions.row) (i : uuid)
      (rows : list transactions.row) :
  (forall t, transactions.id (SET t) = transactions.id t) ->
  find (tx_id_is i) (rows_set SET i rows) = option_map SET (find (tx_id_is i) rows).
Proof.
  intros Hid. unfold rows_set.
  induction rows as [|r rest IH]; simpl; [reflexivity|].
  destruct (tx_id_is i r) eqn:E.
  - replace (tx_id_is i (SET r)) with true; [reflexivity|].
    unfold tx_id_is in *. rewrite Hid, E. reflexivity.
  - rewrite E. exact IH.
Qed.

(** ** C1: terminal statuses *)

(** C1 (the code departs from the claim).  A completed transaction is not
    closed: asking for 'cancelled' returns without error, marks the
    transaction cancelled and refunds the sender a second time, leaving the
    sender's escrow balance negative; asking for 'accepted' returns without
    error and marks the completed transaction accepted.  A cancelled
    transaction can likewise be moved to 'accepted'.  Only the request for
    'completed' is guarded. *)
Theorem C1_terminal_status_left :
  Scenario.status_of 7%N Scenario.db_completed = Some completed /\
  Scenario.funds_of 1%N Scenario.db_completed = Some (50000, 0) /\
  (exists db',
      update_transaction_status Scenario.two_hours 7%N "cancelled" Scenario.db_completed
        = Returned (tt, db') /\
      Scenario.status_of 7%N db' = Some cancelled /\
      Scenario.funds_of 1%N db' = Some (100000, -50000) /\
      Scenario.funds_of 2%N db' = Some (150000, 0)) /\
  (exists db',
      update_transaction_status Scenario.two_hours 7%N "accepted" Scenario.db_completed
        = Returned (tt, db') /\
      Scenario.status_of 7%N db' = Some accepted) /\
  Scenario.status_of 7%N Scenario.db_cancelled = Some cancelled /\
  (exists db',
      update_transaction_status Scenario.two_hours 7%N "accepted" Scenario.db_cancelled
        = Returned (tt, db') /\
      Scenario.status_of 7%N db' = Some accepted).
Proof.
  repeat split; try reflexivity;
    eexists; (split; [vm_compute; reflexivity | repeat split; reflexivity]).
Qed.

(** ** C2: accepting *)

(** C2, as stated, fails: a pending transaction whose deadline has passed is
    accepted all the same. *)
Lemma C2_expired_pending_accepted :
  ~ (forall NOW i t db db',
        find_transaction i db = Some t ->
        update_transaction_status NOW i "accepted" db = Returned (tt, db') ->
        transactions.status t = pending /\ deadline_passed NOW t = false).
Proof.
  intros claim.
  destruct (find_transaction 7%N Scenario.db_pending) as [t|] eqn:F;
    [|vm_compute in F; discriminate].
  destruct (update_transaction_status Scenario.two_hours 7%N "accepted" Scenario.db_pending)
    as [[[] db']| |] eqn:U; try (vm_compute in U; discriminate).
  destruct (claim _ _ _ _ _ F U) as [_ D].
  vm_compute in F. inversion F; subst t. vm_compute in D. discriminate.
Qed.

(** C2 (amended).  On a pending transaction the request for 'accepted'
    returns, whether or not the deadline has passed: every row with that id
    gets status 'accepted' and accepted_at = NOW, the other rows are left as
    they were, and no user's balance, escrow balance or profile changes
    (unread lists grow).  On a transaction that is already accepted the
    request returns without any effect. *)
Theorem C2_accept (NOW : timestamptz) (i : uuid) (t : transactions.row)
        (db : database) :
  find_transaction i db = Some t ->
  (transactions.status t = pending ->
   exists db',
     update_transaction_status NOW i "accepted" db = Returned (tt, db') /\
     find_transaction i db' = Some (SET_accepted NOW t) /\
     public_transactions db' = rows_set (SET_accepted NOW) i (public_transactions db) /\
     Forall2 (funds_moved 0 0) (public_users db) (public_users db')) /\
  (transactions.status t = accepted ->
   update_transaction_status NOW i "accepted" db = Returned (tt, db)).
Proof.
  intros F. split; intros St.
  - destruct (update_to_accepted NOW i t db F) as (us' & E & Fu); [congruence|].
    eexists. split; [exact E|]. simpl. repeat split; [|exact Fu].
    unfold find_transaction in *. simpl. rewrite find_rows_set by reflexivity.
    rewrite F. reflexivity.
  - pose proof (update_same_status NOW i t db F) as E. rewrite St in E. exact E.
Qed.

(** C2 on the scenario: Bob accepts the pending transaction after half an
    hour. *)
Lemma C2_accept_witness :
  exists db',
    update_transaction_status Scenario.half_hour 7%N "accepted" Scenario.db_pending
      = Returned (tt, db') /\
    Scenario.status_of 7%N db' = Some accepted.
Proof.
  destruct (find_transaction 7%N Scenario.db_pending) as [t|] eqn:F;
    [|vm_compute in F; discriminate].
  destruct (C2_accept Scenario.half_hour 7%N t Scenario.db_pending F) as [Hp _].
  destruct Hp as (db' & E & Ft & _).
  - vm_compute in F. inversion F. reflexivity.
  - exists db'. split; [exact E|].
    unfold Scenario.status_of. rewrite Ft. reflexivity.
Defined.

(** ** C5: completing *)

(** C5, as stated, fails: the procedure completes an accepted transaction
    whose only condition is not completed. *)
Lemma C5_completed_with_open_condition :
  ~ (forall NOW i t db db',
        find_transaction i db = Some t ->
        update_transaction_status NOW i "completed" db = Returned (tt, db') ->
        transactions.status t = accepted /\
        forallb TransactionCondition.completed (transactions.conditions t) = true).
Proof.
  intros claim.
  destruct (find_transaction 7%N Scenario.db_accepted) as [t|] eqn:F;
    [|vm_compute in F; discriminate].
  destruct (update_transaction_status (2 * Scenario.half_hour) 7%N "completed"
              Scenario.db_accepted) as [[[] db']| |] eqn:U;
    try (vm_compute in U; discriminate).
  destruct (claim _ _ _ _ _ F U) as [_ D].
  vm_compute in F. inversion F; subst t. vm_compute in D. discriminate.
Qed.

(** C5 (amended).  [update_transaction_status(id, 'completed')] looks at the
    status only, never at the conditions.  From 'accepted' it either raises
    the overflow of a DECIMAL(12, 2) assignment or returns, and when it
    returns the rows with that id have status 'completed' and completed_at =
    NOW, the sender's escrow balance is lower by the amount and the
    receiver's balance higher by it, nothing else of any user but unread
    lists having changed.  From 'pending' and from 'cancelled' it raises
    'Transaction must be accepted before completion'; from 'completed' it
    returns without effect.  The test that every condition is completed is
    the client's: [handleMarkCondition] asks for 'completed' exactly when
    the conditions, after the mark, are all completed. *)
Theorem C5_complete (NOW : timestamptz) (i : uuid) (t : transactions.row)
        (db : database) :
  find_transaction i db = Some t ->
  (transactions.status t = accepted ->
   returns_or_overflows (update_transaction_status NOW i "completed" db) /\
   forall db',
     update_transaction_status NOW i "completed" db = Returned (tt, db') ->
     find_transaction i db' = Some (SET_completed NOW t) /\
     public_transactions db' = rows_set (SET_completed NOW) i (public_transactions db) /\
     Forall2
       (fun u u' =>
          funds_moved
            (if id_is (transactions.receiver_id t) u then transactions.amount t else 0)
            (if id_is (transactions.sender_id t) u then - transactions.amount t else 0)
            u u')
       (public_users db) (public_users db')) /\
  (transactions.status t = pending \/ transactions.status t = cancelled ->
   update_transaction_status NOW i "completed" db =
   Raised Transaction_must_be_accepted_before_completion) /\
  (transactions.status t = completed ->
   update_transaction_status NOW i "completed" db = Returned (tt, db)) /\
  (forall transaction index mark,
      In (updateTransaction_status (transactions.id transaction) "completed")
         (handleMarkCondition transaction index mark) <->
      exists newConditions,
        mark_condition (transactions.conditions transaction) index mark
          = Some newConditions /\
        forallb TransactionCondition.completed newConditions = true).
Proof.
  intros F. split; [|split; [|split]].
  - intros St. destruct (update_to_completed NOW i t db F St) as [R Hc].
    split; [exact R|]. intros db' E. destruct (Hc db' E) as [T Fu].
    repeat split; [|exact T|exact Fu].
    unfold find_transaction in *. rewrite T, find_rows_set by reflexivity.
    rewrite F. reflexivity.
  - intros St. apply (update_to_completed_guard NOW i t db F St).
  - intros St. pose proof (update_same_status NOW i t db F) as E.
    rewrite St in E. exact E.
  - intros transaction index mark. unfold handleMarkCondition. split.
    + destruct (mark_condition (transactions.conditions transaction) index mark)
        as [newConditions|]; [|intros []].
      destruct (forallb TransactionCondition.completed newConditions) eqn:A; simpl.
      * intros _. exists newConditions. split; [reflexivity | assumption].
      * intros [H | []]; discriminate.
    + intros (newConditions & -> & ->). simpl. right. left. reflexivity.
Qed.

(** C5 on the scenario: the accepted transaction is completed, 500.00 go
    from Alice's escrow to Bob's balance. *)
Lemma C5_complete_witness :
  exists db',
    update_transaction_status (2 * Scenario.half_hour) 7%N "completed" Scenario.db_accepted
      = Returned (tt, db') /\
    Scenario.status_of 7%N db' = Some completed /\
    Scenario.funds_of 1%N db' = Some (50000, 0) /\
    Scenario.funds_of 2%N db' = Some (150000, 0).
Proof.
  destruct (find_transaction 7%N Scenario.db_accepted) as [t|] eqn:F;
    [|vm_compute in F; discriminate].
  destruct (C5_complete (2 * Scenario.half_hour) 7%N t Scenario.db_accepted F)
    as [Ha _].
  destruct Ha as [R _]; [vm_compute in F; inversion F; reflexivity|].
  destruct R as [[[[] db'] E] | E]; [|vm_compute in E; discriminate].
  exists db'. split; [exact E|].
  vm_compute in E. inversion E. repeat split; reflexivity.
Defined.

(** ** C4: the sweep *)

Lemma find_rows_set_other (SET : transactions.row -> transactions.row) (i j : uuid)
      (rows : list transactions.row) :
  (forall t, transactions.id (SET t) = transactions.id t) ->
  i <> j ->
  find (tx_id_is j) (rows_set SET i rows) = find (tx_id_is j) rows.
Proof.
  intros Hid Hij. unfold rows_set.
  induction rows as [|r rest IH]; simpl; [reflexivity|].
  destruct (tx_id_is i r) eqn:E.
  - unfold tx_id_is in *. rewrite Hid. apply N.eqb_eq in E. rewrite E.
    apply N.eqb_neq in Hij. rewrite Hij. exact IH.
  - rewrite IH. reflexivity.
Qed.

Lemma same_id_same_row (rows : list transactions.row) (a b : transactions.row) :
  NoDup (map transactions.id rows) ->
  In a rows -> In b rows -> transactions.id a = transactions.id b -> a = b.
Proof.
  induction rows as [|r rest IH]; simpl; intros ND Ha Hb E; [contradiction|].
  inversion ND as [|x l Hnotin ND']; subst.
  destruct Ha as [-> | Ha], Hb as [-> | Hb].
  - reflexivity.
  - exfalso. apply Hnotin. rewrite E. apply in_map. exact Hb.
  - exfalso. apply Hnotin. rewrite <- E. apply in_map. exact Ha.
  - apply IH; assumption.
Qed.

Lemma find_own_row (rows : list transactions.row) (t : transactions.row) :
  NoDup (map transactions.id rows) -> In t rows ->
  find (tx_id_is (transactions.id t)) rows = Some t.
Proof.
  intros ND Ht.
  destruct (find (tx_id_is (transactions.id t)) rows) as [r|] eqn:F.
  - apply find_some in F. destruct F as [Hr E].
    unfold tx_id_is in E. apply N.eqb_eq in E.
    f_equal. apply (same_id_same_row rows); assumption.
  - apply (find_none _ _ F) in Ht. unfold tx_id_is in Ht.
    rewrite N.eqb_refl in Ht. discriminate.
Qed.

Lemma NoDup_ids_filter (f : transactions.row -> bool) (rows : list transactions.row) :
  NoDup (map transactions.id rows) -> NoDup (map transactions.id (filter f rows)).
Proof.
  induction rows as [|r rest IH]; simpl; intros ND; [constructor|].
  inversion ND as [|x l Hnotin ND']; subst.
  destruct (f r); simpl; [|apply IH; assumption].
  constructor; [|apply IH; assumption].
  intros Hin. apply Hnotin. apply in_map_iff in Hin.
  destruct Hin as (t & E & Ht). apply filter_In in Ht. destruct Ht as [Ht _].
  rewrite <- E. apply in_map. exact Ht.
Qed.

Lemma cancel_each_spec (NOW : timestamptz) (cursor : list transactions.row) :
  forall db,
    NoDup (map transactions.id cursor) ->
    (forall t, In t cursor ->
               find_transaction (transactions.id t) db = Some t /\
               transactions.status t <> cancelled) ->
    returns_or_overflows (cancel_each NOW cursor db) /\
    forall db',
      cancel_each NOW cursor db = Returned (tt, db') ->
      public_transactions db' =
        map (fun r => if existsb (has_id_of r) cursor then SET_cancelled NOW r else r)
            (public_transactions db) /\
      Forall2
        (fun u u' =>
           funds_moved (refunded (users.id u) cursor) (- refunded (users.id u) cursor) u u')
        (public_users db) (public_users db').
Proof.
  unfold cancel_each.
  induction cursor as [|t rest IH]; intros db ND Hrows; simpl.
  - split; [left; eexists; reflexivity|].
    intros db' E. inversion E; subst db'. split.
    + rewrite map_id. reflexivity.
    + eapply Forall2_impl; [|apply Forall2_funds_refl].
      intros u u' H. exact H.
  - inversion ND as [|x l Hnotin ND']; subst.
    destruct (Hrows t (or_introl eq_refl)) as [Ft St].
    destruct (update_to_cancelled NOW (transactions.id t) t db Ft St) as [R1 S1].
    unfold bind.
    destruct R1 as [[[[] db1] E1] | E1]; rewrite E1;
      [|split; [right; reflexivity | discriminate]].
    destruct (S1 db1 E1) as [T1 F1].
    assert (Hrest : forall t', In t' rest ->
                               find_transaction (transactions.id t') db1 = Some t' /\
                               transactions.status t' <> cancelled).
    { intros t' Ht'. destruct (Hrows t' (or_intror Ht')) as [Ft' St'].
      split; [|exact St'].
      unfold find_transaction in *. rewrite T1.
      rewrite find_rows_set_other; [exact Ft' | reflexivity |].
      intros E. apply Hnotin. rewrite E. apply in_map. exact Ht'. }
    destruct (IH db1 ND' Hrest) as [R2 S2].
    split; [exact R2|].
    intros db' E2. destruct (S2 db' E2) as [T2 F2]. split.
    + rewrite T2, T1. unfold rows_set. rewrite map_map.
      apply map_ext. intros r. unfold has_id_of at 2, tx_id_is.
      rewrite (N.eqb_sym (transactions.id t) (transactions.id r)).
      destruct (N.eqb (transactions.id r) (transactions.id t)) eqn:E; simpl.
      * replace (existsb (has_id_of (SET_cancelled NOW r)) rest) with false;
          [reflexivity|].
        symmetry. apply not_true_is_false. intros Hex.
        apply existsb_exists in Hex. destruct Hex as (t' & Ht' & Et').
        unfold has_id_of in Et'. simpl in Et'. apply N.eqb_eq in Et', E.
        apply Hnotin. rewrite <- E, <- Et'. apply in_map. exact Ht'.
      * reflexivity.
    + eapply Forall2_funds_step; [exact F1 | exact F2 | |].
      * intros u v Hid. cbv beta. rewrite Hid. split; reflexivity.
      * intros u. cbv beta. unfold id_is. simpl refunded.
        destruct (N.eqb (users.id u) (transactions.sender_id t)); split; lia.
Qed.

Lemma Forall2_In_r {A B : Type} (R : A -> B -> Prop) (l : list A) (l' : list B) (y : B) :
  Forall2 R l l' -> In y l' -> exists x, In x l /\ R x y.
Proof.
  induction 1 as [|a b l l' Hab _ IH]; simpl; intros Hy; [contradiction|].
  destruct Hy as [<- | Hy].
  - exists a. auto.
  - destruct (IH Hy) as (x & Hx & Rx). exists x. auto.
Qed.

(** The refund of a cancellation fits when the sender's balances have room
    for the amount. *)
Lemma update_to_cancelled_returns (NOW : timestamptz) (i : uuid) (t : transactions.row)
      (db : database) :
  find_transaction i db = Some t ->
  transactions.status t <> cancelled ->
  (forall u, In u (public_users db) ->
             Z.abs (users.balance u) + Z.abs (transactions.amount t) < 10 ^ 12 /\
             Z.abs (users.escrow_balance u) + Z.abs (transactions.amount t) < 10 ^ 12) ->
  exists db', update_transaction_status NOW i "cancelled" db = Returned (tt, db').
Proof.
  intros F St Room.
  destruct (update_to_cancelled NOW i t db F St) as [[[[[] db'] E] | E] _]; [eauto|].
  exfalso. revert E.
  unfold find_transaction, tx_id_is, update_transaction_status, bind, SELECT_transaction in *.
  rewrite F.
  assert (Heqb : String.eqb (status_text (transactions.status t)) "cancelled" = false)
    by (destruct (transactions.status t); try reflexivity; congruence).
  rewrite Heqb. simpl.
  destruct (UPDATE_transactions_runs (SET_cancelled NOW)
              (fun t0 => N.eqb (transactions.id t0) i) db) as (us1 & E1 & F1).
  unfold tx_id_is. rewrite E1.
  unfold UPDATE_users at 1. simpl.
  match goal with
  | |- context [UPDATE ?S ?W us1] =>
      destruct (UPDATE_succeeds S W us1) as [us2 ->]
  end.
  - intros u1 Hu1 _.
    destruct (Forall2_In_r _ _ _ _ F1 Hu1) as (u & Hu & (_ & Bu & Eu)).
    destruct (Room u Hu) as [Rb Re].
    rewrite !numeric_12_2_fits by lia. simpl. eauto.
  - simpl. rewrite UPDATE_users_unread. discriminate.
Qed.

Lemma total_amount_nonneg (rows : list transactions.row) : 0 <= total_amount rows.
Proof. induction rows; simpl; lia. Qed.

Lemma cancel_each_returns (NOW : timestamptz) (cursor : list transactions.row) :
  forall db,
    NoDup (map transactions.id cursor) ->
    (forall t, In t cursor ->
               find_transaction (transactions.id t) db = Some t /\
               transactions.status t <> cancelled) ->
    (forall u, In u (public_users db) ->
               Z.abs (users.balance u) + total_amount cursor < 10 ^ 12 /\
               Z.abs (users.escrow_balance u) + total_amount cursor < 10 ^ 12) ->
    exists db', cancel_each NOW cursor db = Returned (tt, db').
Proof.
  unfold cancel_each.
  induction cursor as [|t rest IH]; intros db ND Hrows Room; simpl.
  - eexists. reflexivity.
  - inversion ND as [|x l Hnotin ND']; subst.
    destruct (Hrows t (or_introl eq_refl)) as [Ft St].
    pose proof (total_amount_nonneg rest) as Hnn.
    destruct (update_to_cancelled_returns NOW (transactions.id t) t db Ft St)
      as [db1 E1].
    { intros u Hu. destruct (Room u Hu) as [Rb Re]. simpl in Rb, Re. lia. }
    unfold bind. rewrite E1.
    destruct (update_to_cancelled NOW (transactions.id t) t db Ft St) as [_ S1].
    destruct (S1 db1 E1) as [T1 F1].
    apply IH; [exact ND' | |].
    + intros t' Ht'. destruct (Hrows t' (or_intror Ht')) as [Ft' St'].
      split; [|exact St'].
      unfold find_transaction in *. rewrite T1.
      rewrite find_rows_set_other; [exact Ft' | reflexivity |].
      intros E. apply Hnotin. rewrite E. apply in_map. exact Ht'.
    + intros u1 Hu1.
      destruct (Forall2_In_r _ _ _ _ F1 Hu1) as (u & Hu & (_ & Bu & Eu)).
      destruct (Room u Hu) as [Rb Re]. simpl in Rb, Re.
      rewrite Bu, Eu.
      destruct (id_is (transactions.sender_id t) u); lia.
Qed.

Lemma expired_cursor_iff (NOW : timestamptz) (r : transactions.row) :
  expired_cursor NOW r = true <->
  transactions.status r = pending /\
  exists created,
    transactions.created_at r = Some created /\
    created + transactions.time_limit r * INTERVAL_1_hour < NOW.
Proof.
  unfold expired_cursor. split.
  - intros H. apply andb_true_iff in H. destruct H as [S D].
    split; [destruct (transactions.status r); try discriminate; reflexivity|].
    destruct (transactions.created_at r) as [c|]; [|discriminate].
    exists c. split; [reflexivity | apply Z.ltb_lt; exact D].
  - intros (-> & c & -> & L). simpl. apply Z.ltb_lt. exact L.
Qed.

(** The rows the sweep finds are rows of the table, each the one row with
    its id, pending. *)
Lemma swept_rows (NOW : timestamptz) (db : database) :
  NoDup (map transactions.id (public_transactions db)) ->
  NoDup (map transactions.id (filter (expired_cursor NOW) (public_transactions db))) /\
  forall t, In t (filter (expired_cursor NOW) (public_transactions db)) ->
            find_transaction (transactions.id t) db = Some t /\
            transactions.status t <> cancelled.
Proof.
  intros ND. split; [apply NoDup_ids_filter; exact ND|].
  intros t Ht. apply filter_In in Ht. destruct Ht as [Ht Ex].
  split; [apply find_own_row; assumption|].
  apply expired_cursor_iff in Ex. destruct Ex as [-> _]. discriminate.
Qed.

Lemma process_expired_Returned (NOW : timestamptz) (db db' : database) :
  NoDup (map transactions.id (public_transactions db)) ->
  process_expired_transactions NOW db = Returned (tt, db') ->
  public_transactions db' =
    map (fun r => if expired_cursor NOW r then SET_cancelled NOW r else r)
        (public_transactions db) /\
  Forall2
    (fun u u' =>
       funds_moved
         (refunded (users.id u) (filter (expired_cursor NOW) (public_transactions db)))
         (- refunded (users.id u) (filter (expired_cursor NOW) (public_transactions db)))
         u u')
    (public_users db) (public_users db').
Proof.
  intros ND E.
  destruct (swept_rows NOW db ND) as [NDs Hrows].
  set (swept := filter (expired_cursor NOW) (public_transactions db)) in *.
  change (process_expired_transactions NOW db) with (cancel_each NOW swept db) in E.
  destruct (cancel_each_spec NOW swept db NDs Hrows) as [_ S].
  destruct (S db' E) as [T Fu]. split; [|exact Fu].
  rewrite T. apply map_ext_in. intros r Hr.
  destruct (expired_cursor NOW r) eqn:Ex.
  - replace (existsb (has_id_of r) swept) with true; [reflexivity|].
    symmetry. apply existsb_exists. exists r. split.
    + apply filter_In. auto.
    + unfold has_id_of. apply N.eqb_refl.
  - replace (existsb (has_id_of r) swept) with false; [reflexivity|].
    symmetry. apply not_true_is_false. intros Hex.
    apply existsb_exists in Hex. destruct Hex as (t & Ht & Et).
    apply filter_In in Ht. destruct Ht as [Ht Ext].
    unfold has_id_of in Et. apply N.eqb_eq in Et.
    rewrite (same_id_same_row _ t r ND Ht Hr Et) in Ext. congruence.
Qed.

(** C4, as stated, fails: an accepted transaction whose deadline, counted
    from accepted_at, has passed is left accepted by the sweep. *)
Lemma C4_accepted_not_swept :
  ~ (forall NOW db db' t,
        NoDup (map transactions.id (public_transactions db)) ->
        process_expired_transactions NOW db = Returned (tt, db') ->
        In t (public_transactions db) ->
        transactions.status t = pending \/ transactions.status t = accepted ->
        deadline_passed NOW t = true ->
        option_map transactions.status (find_transaction (transactions.id t) db')
        = Some cancelled).
Proof.
  intros claim.
  destruct (find_transaction 7%N Scenario.db_accepted) as [t|] eqn:F;
    [|vm_compute in F; discriminate].
  assert (Hin : In t (public_transactions Scenario.db_accepted))
    by (apply (find_some _ _ F)).
  specialize (claim Scenario.two_hours Scenario.db_accepted Scenario.db_accepted t).
  vm_compute in F. inversion F; subst t.
  assert (C : option_map transactions.status
                (find_transaction 7%N Scenario.db_accepted) = Some cancelled).
  { apply claim.
    - vm_compute. repeat constructor. intros [].
    - vm_compute. reflexivity.
    - exact Hin.
    - right. reflexivity.
    - vm_compute. reflexivity. }
  vm_compute in C. discriminate.
Qed.

(** C4 (amended).  One run of [process_expired_transactions], on a table
    whose ids are distinct, cancels exactly the rows whose status is
    'pending' and whose created_at plus time_limit hours lies before NOW:
    it gives each of them status 'cancelled' and cancelled_at = NOW, leaves
    every other row (accepted ones included, whatever their accepted_at) as
    it was, adds to each user's balance the amounts of the swept rows that
    user sent and takes the same sum off the escrow balance.  The run
    returns whenever every balance has room for the swept amounts, and
    otherwise can only raise the overflow of a DECIMAL(12, 2) assignment. *)
Theorem C4_sweep (NOW : timestamptz) (db : database) :
  NoDup (map transactions.id (public_transactions db)) ->
  let swept := filter (expired_cursor NOW) (public_transactions db) in
  (forall r,
      expired_cursor NOW r = true <->
      transactions.status r = pending /\
      exists created,
        transactions.created_at r = Some created /\
        created + transactions.time_limit r * INTERVAL_1_hour < NOW) /\
  returns_or_overflows (process_expired_transactions NOW db) /\
  ((forall u, In u (public_users db) ->
              Z.abs (users.balance u) + total_amount swept < 10 ^ 12 /\
              Z.abs (users.escrow_balance u) + total_amount swept < 10 ^ 12) ->
   exists db', process_expired_transactions NOW db = Returned (tt, db')) /\
  (forall db',
      process_expired_transactions NOW db = Returned (tt, db') ->
      public_transactions db' =
        map (fun r => if expired_cursor NOW r then SET_cancelled NOW r else r)
            (public_transactions db) /\
      Forall2
        (fun u u' =>
           funds_moved (refunded (users.id u) swept) (- refunded (users.id u) swept) u u')
        (public_users db) (public_users db')).
Proof.
  intros ND swept.
  destruct (swept_rows NOW db ND) as [NDs Hrows].
  split; [apply expired_cursor_iff|].
  split; [apply (cancel_each_spec NOW swept db NDs Hrows)|].
  split; [intros Room; apply (cancel_each_returns NOW swept db NDs Hrows Room)|].
  intros db' E. apply (process_expired_Returned NOW db db' ND E).
Qed.

(** C4 on the scenario: two hours after its creation the pending
    transaction is swept and Alice has her 1000.00 back. *)
Lemma C4_sweep_witness :
  exists db',
    process_expired_transactions Scenario.two_hours Scenario.db_pending
      = Returned (tt, db') /\
    Scenario.status_of 7%N db' = Some cancelled /\
    Scenario.funds_of 1%N db' = Some (100000, 0).
Proof.
  assert (ND : NoDup (map transactions.id (public_transactions Scenario.db_pending)))
    by (vm_compute; repeat constructor; intros []).
  destruct (C4_sweep Scenario.two_hours Scenario.db_pending ND) as (_ & _ & Ret & _).
  destruct Ret as [db' E].
  - intros u Hu. vm_compute in Hu.
    destruct Hu as [<- | [<- | []]]; vm_compute; split; reflexivity.
  - exists db'. split; [exact E|].
    vm_compute in E. inversion E. split; reflexivity.
Defined.

(** ** create_transaction_with_escrow, stage by stage *)

(** What the insert has checked when it returns. *)
Lemma INSERT_Returned (NOW : timestamptz) (uuid_generate_v4 : uuid) (new_vtid : string)
      (p_sender_id p_receiver_id : uuid) (p_amount : numeric)
      (p_conditions : list TransactionCondition.t) (p_time_limit : Z)
      (db db' : database) (t : transactions.row) :
  INSERT_INTO_transactions NOW uuid_generate_v4 new_vtid p_sender_id p_receiver_id
    p_amount p_conditions p_time_limit db = Returned (t, db') ->
  t = transactions.mk uuid_generate_v4 new_vtid p_sender_id p_receiver_id p_amount
        pending p_conditions p_time_limit (Some NOW) None None None /\
  p_sender_id <> p_receiver_id /\
  0 < p_amount < 10 ^ 12 /\
  existsb (tx_id_is uuid_generate_v4) (public_transactions db) = false /\
  existsb (id_is p_sender_id) (public_users db) = true /\
  existsb (id_is p_receiver_id) (public_users db) = true /\
  db' = mkdb (public_users db) (public_transactions db ++ [t]).
Proof.
  unfold INSERT_INTO_transactions.
  destruct (numeric_12_2 p_amount) as [a| |] eqn:N; simpl; try discriminate.
  apply numeric_12_2_Returned in N. destruct N as [-> Fit].
  destruct (N.eqb p_sender_id p_receiver_id) eqn:D; [discriminate|].
  destruct (0 <? p_amount) eqn:P; simpl; [|discriminate].
  destruct (existsb (tx_id_is uuid_generate_v4) (public_transactions db)) eqn:K;
    [discriminate|].
  destruct (existsb (fun t0 => String.eqb (transactions.vtid t0) new_vtid)
              (public_transactions db)) eqn:V; [discriminate|].
  destruct (existsb (id_is p_sender_id) (public_users db)) eqn:S; simpl; [|discriminate].
  destruct (existsb (id_is p_receiver_id) (public_users db)) eqn:R; simpl; [|discriminate].
  intros E. inversion E; subst. apply N.eqb_neq in D. apply Z.ltb_lt in P.
  repeat split; try assumption; try reflexivity. lia.
Qed.

(** The stages a call that returns has gone through. *)
Lemma create_Returned (NOW : timestamptz) (uuid_generate_v4 : uuid)
      (md5_random : nat -> string) (fuel : nat) (p_sender_id p_receiver_id : uuid)
      (p_amount : numeric) (p_conditions : list TransactionCondition.t)
      (p_time_limit : Z) (db db' : database) (t : transactions.row) :
  create_transaction_with_escrow NOW uuid_generate_v4 md5_random fuel p_sender_id
    p_receiver_id p_amount p_conditions p_time_limit db = Returned (t, db') ->
  exists new_vtid us1,
    NULL_lt (option_map users.balance (find_user p_sender_id db)) p_amount = false /\
    generate_LOOP 12 md5_random (map transactions.vtid (public_transactions db)) fuel 0
      = Returned new_vtid /\
    UPDATE (SET_escrowed p_amount) (id_is p_sender_id) (public_users db) = Returned us1 /\
    INSERT_INTO_transactions NOW uuid_generate_v4 new_vtid p_sender_id p_receiver_id
      p_amount p_conditions p_time_limit (mkdb us1 (public_transactions db))
      = Returned (t, mkdb us1 (public_transactions db ++ [t])) /\
    db' = mkdb (notified (transactions.id t) p_receiver_id us1)
               (public_transactions db ++ [t]).
Proof.
  unfold create_transaction_with_escrow, bind, SELECT_user, find_user.
  fold (id_is p_sender_id).
  destruct (NULL_lt _ p_amount) eqn:G; [discriminate|].
  unfold generate_vtid.
  destruct (generate_LOOP 12 md5_random _ fuel 0) as [new_vtid| |] eqn:L;
    simpl; try discriminate.
  unfold UPDATE_users at 1. fold (SET_escrowed p_amount).
  destruct (UPDATE (SET_escrowed p_amount) (id_is p_sender_id) (public_users db))
    as [us1| |] eqn:U; simpl; try discriminate.
  destruct (INSERT_INTO_transactions NOW uuid_generate_v4 new_vtid p_sender_id
              p_receiver_id p_amount p_conditions p_time_limit
              (mkdb us1 (public_transactions db))) as [[t1 db1]| |] eqn:I;
    try discriminate.
  rewrite UPDATE_users_unread. unfold ret. intros E. inversion E; subst t1 db'; clear E.
  destruct (INSERT_Returned _ _ _ _ _ _ _ _ _ _ _ I) as (_ & _ & _ & _ & _ & _ & Edb).
  subst db1. simpl in *.
  exists new_vtid, us1. repeat split; assumption.
Qed.

(** ** The generating loop *)

Lemma existsb_eqb_In (c : string) (stored : list string) :
  existsb (String.eqb c) stored = true <-> In c stored.
Proof.
  rewrite existsb_exists. split.
  - intros (x & Hx & E). apply String.eqb_eq in E. subst. exact Hx.
  - intros H. exists c. split; [exact H | apply String.eqb_refl].
Qed.

Lemma generate_LOOP_Returned (width : nat) (md5_random : nat -> string)
      (stored : list string) (fuel : nat) :
  forall draw code,
    generate_LOOP width md5_random stored fuel draw = Returned code ->
    ~ In code stored /\
    exists k, (draw <= k < draw + fuel)%nat /\ code = candidate width (md5_random k).
Proof.
  induction fuel as [|fuel IH]; intros draw code; simpl; [discriminate|].
  fold (candidate width (md5_random draw)).
  destruct (existsb (String.eqb (candidate width (md5_random draw))) stored) eqn:E; simpl.
  - intros H. destruct (IH _ _ H) as (Hn & k & Hk & Ek).
    split; [exact Hn|]. exists k. split; [lia | exact Ek].
  - intros H. inversion H; subst. split.
    + intros Hin. apply existsb_eqb_In in Hin. congruence.
    + exists draw. split; [lia | reflexivity].
Qed.

Lemma generate_LOOP_first_fresh (width : nat) (md5_random : nat -> string)
      (stored : list string) (fuel : nat) :
  forall draw n,
    (forall i, (draw <= i < n)%nat -> In (candidate width (md5_random i)) stored) ->
    ~ In (candidate width (md5_random n)) stored ->
    (draw <= n)%nat ->
    generate_LOOP width md5_random stored fuel draw =
    if (n - draw <? fuel)%nat then Returned (candidate width (md5_random n))
    else Unfinished.
Proof.
  induction fuel as [|fuel IH]; intros draw n Hbefore Hn Hle; simpl; [reflexivity|].
  fold (candidate width (md5_random draw)).
  destruct (Nat.eq_dec draw n) as [-> | Hne].
  - replace (existsb (String.eqb (candidate width (md5_random n))) stored) with false.
    + simpl. rewrite Nat.sub_diag. reflexivity.
    + symmetry. apply not_true_is_false. intros E. apply existsb_eqb_In in E. auto.
  - replace (existsb (String.eqb (candidate width (md5_random draw))) stored) with true.
    + simpl. rewrite (IH (S draw) n); [| intros i Hi; apply Hbefore; lia | exact Hn | lia].
      replace (n - draw)%nat with (S (n - S draw)) by lia.
      reflexivity.
    + symmetry. apply existsb_eqb_In. apply Hbefore. lia.
Qed.

(** ** The alphabet of the codes *)

Lemma UPPER_char_md5 (c : ascii) :
  is_md5_char c = true -> is_upper_alnum (UPPER_char c) = true.
Proof.
  destruct c as [[|] [|] [|] [|] [|] [|] [|] [|]]; vm_compute; intros H;
    first [reflexivity | discriminate H].
Qed.

Lemma UPPER_length (s : string) : String.length (UPPER s) = String.length s.
Proof. induction s; simpl; congruence. Qed.

Lemma UPPER_md5 (s : string) :
  string_forall is_md5_char s = true -> string_forall is_upper_alnum (UPPER s) = true.
Proof.
  induction s as [|c s IH]; simpl; [reflexivity|].
  intros H. apply andb_true_iff in H. destruct H as [Hc Hs].
  rewrite (UPPER_char_md5 c Hc), (IH Hs). reflexivity.
Qed.

Lemma SUBSTRING_length (n : nat) :
  forall s, (n <= String.length s)%nat ->
            String.length (SUBSTRING_FROM_1_FOR n s) = n.
Proof.
  unfold SUBSTRING_FROM_1_FOR.
  induction n as [|n IH]; intros s H.
  - destruct s; reflexivity.
  - destruct s as [|c s]; simpl in *; [lia|]. rewrite IH by lia. reflexivity.
Qed.

Lemma SUBSTRING_forall (p : ascii -> bool) (n : nat) :
  forall s, string_forall p s = true ->
            string_forall p (SUBSTRING_FROM_1_FOR n s) = true.
Proof.
  unfold SUBSTRING_FROM_1_FOR.
  induction n as [|n IH]; intros s H.
  - destruct s; reflexivity.
  - destruct s as [|c s]; simpl in *; [reflexivity|].
    apply andb_true_iff in H. destruct H as [Hc Hs].
    rewrite Hc, (IH s Hs). reflexivity.
Qed.

Lemma candidate_shape (width : nat) (digest : string) :
  (width <= 32)%nat ->
  is_md5_text digest = true ->
  String.length (candidate width digest) = width /\
  string_forall is_upper_alnum (candidate width digest) = true.
Proof.
  unfold is_md5_text, candidate. intros W H.
  apply andb_true_iff in H. destruct H as [L A]. apply Nat.eqb_eq in L.
  split.
  - rewrite UPPER_length. apply SUBSTRING_length. lia.
  - apply UPPER_md5. apply SUBSTRING_forall. exact A.
Qed.

(** ** C9: identifier generation *)

Lemma generate_LOOP_code (width : nat) (md5_random : nat -> string)
      (stored : list string) (fuel : nat) (code : string) :
  (width <= 32)%nat ->
  (forall i, is_md5_text (md5_random i) = true) ->
  generate_LOOP width md5_random stored fuel 0 = Returned code ->
  String.length code = width /\
  string_forall is_upper_alnum code = true /\
  ~ In code stored.
Proof.
  intros W Hmd5 L.
  apply generate_LOOP_Returned in L. destruct L as (Hfresh & k & _ & ->).
  destruct (candidate_shape width (md5_random k) W (Hmd5 k)) as [Len Alnum].
  repeat split; assumption.
Qed.

Lemma generate_LOOP_leaves (width : nat) (md5_random : nat -> string)
      (stored : list string) (n fuel : nat) :
  first_fresh width md5_random stored n ->
  ((fuel <= n)%nat -> generate_LOOP width md5_random stored fuel 0 = Unfinished) /\
  ((n < fuel)%nat ->
   generate_LOOP width md5_random stored fuel 0 =
   Returned (UPPER (SUBSTRING_FROM_1_FOR width (md5_random n)))).
Proof.
  intros [Hbefore Hfresh].
  rewrite (generate_LOOP_first_fresh width md5_random stored fuel 0 n);
    [| intros i Hi; apply Hbefore; lia | exact Hfresh | lia].
  rewrite Nat.sub_0_r. split; intros Hf.
  - apply Nat.ltb_ge in Hf. rewrite Hf. reflexivity.
  - apply Nat.ltb_lt in Hf. rewrite Hf. reflexivity.
Qed.

(** C9.  Whatever texts MD5 yields: a code that [generate_vid] returns has
    8 characters, all digits or upper-case letters, and is the vault_id of
    no user; a code that [generate_vtid] returns has 12 such characters and
    is the vtid of no transaction; neither call changes the database.  The
    loop has no retry limit: it returns the code of the first draw that is
    not stored, however many draws collide before it, so when the first [n]
    draws collide and the next does not, the call returns once the body has
    run [n + 1] times and has not finished before. *)
Theorem C9_generate (md5_random : nat -> string) (db : database) :
  (forall i, is_md5_text (md5_random i) = true) ->
  (forall fuel new_vid db',
      generate_vid md5_random fuel db = Returned (new_vid, db') ->
      db' = db /\
      String.length new_vid = 8%nat /\
      string_forall is_upper_alnum new_vid = true /\
      ~ In new_vid (map users.vault_id (public_users db))) /\
  (forall n fuel,
      first_fresh 8 md5_random (map users.vault_id (public_users db)) n ->
      ((fuel <= n)%nat -> generate_vid md5_random fuel db = Unfinished) /\
      ((n < fuel)%nat ->
       generate_vid md5_random fuel db =
       Returned (UPPER (SUBSTRING_FROM_1_FOR 8 (md5_random n)), db))) /\
  (forall fuel new_vtid db',
      generate_vtid md5_random fuel db = Returned (new_vtid, db') ->
      db' = db /\
      String.length new_vtid = 12%nat /\
      string_forall is_upper_alnum new_vtid = true /\
      ~ In new_vtid (map transactions.vtid (public_transactions db))) /\
  (forall n fuel,
      first_fresh 12 md5_random (map transactions.vtid (public_transactions db)) n ->
      ((fuel <= n)%nat -> generate_vtid md5_random fuel db = Unfinished) /\
      ((n < fuel)%nat ->
       generate_vtid md5_random fuel db =
       Returned (UPPER (SUBSTRING_FROM_1_FOR 12 (md5_random n)), db))).
Proof.
  intros Hmd5. split; [|split; [|split]].
  - intros fuel new_vid db'. unfold generate_vid.
    destruct (generate_LOOP 8 md5_random _ fuel 0) as [code| |] eqn:L; simpl;
      try discriminate.
    intros E. inversion E; subst. split; [reflexivity|].
    apply (generate_LOOP_code 8 md5_random _ fuel); [lia | exact Hmd5 | exact L].
  - intros n fuel Hn. unfold generate_vid.
    destruct (generate_LOOP_leaves 8 md5_random _ n fuel Hn) as [U R].
    split; intros Hf; [rewrite (U Hf) | rewrite (R Hf)]; reflexivity.
  - intros fuel new_vtid db'. unfold generate_vtid.
    destruct (generate_LOOP 12 md5_random _ fuel 0) as [code| |] eqn:L; simpl;
      try discriminate.
    intros E. inversion E; subst. split; [reflexivity|].
    apply (generate_LOOP_code 12 md5_random _ fuel); [lia | exact Hmd5 | exact L].
  - intros n fuel Hn. unfold generate_vtid.
    destruct (generate_LOOP_leaves 12 md5_random _ n fuel Hn) as [U R].
    split; intros Hf; [rewrite (U Hf) | rewrite (R Hf)]; reflexivity.
Qed.

(** C9 on the scenario: the first draw collides with a stored code, the
    second is returned; with fuel for one draw the loop has not finished. *)
Lemma C9_generate_witness :
  generate_vid Scenario.digests 2 Scenario.crowded
    = Returned ("0CC175B9", Scenario.crowded) /\
  generate_vid Scenario.digests 1 Scenario.crowded = Unfinished /\
  generate_vtid Scenario.digests 2 Scenario.db_pending
    = Returned ("0CC175B9C0F1", Scenario.db_pending).
Proof.
  assert (Hmd5 : forall i, is_md5_text (Scenario.digests i) = true)
    by (intros [|i]; reflexivity).
  assert (Hvid : first_fresh 8 Scenario.digests
                   (map users.vault_id (public_users Scenario.crowded)) 1).
  { split.
    - intros [|i] Hi; [vm_compute; auto | lia].
    - vm_compute. intros [H | [H | [H | []]]]; discriminate H. }
  assert (Hvtid : first_fresh 12 Scenario.digests
                    (map transactions.vtid (public_transactions Scenario.db_pending)) 1).
  { split.
    - intros [|i] Hi; [vm_compute; auto | lia].
    - vm_compute. intros [H | []]; discriminate H. }
  destruct (C9_generate Scenario.digests Scenario.crowded Hmd5) as (_ & Gvid & _).
  destruct (C9_generate Scenario.digests Scenario.db_pending Hmd5) as (_ & _ & _ & Gvtid).
  destruct (Gvid 1%nat 2%nat Hvid) as [_ R2].
  destruct (Gvid 1%nat 1%nat Hvid) as [U1 _].
  destruct (Gvtid 1%nat 2%nat Hvtid) as [_ T2].
  split; [exact (R2 (le_n 2)) | split; [exact (U1 (le_n 1)) | exact (T2 (le_n 2))]].
Defined.

(** ** C6: what a creation that returns has done *)

Lemma Forall2_map_right {A B : Type} (P Q : A -> B -> Prop) (g : B -> B)
      (l : list A) (l' : list B) :
  (forall a b, P a b -> Q a (g b)) ->
  Forall2 P l l' -> Forall2 Q l (map g l').
Proof. intros H. induction 1; simpl; constructor; auto. Qed.

Lemma SET_escrowed_Returned (p_amount : numeric) (u u' : users.row) :
  SET_escrowed p_amount u = Returned u' ->
  u' = with_escrow_balance (users.escrow_balance u + p_amount)
         (with_balance (users.balance u - p_amount) u).
Proof.
  unfold SET_escrowed.
  destruct (numeric_12_2_outcome (users.balance u - p_amount)) as [-> | ->]; simpl;
    [|discriminate].
  destruct (numeric_12_2_outcome (users.escrow_balance u + p_amount)) as [-> | ->]; simpl;
    [|discriminate].
  intros E. inversion E. reflexivity.
Qed.



(** ** C7: insufficient funds *)

(** C7.  When the sender exists and has a balance strictly below the
    amount, the call raises 'Insufficient balance', before the vtid loop
    and before any statement that writes: the database is as it was. *)
Theorem C7_insufficient_funds (NOW : timestamptz) (uuid_generate_v4 : uuid)
        (md5_random : nat -> string) (fuel : nat) (p_sender_id p_receiver_id : uuid)
        (p_amount : numeric) (p_conditions : list TransactionCondition.t)
        (p_time_limit : Z) (db : database) (sender : users.row) :
  find_user p_sender_id db = Some sender ->
  users.balance sender < p_amount ->
  create_transaction_with_escrow NOW uuid_generate_v4 md5_random fuel p_sender_id
    p_receiver_id p_amount p_conditions p_time_limit db = Raised Insufficient_balance /\
  state_after db
    (create_transaction_with_escrow NOW uuid_generate_v4 md5_random fuel p_sender_id
       p_receiver_id p_amount p_conditions p_time_limit db) = db.
Proof.
  intros F L.
  assert (E : create_transaction_with_escrow NOW uuid_generate_v4 md5_random fuel
                p_sender_id p_receiver_id p_amount p_conditions p_time_limit db
              = Raised Insufficient_balance).
  { unfold create_transaction_with_escrow, bind, SELECT_user.
    unfold find_user, id_is in F. rewrite F. simpl.
    apply Z.ltb_lt in L. rewrite L. reflexivity. }
  rewrite E. split; reflexivity.
Qed.

(** C7 on the scenario: Alice, who has 1000.00, cannot send 1000.01. *)
Lemma C7_insufficient_funds_witness :
  create_transaction_with_escrow 0 7%N Scenario.digests 1 1%N 2%N 100001
    Scenario.deliver 1 Scenario.genesis = Raised Insufficient_balance.
Proof.
  apply (C7_insufficient_funds 0 7%N Scenario.digests 1 1%N 2%N 100001
           Scenario.deliver 1 Scenario.genesis Scenario.alice).
  - reflexivity.
  - vm_compute. reflexivity.
Defined.

(** ** C8: empty conditions *)

Lemma INSERT_conditions (NOW : timestamptz) (uuid_generate_v4 : uuid) (new_vtid : string)
      (p_sender_id p_receiver_id : uuid) (p_amount : numeric)
      (c c' : list TransactionCondition.t) (p_time_limit : Z) (db : database) :
  INSERT_INTO_transactions NOW uuid_generate_v4 new_vtid p_sender_id p_receiver_id
    p_amount c p_time_limit db =
  for_conditions c db
    (INSERT_INTO_transactions NOW uuid_generate_v4 new_vtid p_sender_id p_receiver_id
       p_amount c' p_time_limit db).
Proof.
  unfold INSERT_INTO_transactions.
  destruct (numeric_12_2 p_amount); simpl; try reflexivity.
  repeat match goal with
         | |- context [if ?b then _ else _] => destruct b; simpl; try reflexivity
         end.
Qed.

Lemma create_conditions (NOW : timestamptz) (uuid_generate_v4 : uuid)
      (md5_random : nat -> string) (fuel : nat) (p_sender_id p_receiver_id : uuid)
      (p_amount : numeric) (c c' : list TransactionCondition.t)
      (p_time_limit : Z) (db : database) :
  create_transaction_with_escrow NOW uuid_generate_v4 md5_random fuel p_sender_id
    p_receiver_id p_amount c p_time_limit db =
  for_conditions c db
    (create_transaction_with_escrow NOW uuid_generate_v4 md5_random fuel p_sender_id
       p_receiver_id p_amount c' p_time_limit db).
Proof.
  unfold create_transaction_with_escrow, bind, SELECT_user.
  destruct (NULL_lt _ p_amount); [reflexivity|].
  unfold generate_vtid.
  destruct (generate_LOOP 12 md5_random _ fuel 0) as [new_vtid| |]; simpl;
    try reflexivity.
  destruct (UPDATE_users _ (id_is p_sender_id) db) as [[[] db1]| |] eqn:U;
    try reflexivity.
  assert (T1 : public_transactions db1 = public_transactions db).
  { revert U. unfold UPDATE_users.
    destruct (UPDATE _ _ (public_users db)); simpl; try discriminate.
    intros E. inversion E. reflexivity. }
  rewrite (INSERT_conditions NOW uuid_generate_v4 new_vtid p_sender_id p_receiver_id
             p_amount c c' p_time_limit db1).
  destruct (INSERT_INTO_transactions NOW uuid_generate_v4 new_vtid p_sender_id
              p_receiver_id p_amount c' p_time_limit db1) as [[t db2]| |];
    simpl; try reflexivity.
  rewrite !UPDATE_users_unread. unfold ret. simpl. rewrite T1. reflexivity.
Qed.

(** C8, as stated, fails: with an empty conditions argument the procedure
    returns a transaction, having moved the funds. *)
Lemma C8_empty_conditions_accepted :
  ~ (forall NOW uuid_generate_v4 md5_random fuel p_sender_id p_receiver_id p_amount
            p_time_limit db,
        exists e,
          create_transaction_with_escrow NOW uuid_generate_v4 md5_random fuel
            p_sender_id p_receiver_id p_amount [] p_time_limit db = Raised e).
Proof.
  intros claim.
  destruct (claim 0 7%N Scenario.digests 1%nat 1%N 2%N 50000 1 Scenario.genesis)
    as [e E].
  vm_compute in E. discriminate E.
Qed.

(** C8 (amended).  Empty conditions are turned away by the client:
    [validateTransaction] is false when there are fewer than MIN_CONDITIONS
    = 1 conditions, whatever the time limit.  The procedure
    [create_transaction_with_escrow] never looks at its conditions argument:
    called with no conditions, it does what it does when called with any
    other conditions [c] (returns, raises the same exception, or is still
    in the vtid loop), only the conditions stored in the new row being
    empty. *)
Theorem C8_conditions_not_inspected :
  (forall parseInt timeLimit, validateTransaction parseInt [] timeLimit = false) /\
  (forall NOW uuid_generate_v4 md5_random fuel p_sender_id p_receiver_id p_amount
          c p_time_limit db,
      create_transaction_with_escrow NOW uuid_generate_v4 md5_random fuel p_sender_id
        p_receiver_id p_amount [] p_time_limit db =
      for_conditions [] db
        (create_transaction_with_escrow NOW uuid_generate_v4 md5_random fuel
           p_sender_id p_receiver_id p_amount c p_time_limit db)).
Proof.
  split.
  - intros parseInt timeLimit. reflexivity.
  - intros. apply create_conditions.
Qed.

(** ** C10: a sender that is no user *)

Lemma UPDATE_no_match {R : Type} (SET : R -> outcome R) (WHERE : R -> bool)
      (rows : list R) :
  (forall r, In r rows -> WHERE r = false) ->
  UPDATE SET WHERE rows = Returned rows.
Proof.
  induction rows as [|r rest IH]; simpl; intros H; [reflexivity|].
  rewrite (H r (or_introl eq_refl)). simpl. rewrite IH by auto. reflexivity.
Qed.

Lemma existsb_none {A : Type} (f : A -> bool) (l : list A) :
  find f l = None -> existsb f l = false.
Proof.
  intros F. apply not_true_is_false. intros E.
  apply existsb_exists in E. destruct E as (x & Hx & Fx).
  rewrite (find_none _ _ F x Hx) in Fx. discriminate.
Qed.

Lemma generate_LOOP_never_raises (width : nat) (md5_random : nat -> string)
      (stored : list string) (fuel : nat) :
  forall draw e, generate_LOOP width md5_random stored fuel draw <> Raised e.
Proof.
  induction fuel as [|fuel IH]; intros draw e; simpl; [discriminate|].
  destruct (negb _); [discriminate | apply IH].
Qed.

(** With the sender missing from [users], the insert raises; the error is
    that of the first check the row fails. *)
Lemma INSERT_unknown_sender (NOW : timestamptz) (uuid_generate_v4 : uuid)
      (new_vtid : string) (p_sender_id p_receiver_id : uuid) (p_amount : numeric)
      (p_conditions : list TransactionCondition.t) (p_time_limit : Z) (db : database) :
  find_user p_sender_id db = None ->
  exists e,
    INSERT_INTO_transactions NOW uuid_generate_v4 new_vtid p_sender_id p_receiver_id
      p_amount p_conditions p_time_limit db = Raised e /\
    e <> Insufficient_balance /\
    (Z.abs p_amount < 10 ^ 12 -> 0 < p_amount -> p_sender_id <> p_receiver_id ->
     find_transaction uuid_generate_v4 db = None ->
     ~ In new_vtid (map transactions.vtid (public_transactions db)) ->
     e = foreign_key_violation "transactions_sender_id_fkey").
Proof.
  intros F. unfold find_user in F. apply existsb_none in F.
  unfold INSERT_INTO_transactions.
  destruct (numeric_12_2 p_amount) as [a| |] eqn:N; simpl.
  - apply numeric_12_2_Returned in N. destruct N as [-> Fit].
    destruct (N.eqb p_sender_id p_receiver_id) eqn:D;
      [eexists; split; [reflexivity|]; split; [discriminate|];
       intros _ _ Hd; apply N.eqb_eq in D; contradiction|].
    destruct (0 <? p_amount) eqn:P; simpl;
      [|eexists; split; [reflexivity|]; split; [discriminate|];
        intros _ Hp; apply Z.ltb_lt in Hp; congruence].
    destruct (existsb (tx_id_is uuid_generate_v4) (public_transactions db)) eqn:K;
      [eexists; split; [reflexivity|]; split; [discriminate|];
       intros _ _ _ Hk; unfold find_transaction in Hk;
       apply existsb_none in Hk; congruence|].
    destruct (existsb (fun t => String.eqb (transactions.vtid t) new_vtid)
                (public_transactions db)) eqn:V.
    + eexists; split; [reflexivity|]; split; [discriminate|].
      intros _ _ _ _ Hv. exfalso. apply Hv.
      apply existsb_exists in V. destruct V as (t & Ht & Et).
      apply String.eqb_eq in Et. rewrite <- Et. apply in_map. exact Ht.
    + rewrite F. simpl. eexists; split; [reflexivity|]; split; [discriminate|].
      reflexivity.
  - unfold numeric_12_2 in N. destruct (Z.abs p_amount <? 10 ^ 12) eqn:L;
      inversion N; subst.
    eexists; split; [reflexivity|]; split; [discriminate|].
    intros Hfit. apply Z.ltb_ge in L. lia.
  - unfold numeric_12_2 in N. destruct (Z.abs p_amount <? 10 ^ 12); discriminate.
Qed.




(** ** The invariant along the status machine *)

Lemma escrowed_app (uid : uuid) (l1 l2 : list transactions.row) :
  escrowed uid (l1 ++ l2) = escrowed uid l1 + escrowed uid l2.
Proof. induction l1 as [|t l1 IH]; simpl; [reflexivity | rewrite IH; lia]. Qed.

Lemma held_nonneg (uid : uuid) (t : transactions.row) :
  0 < transactions.amount t -> 0 <= held uid t.
Proof. unfold held. destruct (_ && _); lia. Qed.

Lemma escrowed_nonneg (uid : uuid) (rows : list transactions.row) :
  (forall t, In t rows -> 0 < transactions.amount t) -> 0 <= escrowed uid rows.
Proof.
  induction rows as [|t rest IH]; simpl; intros H; [lia|].
  pose proof (held_nonneg uid t (H t (or_introl eq_refl))).
  assert (0 <= escrowed uid rest) by (apply IH; auto). lia.
Qed.

Lemma rows_set_absent (SET : transactions.row -> transactions.row) (i : uuid)
      (rows : list transactions.row) :
  ~ In i (map transactions.id rows) -> rows_set SET i rows = rows.
Proof.
  unfold rows_set. induction rows as [|r rest IH]; simpl; intros H; [reflexivity|].
  rewrite IH by tauto.
  unfold tx_id_is. destruct (N.eqb_spec (transactions.id r) i); [|reflexivity].
  exfalso. apply H. left. assumption.
Qed.

Lemma rows_set_ids (SET : transactions.row -> transactions.row) (i : uuid)
      (rows : list transactions.row) :
  (forall t, transactions.id (SET t) = transactions.id t) ->
  map transactions.id (rows_set SET i rows) = map transactions.id rows.
Proof.
  intros Hid. unfold rows_set. rewrite map_map. apply map_ext.
  intros t. destruct (tx_id_is i t); [apply Hid | reflexivity].
Qed.

Lemma rows_set_amounts (SET : transactions.row -> transactions.row) (i : uuid)
      (rows : list transactions.row) :
  (forall t, transactions.amount (SET t) = transactions.amount t) ->
  (forall t, In t rows -> 0 < transactions.amount t) ->
  forall t, In t (rows_set SET i rows) -> 0 < transactions.amount t.
Proof.
  intros Ha H t Ht. unfold rows_set in Ht. apply in_map_iff in Ht.
  destruct Ht as (r & <- & Hr).
  destruct (tx_id_is i r); [rewrite Ha|]; apply H; exact Hr.
Qed.

(** Re-writing the one row with id [i] changes the sum by what that row
    held. *)
Lemma escrowed_rows_set (SET : transactions.row -> transactions.row) (uid i : uuid)
      (rows : list transactions.row) (t : transactions.row) :
  NoDup (map transactions.id rows) ->
  find (tx_id_is i) rows = Some t ->
  escrowed uid (rows_set SET i rows) = escrowed uid rows - held uid t + held uid (SET t).
Proof.
  induction rows as [|r rest IH]; simpl; intros ND F; [discriminate|].
  inversion ND as [|x l Hnotin ND']; subst.
  destruct (tx_id_is i r) eqn:E.
  - inversion F; subst r. unfold tx_id_is in E. apply N.eqb_eq in E. subst i.
    fold (rows_set SET (transactions.id t) rest).
    rewrite rows_set_absent by assumption. lia.
  - fold (rows_set SET i rest). rewrite (IH ND' F). lia.
Qed.

Lemma Forall2_funds_ids (f g : users.row -> Z) (us us' : list users.row) :
  Forall2 (fun u u' => funds_moved (f u) (g u) u u') us us' ->
  map users.id us' = map users.id us.
Proof.
  induction 1 as [|u u' us us' H _ IH]; simpl; [reflexivity|].
  destruct H as [[Hid _] _]. rewrite Hid, IH. reflexivity.
Qed.

(** The invariant carries over when every user's escrow balance moves with
    the sum and no balance goes below zero. *)
Lemma escrow_invariant_moved (f g : users.row -> Z) (db db' : database) :
  escrow_invariant db ->
  Forall2 (fun u u' => funds_moved (f u) (g u) u u') (public_users db) (public_users db') ->
  (forall u, In u (public_users db) ->
             escrowed (users.id u) (public_transactions db')
             = escrowed (users.id u) (public_transactions db) + g u /\
             0 <= users.balance u + f u /\
             0 <= escrowed (users.id u) (public_transactions db')) ->
  escrow_invariant db'.
Proof.
  intros Inv F2 Hmove u' Hu'.
  destruct (Forall2_In_r _ _ _ _ F2 Hu') as (u & Hu & ((Hid & _) & Hb & He)).
  destruct (Inv u Hu) as (Ie & Ib & _).
  destruct (Hmove u Hu) as (Me & Mb & Mn).
  rewrite Hid, Hb, He. repeat split; lia.
Qed.

Lemma find_user_own (db : database) (u : users.row) :
  NoDup (map users.id (public_users db)) -> In u (public_users db) ->
  forall s, find_user (users.id u) db = Some s -> s = u.
Proof.
  unfold find_user. generalize (public_users db) as us.
  induction us as [|r rest IH]; simpl; intros ND Hu s F; [contradiction|].
  inversion ND as [|x l Hnotin ND']; subst.
  unfold id_is in F at 1. destruct (N.eqb_spec (users.id r) (users.id u)) as [E | NE].
  - inversion F; subst s. destruct Hu as [-> | Hu]; [reflexivity|].
    exfalso. apply Hnotin. rewrite E. apply in_map. exact Hu.
  - destruct Hu as [-> | Hu]; [congruence|]. apply IH; assumption.
Qed.

(** One legal re-writing of the status of the row with id [i]. *)
Lemma status_step_invariant (SET : transactions.row -> transactions.row)
      (f g : users.row -> Z) (i : uuid) (t : transactions.row) (db db' : database) :
  well_formed db -> escrow_invariant db ->
  find_transaction i db = Some t ->
  (forall r, transactions.id (SET r) = transactions.id r) ->
  (forall r, transactions.amount (SET r) = transactions.amount r) ->
  public_transactions db' = rows_set SET i (public_transactions db) ->
  Forall2 (fun u u' => funds_moved (f u) (g u) u u') (public_users db) (public_users db') ->
  (forall u, g u = held (users.id u) (SET t) - held (users.id u) t) ->
  (forall u, 0 <= f u) ->
  well_formed db' /\ escrow_invariant db'.
Proof.
  intros (NDu & NDt & Pos) Inv F Hid Hamt T F2 Hg Hf.
  assert (Pos' : forall r, In r (public_transactions db') -> 0 < transactions.amount r).
  { rewrite T. apply rows_set_amounts; assumption. }
  split.
  - split; [|split].
    + rewrite (Forall2_funds_ids _ _ _ _ F2). exact NDu.
    + rewrite T, rows_set_ids by assumption. exact NDt.
    + exact Pos'.
  - apply (escrow_invariant_moved f g db db' Inv F2).
    intros u Hu. destruct (Inv u Hu) as (_ & Ib & _).
    split; [|split].
    + rewrite T, (escrowed_rows_set SET (users.id u) i _ t NDt F), Hg. lia.
    + specialize (Hf u). lia.
    + apply escrowed_nonneg. exact Pos'.
Qed.

Lemma update_keeps_invariant (NOW : timestamptz) (i : uuid) (p : string)
      (t : transactions.row) (db db' : database) :
  well_formed db -> escrow_invariant db ->
  find_transaction i db = Some t ->
  permitted (transactions.status t) p = true ->
  update_transaction_status NOW i p db = Returned (tt, db') ->
  well_formed db' /\ escrow_invariant db'.
Proof.
  intros WF Inv F P U.
  assert (Pos : 0 < transactions.amount t).
  { destruct WF as (_ & _ & Pos). apply Pos.
    unfold find_transaction in F. apply (find_some _ _ F). }
  assert (Cases :
            (p = "accepted" /\ transactions.status t = pending) \/
            (p = "completed" /\ transactions.status t = accepted) \/
            (p = "cancelled" /\ in_escrow t = true)).
  { unfold permitted, in_escrow in *.
    destruct (transactions.status t); try discriminate;
      apply orb_true_iff in P; destruct P as [P | P]; apply String.eqb_eq in P; auto. }
  assert (Cancelled : in_escrow (SET_cancelled NOW t) = false) by reflexivity.
  destruct Cases as [[-> St] | [[-> St] | [-> St]]].
  - destruct (update_to_accepted NOW i t db F) as (us' & E & F2); [congruence|].
    rewrite E in U. inversion U; subst db'; clear U.
    apply (status_step_invariant (SET_accepted NOW) (fun _ => 0) (fun _ => 0) i t db);
      try assumption; try reflexivity.
    intros u. unfold held, in_escrow. simpl. rewrite St. lia.
  - destruct (update_to_completed NOW i t db F St) as [_ S].
    destruct (S db' U) as [T F2].
    eapply (status_step_invariant (SET_completed NOW));
      [exact WF | exact Inv | exact F | reflexivity | reflexivity
       | exact T | exact F2 | |]; intros u; cbv beta.
    + unfold held, in_escrow, id_is. simpl. rewrite St.
      rewrite (N.eqb_sym (transactions.sender_id t) (users.id u)).
      destruct (N.eqb (users.id u) (transactions.sender_id t)); simpl; lia.
    + destruct (id_is (transactions.receiver_id t) u); lia.
  - destruct (update_to_cancelled NOW i t db F) as [_ S];
      [unfold in_escrow in St; destruct (transactions.status t); congruence|].
    destruct (S db' U) as [T F2].
    eapply (status_step_invariant (SET_cancelled NOW));
      [exact WF | exact Inv | exact F | reflexivity | reflexivity
       | exact T | exact F2 | |]; intros u; cbv beta.
    + unfold held, id_is. rewrite Cancelled, St, andb_false_r, andb_true_r. simpl.
      rewrite (N.eqb_sym (transactions.sender_id t) (users.id u)).
      destruct (N.eqb (users.id u) (transactions.sender_id t)); lia.
    + destruct (id_is (transactions.sender_id t) u); lia.
Qed.

Lemma escrowed_swept (NOW : timestamptz) (uid : uuid) (rows : list transactions.row) :
  escrowed uid (map (fun r => if expired_cursor NOW r then SET_cancelled NOW r else r) rows)
  = escrowed uid rows - refunded uid (filter (expired_cursor NOW) rows).
Proof.
  induction rows as [|r rest IH]; simpl; [reflexivity|].
  rewrite IH. destruct (expired_cursor NOW r) eqn:Ex; simpl; [|lia].
  apply expired_cursor_iff in Ex. destruct Ex as [St _].
  unfold held, in_escrow. simpl. rewrite St, andb_false_r, andb_true_r.
  rewrite (N.eqb_sym (transactions.sender_id r) uid). lia.
Qed.

Lemma refunded_nonneg (uid : uuid) (rows : list transactions.row) :
  (forall t, In t rows -> 0 < transactions.amount t) -> 0 <= refunded uid rows.
Proof.
  induction rows as [|t rest IH]; simpl; intros H; [lia|].
  pose proof (H t (or_introl eq_refl)).
  assert (0 <= refunded uid rest) by (apply IH; auto).
  destruct (N.eqb uid (transactions.sender_id t)); lia.
Qed.

Lemma sweep_keeps_invariant (NOW : timestamptz) (db db' : database) :
  well_formed db -> escrow_invariant db ->
  process_expired_transactions NOW db = Returned (tt, db') ->
  well_formed db' /\ escrow_invariant db'.
Proof.
  intros (NDu & NDt & Pos) Inv E.
  destruct (process_expired_Returned NOW db db' NDt E) as [T F2].
  assert (Pos' : forall r, In r (public_transactions db') -> 0 < transactions.amount r).
  { rewrite T. intros r Hr. apply in_map_iff in Hr. destruct Hr as (r0 & <- & Hr0).
    destruct (expired_cursor NOW r0); apply (Pos r0 Hr0). }
  split.
  - split; [|split].
    + rewrite (Forall2_funds_ids _ _ _ _ F2). exact NDu.
    + rewrite T, map_map.
      replace (map (fun r => transactions.id
                               (if expired_cursor NOW r then SET_cancelled NOW r else r))
                   (public_transactions db))
        with (map transactions.id (public_transactions db)); [exact NDt|].
      apply map_ext. intros r. destruct (expired_cursor NOW r); reflexivity.
    + exact Pos'.
  - apply (escrow_invariant_moved _ _ db db' Inv F2).
    intros u Hu. destruct (Inv u Hu) as (_ & Ib & _).
    split; [|split].
    + rewrite T, escrowed_swept. lia.
    + assert (0 <= refunded (users.id u)
                      (filter (expired_cursor NOW) (public_transactions db))).
      { apply refunded_nonneg. intros t Ht. apply filter_In in Ht. apply Pos, Ht. }
      lia.
    + apply escrowed_nonneg. exact Pos'.
Qed.

Lemma NoDup_snoc {A : Type} (l : list A) (a : A) :
  NoDup l -> ~ In a l -> NoDup (l ++ [a]).
Proof.
  induction l as [|x l IH]; simpl; intros ND Ha.
  - constructor; [intros [] | constructor].
  - inversion ND as [|y m Hx ND']; subst. constructor.
    + intros Hin. apply in_app_iff in Hin. destruct Hin as [Hin | [E | []]]; [auto|].
      apply Ha. left. symmetry. exact E.
    + apply IH; [exact ND' | tauto].
Qed.

Lemma create_keeps_invariant (NOW : timestamptz) (uuid_generate_v4 : uuid)
      (md5_random : nat -> string) (fuel : nat) (p_sender_id p_receiver_id : uuid)
      (p_amount : numeric) (p_conditions : list TransactionCondition.t)
      (p_time_limit : Z) (db db' : database) (t : transactions.row) :
  well_formed db -> escrow_invariant db ->
  create_transaction_with_escrow NOW uuid_generate_v4 md5_random fuel p_sender_id
    p_receiver_id p_amount p_conditions p_time_limit db = Returned (t, db') ->
  well_formed db' /\ escrow_invariant db'.
Proof.
  intros (NDu & NDt & Pos) Inv C.
  destruct (create_Returned _ _ _ _ _ _ _ _ _ _ _ _ C)
    as (new_vtid & us1 & G & _ & U & I & ->).
  destruct (INSERT_Returned _ _ _ _ _ _ _ _ _ _ _ I)
    as (Et & Hdiff & Hamt & Hkey & _ & _ & _).
  simpl in Hkey.
  assert (F1 : Forall2
                 (fun u u1 => funds_moved (if id_is p_sender_id u then - p_amount else 0)
                                          (if id_is p_sender_id u then p_amount else 0) u u1)
                 (public_users db) us1).
  { apply (UPDATE_funds _ _ (SET_escrowed p_amount)); [|exact U].
    intros u u' S. apply SET_escrowed_Returned in S. subst u'.
    unfold funds_moved, same_profile; simpl. repeat split; lia. }
  assert (F2 : Forall2
                 (fun u u' => funds_moved (if id_is p_sender_id u then - p_amount else 0)
                                          (if id_is p_sender_id u then p_amount else 0) u u')
                 (public_users db) (notified (transactions.id t) p_receiver_id us1)).
  { eapply Forall2_funds_step; [exact F1 | apply unread_map_funds | |].
    - intros; split; reflexivity.
    - intros u. cbv beta. split; lia. }
  assert (Pos' : forall r, In r (public_transactions db ++ [t]) -> 0 < transactions.amount r).
  { intros r Hr. apply in_app_iff in Hr. destruct Hr as [Hr | [<- | []]]; [auto|].
    rewrite Et. simpl. lia. }
  split.
  - split; [|split]; simpl.
    + rewrite (Forall2_funds_ids _ _ _ _ F2). exact NDu.
    + rewrite map_app. simpl. apply NoDup_snoc; [exact NDt|].
      intros Hin. apply in_map_iff in Hin. destruct Hin as (r & Er & Hr).
      assert (X : existsb (tx_id_is uuid_generate_v4) (public_transactions db) = true).
      { apply existsb_exists. exists r. split; [exact Hr|].
        unfold tx_id_is. rewrite Er, Et. apply N.eqb_refl. }
      congruence.
    + exact Pos'.
  - apply (escrow_invariant_moved _ _ db
             (mkdb (notified (transactions.id t) p_receiver_id us1)
                   (public_transactions db ++ [t])) Inv F2).
    intros u Hu. simpl. destruct (Inv u Hu) as (_ & Ib & _).
    split; [|split].
    + rewrite escrowed_app. simpl. unfold held, in_escrow, id_is. rewrite Et. simpl.
      rewrite (N.eqb_sym p_sender_id (users.id u)), andb_true_r.
      destruct (N.eqb (users.id u) p_sender_id); lia.
    + unfold id_is. destruct (N.eqb_spec (users.id u) p_sender_id) as [E | NE]; [|lia].
      destruct (find_user p_sender_id db) as [s|] eqn:Fs.
      * rewrite <- E in Fs. rewrite (find_user_own db u NDu Hu s Fs) in G.
        simpl in G. apply Z.ltb_ge in G. lia.
      * unfold find_user in Fs. pose proof (find_none _ _ Fs u Hu) as X.
        unfold id_is in X. rewrite E, N.eqb_refl in X. discriminate.
    + apply escrowed_nonneg. exact Pos'.
Qed.

(** From a well-formed state in which the escrow balances match the open
    transactions, a creation that returns, a status change that follows the
    status machine and a sweep lead to such a state again. *)
Theorem escrow_invariant_preserved (db : database) :
  well_formed db -> escrow_invariant db ->
  (forall NOW uuid_generate_v4 md5_random fuel p_sender_id p_receiver_id p_amount
          p_conditions p_time_limit t db',
      create_transaction_with_escrow NOW uuid_generate_v4 md5_random fuel p_sender_id
        p_receiver_id p_amount p_conditions p_time_limit db = Returned (t, db') ->
      well_formed db' /\ escrow_invariant db') /\
  (forall NOW i p t db',
      find_transaction i db = Some t ->
      permitted (transactions.status t) p = true ->
      update_transaction_status NOW i p db = Returned (tt, db') ->
      well_formed db' /\ escrow_invariant db') /\
  (forall NOW db',
      process_expired_transactions NOW db = Returned (tt, db') ->
      well_formed db' /\ escrow_invariant db').
Proof.
  intros WF Inv. split; [|split].
  - intros. eapply create_keeps_invariant; eassumption.
  - intros. eapply update_keeps_invariant; eassumption.
  - intros. eapply sweep_keeps_invariant; eassumption.
Qed.

(** ** C3: the escrow balance and the open transactions *)

(** C3 (the code departs from the claim).  The state reached by creating a
    transaction of 500.00, accepting it, completing it and then asking for
    'cancelled' is reachable, and in it the sender's escrow balance is
    -500.00 while no transaction of the sender is pending or accepted: the
    escrow balance is negative and differs from the sum. *)
Theorem C3_escrow_invariant_broken :
  reachable Scenario.db_refunded_twice /\
  Scenario.funds_of 1%N Scenario.db_refunded_twice = Some (100000, -50000) /\
  escrowed 1%N (public_transactions Scenario.db_refunded_twice) = 0 /\
  ~ escrow_invariant Scenario.db_refunded_twice.
Proof.
  split; [|split; [reflexivity | split; [reflexivity|]]].
  - apply (reachable_update Scenario.db_completed _ Scenario.two_hours 7%N "cancelled");
      [|vm_compute; reflexivity].
    apply (reachable_update Scenario.db_accepted _ (2 * Scenario.half_hour) 7%N
             "completed"); [|vm_compute; reflexivity].
    apply (reachable_update Scenario.db_pending _ Scenario.half_hour 7%N "accepted");
      [|vm_compute; reflexivity].
    assert (C : exists t,
               create_transaction_with_escrow 0 7%N Scenario.digests 1 1%N 2%N 50000
                 Scenario.deliver 1 Scenario.genesis = Returned (t, Scenario.db_pending))
      by (eexists; vm_compute; reflexivity).
    destruct C as [t C].
    assert (I : initial Scenario.genesis).
    { split; [reflexivity|]. split.
      - simpl. repeat constructor; simpl; intuition discriminate.
      - intros u [<- | [<- | []]]; simpl; lia. }
    exact (reachable_create Scenario.genesis _ _ _ _ _ _ _ _ _ _ _
             (reachable_initial _ I) C).
  - intros Inv.
    destruct (Inv (with_unread_transactions
                     [7%N; 7%N; 7%N; 7%N; 7%N]
                     (with_escrow_balance (-50000) Scenario.alice)))
      as (_ & _ & Neg).
    + vm_compute. left. reflexivity.
    + simpl in Neg. lia.
Qed.

(** * Further properties *)

(** ** The ways update_transaction_status ends *)

Lemma update_Returned_shape (NOW : timestamptz) (i : uuid) (p : string)
      (db db' : database) :
  update_transaction_status NOW i p db = Returned (tt, db') ->
  exists t,
    find_transaction i db = Some t /\
    ((p = status_text (transactions.status t) /\ db' = db) \/
     (p = "accepted" /\ transactions.status t <> accepted /\
      public_transactions db' = rows_set (SET_accepted NOW) i (public_transactions db) /\
      Forall2 (funds_moved 0 0) (public_users db) (public_users db')) \/
     (p = "completed" /\ transactions.status t = accepted /\
      public_transactions db' = rows_set (SET_completed NOW) i (public_transactions db) /\
      Forall2
        (fun u u' =>
           funds_moved
             (if id_is (transactions.receiver_id t) u then transactions.amount t else 0)
             (if id_is (transactions.sender_id t) u then - transactions.amount t else 0)
             u u')
        (public_users db) (public_users db')) \/
     (p = "cancelled" /\ transactions.status t <> cancelled /\
      public_transactions db' = rows_set (SET_cancelled NOW) i (public_transactions db) /\
      Forall2
        (fun u u' =>
           funds_moved
             (if id_is (transactions.sender_id t) u then transactions.amount t else 0)
             (if id_is (transactions.sender_id t) u then - transactions.amount t else 0)
             u u')
        (public_users db) (public_users db'))).
Proof.
  intros U.
  destruct (find_transaction i db) as [t|] eqn:F;
    [|rewrite (update_not_found NOW i p db F) in U; discriminate].
  exists t. split; [reflexivity|].
  destruct (String.eqb_spec p (status_text (transactions.status t))) as [Same | Diff].
  { left. split; [exact Same|]. subst p.
    rewrite (update_same_status NOW i t db F) in U. inversion U. reflexivity. }
  right.
  destruct (String.eqb_spec p "accepted") as [-> | NA].
  { left. assert (St : transactions.status t <> accepted)
      by (intros E; apply Diff; rewrite E; reflexivity).
    destruct (update_to_accepted NOW i t db F St) as (us' & E & F2).
    rewrite E in U. inversion U; subst db'. simpl. auto. }
  right.
  destruct (String.eqb_spec p "completed") as [-> | NC].
  { left. destruct (transactions.status t) eqn:St.
    - rewrite (update_to_completed_guard NOW i t db F) in U by auto. discriminate.
    - destruct (update_to_completed NOW i t db F St) as [_ S].
      destruct (S db' U) as [T F2]. auto.
    - exfalso. apply Diff. reflexivity.
    - rewrite (update_to_completed_guard NOW i t db F) in U by auto. discriminate. }
  right.
  destruct (String.eqb_spec p "cancelled") as [-> | NX].
  { assert (St : transactions.status t <> cancelled)
      by (intros E; apply Diff; rewrite E; reflexivity).
    destruct (update_to_cancelled NOW i t db F St) as [_ S].
    destruct (S db' U) as [T F2]. auto. }
  rewrite (update_to_unknown_status NOW i t p db F) in U by assumption. discriminate.
Qed.

Lemma update_outcome_cases (NOW : timestamptz) (i : uuid) (p : string) (db : database) :
  (find_transaction i db = None /\
   update_transaction_status NOW i p db = Raised Transaction_not_found) \/
  exists t,
    find_transaction i db = Some t /\
    ((p = status_text (transactions.status t) /\
      update_transaction_status NOW i p db = Returned (tt, db)) \/
     (p <> status_text (transactions.status t) /\
      ((p = "accepted" /\
        exists db', update_transaction_status NOW i p db = Returned (tt, db')) \/
       (p = "completed" /\ transactions.status t = accepted /\
        returns_or_overflows (update_transaction_status NOW i p db)) \/
       (p = "completed" /\
        (transactions.status t = pending \/ transactions.status t = cancelled) /\
        update_transaction_status NOW i p db =
        Raised Transaction_must_be_accepted_before_completion) \/
       (p = "cancelled" /\
        returns_or_overflows (update_transaction_status NOW i p db)) \/
       (p <> "accepted" /\ p <> "completed" /\ p <> "cancelled" /\
        update_transaction_status NOW i p db = Raised (Invalid_status p))))).
Proof.
  destruct (find_transaction i db) as [t|] eqn:F;
    [|left; split; [reflexivity | apply update_not_found; exact F]].
  right. exists t. split; [reflexivity|].
  destruct (String.eqb_spec p (status_text (transactions.status t))) as [Same | Diff].
  { left. split; [exact Same|]. subst p. apply update_same_status. exact F. }
  right. split; [exact Diff|].
  destruct (String.eqb_spec p "accepted") as [-> | NA].
  { left. split; [reflexivity|].
    assert (St : transactions.status t <> accepted)
      by (intros E; apply Diff; rewrite E; reflexivity).
    destruct (update_to_accepted NOW i t db F St) as (us' & E & _). eauto. }
  right.
  destruct (String.eqb_spec p "completed") as [-> | NC].
  { destruct (transactions.status t) eqn:St.
    - right. left. split; [reflexivity|]. split; [auto|].
      apply (update_to_completed_guard NOW i t db F). auto.
    - left. split; [reflexivity|]. split; [reflexivity|].
      apply (update_to_completed NOW i t db F St).
    - exfalso. apply Diff. reflexivity.
    - right. left. split; [reflexivity|]. split; [auto|].
      apply (update_to_completed_guard NOW i t db F). auto. }
  right. right.
  destruct (String.eqb_spec p "cancelled") as [-> | NX].
  { left. split; [reflexivity|].
    assert (St : transactions.status t <> cancelled)
      by (intros E; apply Diff; rewrite E; reflexivity).
    apply (update_to_cancelled NOW i t db F St). }
  right. repeat split; try assumption.
  apply (update_to_unknown_status NOW i t p db F); assumption.
Qed.

(** X1.  [update_transaction_status] fails in three ways of its own: with
    'Transaction not found' exactly when no row has the id; with 'Invalid
    status' exactly when the row exists and the requested status is
    neither its present status nor one of 'accepted', 'completed',
    'cancelled' (so also for 'pending' asked of a row that is not pending);
    with 'Transaction must be accepted before completion' exactly when
    'completed' is asked of a pending or cancelled row.  The only other
    error it can raise is the overflow of a DECIMAL(12, 2) assignment, and
    it always ends. *)
Theorem update_transaction_status_errors (NOW : timestamptz) (i : uuid) (p : string)
        (db : database) :
  (update_transaction_status NOW i p db = Raised Transaction_not_found <->
   find_transaction i db = None) /\
  (update_transaction_status NOW i p db = Raised (Invalid_status p) <->
   exists t, find_transaction i db = Some t /\
             p <> status_text (transactions.status t) /\
             p <> "accepted" /\ p <> "completed" /\ p <> "cancelled") /\
  (update_transaction_status NOW i p db =
   Raised Transaction_must_be_accepted_before_completion <->
   exists t, find_transaction i db = Some t /\ p = "completed" /\
             (transactions.status t = pending \/ transactions.status t = cancelled)) /\
  (forall e, update_transaction_status NOW i p db = Raised e ->
             e = Transaction_not_found \/ e = Invalid_status p \/
             e = Transaction_must_be_accepted_before_completion \/
             e = numeric_field_overflow) /\
  update_transaction_status NOW i p db <> Unfinished.
Proof.
  unfold returns_or_overflows.
  destruct (update_outcome_cases NOW i p db)
    as [[F E] | (t & F & [[Same E] | [Diff Cases]])].
  - rewrite E, F. repeat split; try discriminate; auto.
    + intros (t & X & _). discriminate X.
    + intros (t & X & _). discriminate X.
    + intros e X. inversion X. auto.
  - rewrite E, F. repeat split; try discriminate.
    + intros (t' & X & N & _). inversion X; subst t'. contradiction.
    + intros (t' & X & -> & St). inversion X; subst t'.
      destruct St as [St | St]; rewrite St in Same; discriminate Same.
  - rewrite F.
    destruct Cases as [[-> [db' E]] | [(-> & St & R) | [(-> & St & E)
                       | [[-> R] | (NA & NC & NX & E)]]]].
    + rewrite E. repeat split; try discriminate.
      * intros (t' & _ & _ & X & _). congruence.
      * intros (t' & _ & X & _). discriminate X.
    + destruct R as [[a E] | E]; rewrite E; repeat split; try discriminate;
        try (intros (t' & _ & _ & _ & X & _); congruence);
        try (intros (t' & X & _ & [S | S]); inversion X; subst t'; congruence);
        try (intros e X; inversion X; auto).
    + rewrite E. repeat split; try discriminate.
      * intros (t' & _ & _ & _ & X & _). congruence.
      * intros _. exists t. auto.
      * intros e X. inversion X. auto.
    + destruct R as [[a E] | E]; rewrite E; repeat split; try discriminate;
        try (intros (t' & _ & _ & _ & _ & X); congruence);
        try (intros (t' & _ & X & _); discriminate X);
        try (intros e X; inversion X; auto).
    + rewrite E. repeat split; try discriminate.
      * intros _. exists t. auto.
      * intros (t' & _ & X & _). congruence.
      * intros e X. inversion X. auto.
Qed.

(** ** What the procedures leave alone *)

Lemma FOR_EACH_ROW_rel {R : Type} (body : R -> plpgsql unit)
      (P : database -> database -> Prop) :
  (forall db, P db db) ->
  (forall a b c, P a b -> P b c -> P a c) ->
  (forall r db db', body r db = Returned (tt, db') -> P db db') ->
  forall rows db db', FOR_EACH_ROW body rows db = Returned (tt, db') -> P db db'.
Proof.
  intros Prefl Ptrans Pbody.
  induction rows as [|r rest IH]; simpl; intros db db' E.
  - inversion E. apply Prefl.
  - unfold bind in E. destruct (body r db) as [[[] db1]| |] eqn:B; try discriminate.
    apply (Ptrans db db1 db'); [apply (Pbody r); exact B | apply IH; exact E].
Qed.

Lemma Forall2_trans {A : Type} (R : A -> A -> Prop) (l1 l2 l3 : list A) :
  (forall a b c, R a b -> R b c -> R a c) ->
  Forall2 R l1 l2 -> Forall2 R l2 l3 -> Forall2 R l1 l3.
Proof.
  intros T H. revert l3. induction H; intros l3 H3; inversion H3; subst; constructor; eauto.
Qed.

Lemma Forall2_refl {A : Type} (R : A -> A -> Prop) (l : list A) :
  (forall a, R a a) -> Forall2 R l l.
Proof. intros H. induction l; constructor; auto. Qed.

Lemma same_profile_refl (u : users.row) : same_profile u u.
Proof. unfold same_profile. repeat split. Qed.

Lemma same_profile_trans (u v w : users.row) :
  same_profile u v -> same_profile v w -> same_profile u w.
Proof.
  unfold same_profile. intros H1 H2.
  repeat split; (etransitivity; [apply H2 | apply H1]).
Qed.

Lemma rows_set_written_once (SET : transactions.row -> transactions.row) (i : uuid)
      (rows : list transactions.row) :
  (forall t, written_once (SET t) = written_once t) ->
  map written_once (rows_set SET i rows) = map written_once rows.
Proof.
  intros H. unfold rows_set. rewrite map_map. apply map_ext.
  intros t. destruct (tx_id_is i t); [apply H | reflexivity].
Qed.

Lemma same_rows_and_users_refl (db : database) : same_rows_and_users db db.
Proof.
  split; [reflexivity | apply Forall2_refl, same_profile_refl].
Qed.

Lemma same_rows_and_users_trans (a b c : database) :
  same_rows_and_users a b -> same_rows_and_users b c -> same_rows_and_users a c.
Proof.
  intros [T1 U1] [T2 U2]. split; [congruence|].
  apply (Forall2_trans _ _ _ _ same_profile_trans U1 U2).
Qed.

Lemma funds_moved_profiles (f g : users.row -> Z) (us us' : list users.row) :
  Forall2 (fun u u' => funds_moved (f u) (g u) u u') us us' ->
  Forall2 same_profile us us'.
Proof. apply Forall2_impl. intros u u' H. apply H. Qed.

Lemma update_same_rows_and_users (NOW : timestamptz) (i : uuid) (p : string)
      (db db' : database) :
  update_transaction_status NOW i p db = Returned (tt, db') ->
  same_rows_and_users db db'.
Proof.
  intros U. destruct (update_Returned_shape NOW i p db db' U)
    as (t & F & [[_ ->] | [(_ & _ & T & F2) | [(_ & _ & T & F2) | (_ & _ & T & F2)]]]).
  - apply same_rows_and_users_refl.
  - split; [rewrite T; apply rows_set_written_once; reflexivity|].
    apply (funds_moved_profiles (fun _ => 0) (fun _ => 0)). exact F2.
  - split; [rewrite T; apply rows_set_written_once; reflexivity|].
    eapply funds_moved_profiles. exact F2.
  - split; [rewrite T; apply rows_set_written_once; reflexivity|].
    eapply funds_moved_profiles. exact F2.
Qed.

(** X2.  A status change and a sweep re-write nothing but statuses, the
    three transition timestamps, funds and unread lists: when
    [update_transaction_status] or [process_expired_transactions] returns,
    the transactions table has the same rows in the same order with the
    same id, vtid, sender, receiver, amount, conditions, time limit and
    created_at, and the users table has the same users with the same
    profile columns.  This holds from every status, terminal ones
    included. *)
Theorem status_changes_keep_rows :
  (forall NOW i p db db',
      update_transaction_status NOW i p db = Returned (tt, db') ->
      same_rows_and_users db db') /\
  (forall NOW db db',
      process_expired_transactions NOW db = Returned (tt, db') ->
      same_rows_and_users db db').
Proof.
  split.
  - apply update_same_rows_and_users.
  - intros NOW db db' E. unfold process_expired_transactions in E.
    revert E. apply FOR_EACH_ROW_rel.
    + apply same_rows_and_users_refl.
    + apply same_rows_and_users_trans.
    + intros r d d'. apply update_same_rows_and_users.
Qed.

(** X2 on the scenario: completing the accepted transaction. *)
Lemma status_changes_keep_rows_witness :
  same_rows_and_users Scenario.db_accepted Scenario.db_completed.
Proof.
  destruct status_changes_keep_rows as [U _].
  apply (U (2 * Scenario.half_hour) 7%N "completed").
  vm_compute. reflexivity.
Defined.

(** ** Funds are moved, never made *)

Lemma create_funds (NOW : timestamptz) (uuid_generate_v4 : uuid)
      (md5_random : nat -> string) (fuel : nat) (p_sender_id p_receiver_id : uuid)
      (p_amount : numeric) (p_conditions : list TransactionCondition.t)
      (p_time_limit : Z) (db db' : database) (t : transactions.row) :
  create_transaction_with_escrow NOW uuid_generate_v4 md5_random fuel p_sender_id
    p_receiver_id p_amount p_conditions p_time_limit db = Returned (t, db') ->
  Forall2 (fun u u' => funds_moved (if id_is p_sender_id u then - p_amount else 0)
                                   (if id_is p_sender_id u then p_amount else 0) u u')
          (public_users db) (public_users db').
Proof.
  intros C.
  destruct (create_Returned _ _ _ _ _ _ _ _ _ _ _ _ C)
    as (new_vtid & us1 & _ & _ & U & _ & ->).
  simpl.
  assert (F1 : Forall2
                 (fun u u1 => funds_moved (if id_is p_sender_id u then - p_amount else 0)
                                          (if id_is p_sender_id u then p_amount else 0) u u1)
                 (public_users db) us1).
  { apply (UPDATE_funds _ _ (SET_escrowed p_amount)); [|exact U].
    intros u u' S. apply SET_escrowed_Returned in S. subst u'.
    unfold funds_moved, same_profile; simpl. repeat split; lia. }
  eapply Forall2_funds_step; [exact F1 | apply unread_map_funds | |].
  - intros; split; reflexivity.
  - intros u. cbv beta. split; lia.
Qed.

Lemma worth_kept_refl (u : users.row) : worth_kept u u.
Proof. split; [apply same_profile_refl | reflexivity]. Qed.

Lemma worth_kept_trans (u v w : users.row) :
  worth_kept u v -> worth_kept v w -> worth_kept u w.
Proof.
  intros [P1 W1] [P2 W2]. split; [eapply same_profile_trans; eassumption | congruence].
Qed.

Lemma funds_moved_worth (f g : users.row -> Z) (us us' : list users.row) :
  (forall u, f u + g u = 0) ->
  Forall2 (fun u u' => funds_moved (f u) (g u) u u') us us' ->
  Forall2 worth_kept us us'.
Proof.
  intros Z0. apply Forall2_impl. intros u u' (P & B & E).
  split; [exact P|]. unfold net_worth. specialize (Z0 u). lia.
Qed.

Lemma cancel_keeps_worth (NOW : timestamptz) (i : uuid) (db db' : database) :
  update_transaction_status NOW i "cancelled" db = Returned (tt, db') ->
  Forall2 worth_kept (public_users db) (public_users db').
Proof.
  intros U. destruct (update_Returned_shape NOW i _ db db' U)
    as (t & F & [[_ ->] | [(X & _) | [(X & _) | (_ & _ & _ & F2)]]]);
    try discriminate X.
  - apply Forall2_refl, worth_kept_refl.
  - eapply funds_moved_worth; [|exact F2].
    intros u. cbv beta. destruct (id_is (transactions.sender_id t) u); lia.
Qed.



Lemma worth_kept_total (us us' : list users.row) :
  Forall2 worth_kept us us' -> total_funds us' = total_funds us.
Proof.
  induction 1 as [|u u' us us' [_ W] _ IH]; simpl; [reflexivity | lia].
Qed.

Lemma funds_moved_total (f g : users.row -> Z) (us us' : list users.row) :
  Forall2 (fun u u' => funds_moved (f u) (g u) u u') us us' ->
  total_funds us' =
  total_funds us + fold_right Z.add 0 (map f us) + fold_right Z.add 0 (map g us).
Proof.
  induction 1 as [|u u' us us' (_ & B & E) _ IH]; simpl; [reflexivity|].
  unfold net_worth. lia.
Qed.

(** Among users with distinct ids, an amount given to the rows with id [i]
    is given once. *)
Lemma given_once (i : uuid) (a : Z) (us : list users.row) :
  NoDup (map users.id us) ->
  existsb (id_is i) us = true ->
  fold_right Z.add 0 (map (fun u => if id_is i u then a else 0) us) = a.
Proof.
  induction us as [|u us IH]; simpl; intros ND Ex; [discriminate|].
  inversion ND as [|x l Hnotin ND']; subst.
  destruct (id_is i u) eqn:E.
  - assert (Rest : fold_right Z.add 0 (map (fun u => if id_is i u then a else 0) us) = 0).
    { clear IH Ex ND ND'. induction us as [|v us IH]; simpl; [reflexivity|].
      destruct (id_is i v) eqn:Ev.
      - exfalso. apply Hnotin. left. unfold id_is in E, Ev.
        apply N.eqb_eq in E, Ev. congruence.
      - rewrite IH; [reflexivity|]. intros H. apply Hnotin. right. exact H. }
    rewrite Rest. lia.
  - simpl in Ex. rewrite (IH ND' Ex). lia.
Qed.

(** X4.  No status change makes or loses money.  Among users with distinct
    ids that include the sender and the receiver of the transaction (what
    the primary key and the foreign keys guarantee), whenever
    [update_transaction_status] returns, for any requested status, the sum
    of all balances and escrow balances is what it was; at a completion the
    amount leaves the sender's escrow balance and reaches the receiver's
    balance. *)
Theorem status_change_conserves_funds (NOW : timestamptz) (i : uuid) (p : string)
        (t : transactions.row) (db db' : database) :
  NoDup (map users.id (public_users db)) ->
  find_transaction i db = Some t ->
  existsb (id_is (transactions.sender_id t)) (public_users db) = true ->
  existsb (id_is (transactions.receiver_id t)) (public_users db) = true ->
  update_transaction_status NOW i p db = Returned (tt, db') ->
  total_funds (public_users db') = total_funds (public_users db).
Proof.
  intros ND F Hs Hr U.
  destruct (update_Returned_shape NOW i p db db' U)
    as (t' & F' & [[_ ->] | [(_ & _ & _ & F2) | [(_ & _ & _ & F2) | (_ & _ & _ & F2)]]]);
    rewrite F in F'; inversion F'; subst t'.
  - reflexivity.
  - apply worth_kept_total.
    apply (funds_moved_worth (fun _ => 0) (fun _ => 0)); [reflexivity | exact F2].
  - rewrite (funds_moved_total _ _ _ _ F2).
    rewrite (given_once _ _ _ ND Hr), (given_once _ _ _ ND Hs). lia.
  - apply worth_kept_total. eapply funds_moved_worth; [|exact F2].
    intros u. cbv beta. destruct (id_is (transactions.sender_id t) u); lia.
Qed.

(** X4 on the scenario: Alice and Bob own 2000.00 before and after the
    completion. *)
Lemma status_change_conserves_funds_witness :
  total_funds (public_users Scenario.db_completed) = 200000.
Proof.
  destruct (find_transaction 7%N Scenario.db_accepted) as [t|] eqn:F;
    [|vm_compute in F; discriminate].
  rewrite (status_change_conserves_funds (2 * Scenario.half_hour) 7%N "completed" t
             Scenario.db_accepted Scenario.db_completed).
  - reflexivity.
  - vm_compute. repeat constructor; simpl; intuition discriminate.
  - exact F.
  - vm_compute in F. inversion F. reflexivity.
  - vm_compute in F. inversion F. reflexivity.
  - vm_compute. reflexivity.
Defined.

(** ** Calls in sequence *)

Lemma created_row (NOW : timestamptz) (uuid_generate_v4 : uuid)
      (md5_random : nat -> string) (fuel : nat) (p_sender_id p_receiver_id : uuid)
      (p_amount : numeric) (p_conditions : list TransactionCondition.t)
      (p_time_limit : Z) (db db' : database) (t : transactions.row) :
  create_transaction_with_escrow NOW uuid_generate_v4 md5_random fuel p_sender_id
    p_receiver_id p_amount p_conditions p_time_limit db = Returned (t, db') ->
  public_transactions db' = (public_transactions db ++ [t])%list /\
  ~ In (transactions.id t) (map transactions.id (public_transactions db)) /\
  transactions.status t = pending /\
  transactions.sender_id t = p_sender_id /\
  transactions.receiver_id t = p_receiver_id /\
  transactions.amount t = p_amount.
Proof.
  intros C.
  destruct (create_Returned _ _ _ _ _ _ _ _ _ _ _ _ C)
    as (new_vtid & us1 & _ & _ & _ & I & ->).
  destruct (INSERT_Returned _ _ _ _ _ _ _ _ _ _ _ I) as (Et & _ & _ & Hkey & _).
  simpl in Hkey. split; [reflexivity|].
  split; [|rewrite Et; repeat split].
  intros Hin. apply in_map_iff in Hin. destruct Hin as (r & Er & Hr).
  assert (X : existsb (tx_id_is uuid_generate_v4) (public_transactions db) = true).
  { apply existsb_exists. exists r. split; [exact Hr|].
    unfold tx_id_is. rewrite Er, Et. apply N.eqb_refl. }
  congruence.
Qed.

Lemma find_new_row (rows : list transactions.row) (t : transactions.row) :
  ~ In (transactions.id t) (map transactions.id rows) ->
  find (tx_id_is (transactions.id t)) (rows ++ [t]) = Some t.
Proof.
  induction rows as [|r rest IH]; simpl; intros H.
  - unfold tx_id_is. rewrite N.eqb_refl. reflexivity.
  - unfold tx_id_is at 1.
    destruct (N.eqb_spec (transactions.id r) (transactions.id t)) as [E | NE].
    + exfalso. apply H. left. exact E.
    + apply IH. tauto.
Qed.

Lemma rows_set_new_row (SET : transactions.row -> transactions.row)
      (rows : list transactions.row) (t : transactions.row) :
  ~ In (transactions.id t) (map transactions.id rows) ->
  rows_set SET (transactions.id t) (rows ++ [t]) = (rows ++ [SET t])%list.
Proof.
  intros H. unfold rows_set. rewrite map_app. simpl.
  fold (rows_set SET (transactions.id t) rows).
  rewrite (rows_set_absent SET _ rows H).
  unfold tx_id_is. rewrite N.eqb_refl. reflexivity.
Qed.





(** ** The sweep, run again *)

Lemma expired_cursor_earlier (NOW NOW' : timestamptz) (r : transactions.row) :
  NOW' <= NOW -> expired_cursor NOW' r = true -> expired_cursor NOW r = true.
Proof.
  intros L E. apply expired_cursor_iff in E. destruct E as (St & c & Ec & Lc).
  apply expired_cursor_iff. split; [exact St|]. exists c. split; [exact Ec | lia].
Qed.

(** X7.  One sweep is enough: on a table whose ids are distinct, when
    [process_expired_transactions] has returned, no row is left that a sweep
    at that instant or an earlier one would select, and such a second sweep
    returns at once with the database as the first one left it. *)
Theorem sweep_twice (NOW NOW' : timestamptz) (db db1 : database) :
  NoDup (map transactions.id (public_transactions db)) ->
  process_expired_transactions NOW db = Returned (tt, db1) ->
  NOW' <= NOW ->
  filter (expired_cursor NOW') (public_transactions db1) = [] /\
  process_expired_transactions NOW' db1 = Returned (tt, db1).
Proof.
  intros ND E L.
  destruct (process_expired_Returned NOW db db1 ND E) as [T _].
  assert (Empty : filter (expired_cursor NOW') (public_transactions db1) = []).
  { rewrite T. generalize (public_transactions db) as rows.
    induction rows as [|r rest IH]; simpl; [reflexivity|].
    destruct (expired_cursor NOW r) eqn:Ex.
    - replace (expired_cursor NOW' (SET_cancelled NOW r)) with false by reflexivity.
      exact IH.
    - destruct (expired_cursor NOW' r) eqn:Ex'; [|exact IH].
      rewrite (expired_cursor_earlier NOW NOW' r L Ex') in Ex. discriminate. }
  split; [exact Empty|].
  unfold process_expired_transactions. rewrite Empty. reflexivity.
Qed.

(** X7 on the scenario: the sweep that cancelled Alice's transaction finds
    nothing the second time. *)
Lemma sweep_twice_witness :
  exists db1,
    process_expired_transactions Scenario.two_hours Scenario.db_pending
      = Returned (tt, db1) /\
    db1 <> Scenario.db_pending /\
    process_expired_transactions Scenario.two_hours db1 = Returned (tt, db1).
Proof.
  destruct (process_expired_transactions Scenario.two_hours Scenario.db_pending)
    as [[[] db1]| |] eqn:E; try (vm_compute in E; discriminate).
  exists db1. split; [reflexivity|]. split.
  - vm_compute in E. inversion E. discriminate.
  - apply (sweep_twice Scenario.two_hours Scenario.two_hours Scenario.db_pending db1).
    + vm_compute. repeat constructor. intros [].
    + exact E.
    + apply Z.le_refl.
Defined.

(** ** When a creation returns *)

Lemma existsb_ids (i : uuid) (us : list users.row) :
  existsb (id_is i) us = existsb (fun j => N.eqb j i) (map users.id us).
Proof. induction us as [|u us IH]; simpl; [reflexivity | rewrite IH; reflexivity]. Qed.



(** ** The escrow invariant along lawful runs *)

(** X9.  In every state reached from an initial one (distinct users,
    non-negative balances, nothing in escrow, no transaction) by creations,
    sweeps and status changes that follow the status machine, each user's
    escrow balance is the sum of the amounts of the user's pending and
    accepted transactions, no balance or escrow balance is negative, ids are
    distinct and amounts positive. *)
Theorem lawful_runs_keep_escrow_invariant (db : database) :
  lawful db -> well_formed db /\ escrow_invariant db.
Proof.
  induction 1 as [db (T & ND & B)
                 | db db' t NOW g md5 fuel s r a c l _ [WF Inv] C
                 | db db' NOW i p t _ [WF Inv] F P U
                 | db db' NOW _ [WF Inv] S].
  - split.
    + split; [exact ND | split].
      * rewrite T. constructor.
      * rewrite T. intros t [].
    + intros u Hu. destruct (B u Hu) as [Bal Esc].
      rewrite T. simpl. lia.
  - eapply create_keeps_invariant; eassumption.
  - eapply update_keeps_invariant; eassumption.
  - eapply sweep_keeps_invariant; eassumption.
Qed.

(** X9 on the scenario: Alice sends 500.00, Bob accepts, the transaction is
    completed. *)
Lemma lawful_runs_keep_escrow_invariant_witness :
  well_formed Scenario.db_completed /\ escrow_invariant Scenario.db_completed.
Proof.
  apply lawful_runs_keep_escrow_invariant.
  destruct (find_transaction 7%N Scenario.db_accepted) as [t2|] eqn:F2;
    [|vm_compute in F2; discriminate].
  apply (lawful_update Scenario.db_accepted Scenario.db_completed
           (2 * Scenario.half_hour) 7%N "completed" t2);
    [ | exact F2 | vm_compute in F2; inversion F2; reflexivity | vm_compute; reflexivity].
  destruct (find_transaction 7%N Scenario.db_pending) as [t1|] eqn:F1;
    [|vm_compute in F1; discriminate].
  apply (lawful_update Scenario.db_pending Scenario.db_accepted
           Scenario.half_hour 7%N "accepted" t1);
    [ | exact F1 | vm_compute in F1; inversion F1; reflexivity | vm_compute; reflexivity].
  destruct (create_transaction_with_escrow 0 7%N Scenario.digests 1 1%N 2%N 50000
              Scenario.deliver 1 Scenario.genesis) as [[t db1]| |] eqn:C;
    try (vm_compute in C; discriminate).
  assert (E1 : db1 = Scenario.db_pending)
    by (unfold Scenario.db_pending; rewrite C; reflexivity).
  rewrite <- E1.
  apply (lawful_create Scenario.genesis db1 t 0 7%N Scenario.digests 1 1%N 2%N 50000
           Scenario.deliver 1); [|exact C].
  apply lawful_initial. split; [reflexivity | split].
  - simpl. repeat constructor; simpl; intuition discriminate.
  - intros u [<- | [<- | []]]; simpl; split; (lia || reflexivity).
Defined.

(** ** save_device_token *)

Lemma find_token_map (NOW : timestamptz) (n : option string) (p : string) (i u : uuid)
      (k : string) (tokens : list device_tokens.row) :
  find (token_of u k)
       (map (fun r => if N.eqb (device_tokens.id r) i then SET_token_used NOW n p r else r)
            tokens)
  = option_map (fun r => if N.eqb (device_tokens.id r) i
                         then SET_token_used NOW n p r else r)
               (find (token_of u k) tokens).
Proof.
  induction tokens as [|r rest IH]; simpl; [reflexivity|].
  assert (E : token_of u k (if N.eqb (device_tokens.id r) i
                            then SET_token_used NOW n p r else r) = token_of u k r)
    by (destruct (N.eqb (device_tokens.id r) i); reflexivity).
  rewrite E. destruct (token_of u k r); [reflexivity | exact IH].
Qed.

Lemma find_token_new (u : uuid) (k : string) (tokens : list device_tokens.row)
      (r : device_tokens.row) :
  find (token_of u k) tokens = None -> token_of u k r = true ->
  find (token_of u k) (tokens ++ [r]) = Some r.
Proof.
  induction tokens as [|x rest IH]; simpl; intros F T.
  - rewrite T. reflexivity.
  - destruct (token_of u k x); [discriminate | apply IH; assumption].
Qed.

(** After a call that returned [i], the row of this user and token has id
    [i]. *)
Lemma saved_token_found (NOW : timestamptz) (uuid_generate_v4 : uuid)
      (users : list users.row) (u : uuid) (k : string) (n : option string) (p : string)
      (tokens tokens1 : list device_tokens.row) (i : uuid) :
  save_device_token NOW uuid_generate_v4 users u k n p tokens = Returned (i, tokens1) ->
  exists r,
    find (token_of u k) tokens1 = Some r /\
    device_tokens.id r = i /\
    device_tokens.device_name r = n /\
    device_tokens.platform r = p /\
    device_tokens.last_used_at r = Some NOW.
Proof.
  unfold save_device_token.
  destruct (find (token_of u k) tokens) as [r|] eqn:F; simpl.
  - intros E. inversion E; subst. rewrite find_token_map, F. simpl.
    rewrite N.eqb_refl. eexists. split; [reflexivity|]. repeat split.
  - destruct (existsb _ tokens); [discriminate|].
    destruct (existsb (token_of u k) tokens); [discriminate|].
    destruct (negb _); [discriminate|].
    intros E. inversion E; subst.
    eexists. split; [apply find_token_new; [exact F|]|repeat split].
    unfold token_of. simpl. rewrite N.eqb_refl, String.eqb_refl. reflexivity.
Qed.



Lemma token_of_pair (u : uuid) (k : string) (r : device_tokens.row) :
  token_of u k r = true <-> (device_tokens.user_id r, device_tokens.token r) = (u, k).
Proof.
  unfold token_of. rewrite andb_true_iff, N.eqb_eq, String.eqb_eq.
  split; [intros [-> ->]; reflexivity | intros E; inversion E; auto].
Qed.

(** X11.  [save_device_token] keeps the keys of [device_tokens]: if the ids
    are distinct, no two rows have the same user and token, and every row
    belongs to a user, then the same holds of the rows a returning call
    leaves. *)
Theorem save_device_token_keeps_keys (NOW : timestamptz) (uuid_generate_v4 : uuid)
        (users : list users.row) (u : uuid) (k : string) (n : option string)
        (p : string) (tokens tokens1 : list device_tokens.row) (i : uuid) :
  tokens_well_formed users tokens ->
  save_device_token NOW uuid_generate_v4 users u k n p tokens = Returned (i, tokens1) ->
  tokens_well_formed users tokens1.
Proof.
  intros (NDi & NDp & Fk). unfold save_device_token.
  destruct (find (token_of u k) tokens) as [r0|] eqn:F; simpl.
  - intros E. inversion E; subst; clear E.
    set (g := fun r => if N.eqb (device_tokens.id r) (device_tokens.id r0)
                       then SET_token_used NOW n p r else r).
    split; [|split].
    + rewrite map_map.
      replace (map (fun r => device_tokens.id (g r)) tokens)
        with (map device_tokens.id tokens); [exact NDi|].
      apply map_ext. intros r. unfold g.
      destruct (N.eqb (device_tokens.id r) (device_tokens.id r0)); reflexivity.
    + rewrite map_map.
      replace (map (fun r => (device_tokens.user_id (g r), device_tokens.token (g r)))
                   tokens)
        with (map (fun r => (device_tokens.user_id r, device_tokens.token r)) tokens);
        [exact NDp|].
      apply map_ext. intros r. unfold g.
      destruct (N.eqb (device_tokens.id r) (device_tokens.id r0)); reflexivity.
    + intros r Hr. apply in_map_iff in Hr. destruct Hr as (r' & <- & Hr').
      unfold g. destruct (N.eqb (device_tokens.id r') (device_tokens.id r0));
        apply (Fk r' Hr').
  - destruct (existsb (fun r => N.eqb (device_tokens.id r) uuid_generate_v4) tokens)
      eqn:K; [discriminate|].
    destruct (existsb (token_of u k) tokens); [discriminate|].
    destruct (existsb (id_is u) users) eqn:U; simpl; [|discriminate].
    intros E. inversion E; subst; clear E.
    split; [|split].
    + rewrite map_app. simpl. apply NoDup_snoc; [exact NDi|].
      intros Hin. apply in_map_iff in Hin. destruct Hin as (r & Er & Hr).
      assert (X : existsb (fun r => N.eqb (device_tokens.id r) i) tokens = true).
      { apply existsb_exists. exists r. split; [exact Hr | apply N.eqb_eq; exact Er]. }
      congruence.
    + rewrite map_app. simpl. apply NoDup_snoc; [exact NDp|].
      intros Hin. apply in_map_iff in Hin. destruct Hin as (r & Er & Hr).
      apply token_of_pair in Er. rewrite (find_none _ _ F r Hr) in Er. discriminate.
    + intros r Hr. apply in_app_iff in Hr. destruct Hr as [Hr | [<- | []]];
        [apply (Fk r Hr) | exact U].
Qed.

(** X11 on an example: Alice's phone is the first row. *)
Lemma save_device_token_keeps_keys_witness :
  tokens_well_formed [Scenario.alice] [phone_of_alice].
Proof.
  apply (save_device_token_keeps_keys 0 40%N [Scenario.alice] 1%N
           "ExponentPushToken[a]" (Some "Pixel") "android" [] [phone_of_alice] 40%N).
  - split; [constructor | split; [constructor | intros r []]].
  - reflexivity.
Defined.



(** ** Unread lists under the notification trigger *)

Lemma filter_own_row (i : uuid) (rows : list transactions.row) (t : transactions.row) :
  NoDup (map transactions.id rows) ->
  find (tx_id_is i) rows = Some t ->
  filter (tx_id_is i) rows = [t].
Proof.
  induction rows as [|r rest IH]; simpl; intros ND F; [discriminate|].
  inversion ND as [|x l Hnotin ND']; subst.
  destruct (tx_id_is i r) eqn:E.
  - inversion F; subst r. f_equal.
    unfold tx_id_is in E. apply N.eqb_eq in E.
    clear IH F ND ND'. induction rest as [|x rest IH]; simpl; [reflexivity|].
    unfold tx_id_is at 1. destruct (N.eqb_spec (transactions.id x) i) as [Ex | Nx].
    + exfalso. apply Hnotin. left. congruence.
    + apply IH. intros H. apply Hnotin. right. exact H.
  - apply IH; assumption.
Qed.

Lemma unread_grown_trans (a b : nat) (i : uuid) (u v w : users.row) :
  unread_grown a i u v -> unread_grown b i v w -> unread_grown (a + b) i u w.
Proof.
  intros [I1 U1] [I2 U2]. split; [congruence|].
  rewrite U2, U1, repeat_app, app_assoc. reflexivity.
Qed.

Lemma Forall2_unread_step (i : uuid) (f g h : users.row -> nat)
      (us vs ws : list users.row) :
  Forall2 (fun u v => unread_grown (f u) i u v) us vs ->
  Forall2 (fun v w => unread_grown (g v) i v w) vs ws ->
  (forall u v, users.id v = users.id u -> g v = g u) ->
  (forall u, h u = (f u + g u)%nat) ->
  Forall2 (fun u w => unread_grown (h u) i u w) us ws.
Proof.
  intros H1. revert ws.
  induction H1 as [|u v us vs Huv _ IH]; intros ws H2 Hid Hsum;
    inversion H2 as [|v' w vs' ws' Hvw Hrest]; subst; constructor.
  - rewrite Hsum. rewrite (Hid u v) in Hvw by apply Huv.
    eapply unread_grown_trans; eassumption.
  - apply IH; assumption.
Qed.

Lemma unread_map_grown (i : uuid) (WHERE : users.row -> bool) (us : list users.row) :
  Forall2 (fun u u' => unread_grown (if WHERE u then 1 else 0) i u u') us
    (map (fun u => if WHERE u
                   then with_unread_transactions (users.unread_transactions u ++ [i]) u
                   else u) us).
Proof.
  induction us as [|u us IH]; simpl; constructor; [|exact IH].
  destruct (WHERE u); split; simpl; try reflexivity.
  rewrite app_nil_r. reflexivity.
Qed.

Lemma UPDATE_users_keeps_unread (i : uuid) (SET : users.row -> outcome users.row)
      (WHERE : users.row -> bool) (db db' : database) :
  (forall u u', SET u = Returned u' ->
                users.id u' = users.id u /\
                users.unread_transactions u' = users.unread_transactions u) ->
  UPDATE_users SET WHERE db = Returned (tt, db') ->
  public_transactions db' = public_transactions db /\
  Forall2 (fun u u' => unread_grown 0 i u u') (public_users db) (public_users db').
Proof.
  intros HSET. unfold UPDATE_users.
  destruct (UPDATE SET WHERE (public_users db)) as [us| |] eqn:U; simpl; try discriminate.
  intros E. inversion E; subst; simpl. split; [reflexivity|].
  apply UPDATE_Returned in U. eapply Forall2_impl; [|exact U].
  intros u u' Hu. simpl in Hu. unfold unread_grown. simpl. rewrite app_nil_r.
  destruct (WHERE u); [apply HSET; exact Hu | subst; split; reflexivity].
Qed.

(** The statement on [transactions] of a status change, when the id is that
    of one row: the row is re-written and the trigger runs once, for it. *)
Lemma UPDATE_transactions_own (SET : transactions.row -> transactions.row) (i : uuid)
      (t : transactions.row) (db : database) :
  NoDup (map transactions.id (public_transactions db)) ->
  find_transaction i db = Some t ->
  UPDATE_transactions SET (tx_id_is i) db =
  (notify_transaction_update t (SET t) ;; ret tt)
    (mkdb (public_users db) (rows_set SET i (public_transactions db))).
Proof.
  intros ND F. unfold UPDATE_transactions, find_transaction in *.
  rewrite (filter_own_row i _ t ND F). reflexivity.
Qed.

Lemma id_IN_same (i j : uuid) (u v : users.row) :
  users.id v = users.id u -> id_IN i j v = id_IN i j u.
Proof. unfold id_IN. intros ->. reflexivity. Qed.

(** X13.  With the notification trigger installed, a status change that
    returns appends the transaction id to unread lists only, and twice where
    the trigger and the function both notify: on acceptance twice to the
    sender; on completion once to the sender and twice to the receiver; on
    cancellation twice to both parties.  No other unread list changes. *)
Theorem unread_lists_after_status_change
        (NOW : timestamptz) (i : uuid) (s : tx_status) (t : transactions.row)
        (db db' : database) :
  NoDup (map transactions.id (public_transactions db)) ->
  find_transaction i db = Some t ->
  transactions.status t <> s ->
  update_transaction_status NOW i (status_text s) db = Returned (tt, db') ->
  Forall2 (fun u u' => unread_grown (notifications s t u) i u u')
          (public_users db) (public_users db').
Proof.
  intros ND F Hst.
  assert (Hi : transactions.id t = i).
  { unfold find_transaction in F. apply find_some in F. destruct F as [_ F].
    unfold tx_id_is in F. apply N.eqb_eq in F. exact F. }
  unfold update_transaction_status, bind, SELECT_transaction.
  change (find (fun t0 => N.eqb (transactions.id t0) i) (public_transactions db))
    with (find_transaction i db).
  rewrite F.
  destruct (String.eqb (status_text (transactions.status t)) (status_text s)) eqn:E.
  { exfalso. apply Hst. apply String.eqb_eq in E.
    destruct (transactions.status t), s; simpl in E; congruence. }
  assert (Hne : forall s0, s0 = s ->
            negb (status_eqb (transactions.status t) s0) = true).
  { intros s0 ->. destruct (transactions.status t), s; try reflexivity; congruence. }
  destruct s; simpl.
  - discriminate.
  - rewrite (UPDATE_transactions_own _ i t db ND F).
    unfold bind at 1. unfold notify_transaction_update. simpl.
    rewrite (Hne accepted eq_refl), Hi.
    rewrite UPDATE_users_unread. unfold ret. rewrite UPDATE_users_unread. simpl.
    intros Eq. inversion Eq; subst; simpl. clear Eq.
    eapply Forall2_unread_step;
      [apply unread_map_grown | apply unread_map_grown | |].
    + intros u v Huv. cbv beta. rewrite (id_is_same _ _ _ Huv). reflexivity.
    + intros u. cbv beta. destruct (id_is (transactions.sender_id t) u); reflexivity.
  - destruct (negb (status_eqb (transactions.status t) accepted)); [discriminate|].
    rewrite (UPDATE_transactions_own _ i t db ND F).
    unfold bind at 1. unfold notify_transaction_update. simpl.
    rewrite (Hne completed eq_refl), Hi.
    rewrite UPDATE_users_unread. unfold ret. simpl.
    match goal with
    | |- context [UPDATE_users ?S ?W ?d] =>
        destruct (UPDATE_users S W d) as [[[] db1]| |] eqn:U1; try discriminate
    end.
    apply (UPDATE_users_keeps_unread i) in U1.
    2:{ intros u u'. destruct (numeric_12_2_outcome
              (users.escrow_balance u - transactions.amount t)) as [-> | ->];
        simpl; intros Eq; inversion Eq; subst; split; reflexivity. }
    destruct U1 as [T1 U1]. simpl in T1, U1.
    match goal with
    | |- context [UPDATE_users ?S ?W ?d] =>
        destruct (UPDATE_users S W d) as [[[] db2]| |] eqn:U2; try discriminate
    end.
    apply (UPDATE_users_keeps_unread i) in U2.
    2:{ intros u u'. destruct (numeric_12_2_outcome
              (users.balance u + transactions.amount t)) as [-> | ->];
        simpl; intros Eq; inversion Eq; subst; split; reflexivity. }
    destruct U2 as [T2 U2].
    rewrite UPDATE_users_unread.
    intros Eq. inversion Eq; subst; simpl. clear Eq.
    eapply Forall2_unread_step; [apply unread_map_grown | | |].
    + eapply Forall2_unread_step; [exact U1 | | |].
      * eapply Forall2_unread_step; [exact U2 | apply unread_map_grown | |].
        -- intros u v Huv. cbv beta. rewrite (id_is_same _ _ _ Huv). reflexivity.
        -- intros u. cbv beta. reflexivity.
      * intros u v Huv. cbv beta. rewrite (id_is_same _ _ _ Huv). reflexivity.
      * intros u. cbv beta. reflexivity.
    + intros u v Huv. cbv beta. rewrite (id_is_same _ _ _ Huv). reflexivity.
    + intros u. cbv beta. reflexivity.
  - rewrite (UPDATE_transactions_own _ i t db ND F).
    unfold bind at 1. unfold notify_transaction_update. simpl.
    rewrite (Hne cancelled eq_refl), Hi.
    rewrite UPDATE_users_unread. unfold ret. simpl.
    match goal with
    | |- context [UPDATE_users ?S ?W ?d] =>
        destruct (UPDATE_users S W d) as [[[] db1]| |] eqn:U1; try discriminate
    end.
    apply (UPDATE_users_keeps_unread i) in U1.
    2:{ intros u u'. destruct (numeric_12_2_outcome
              (users.balance u + transactions.amount t)) as [-> | ->];
        simpl; [|discriminate].
        destruct (numeric_12_2_outcome
              (users.escrow_balance u - transactions.amount t)) as [-> | ->];
        simpl; intros Eq; inversion Eq; subst; split; reflexivity. }
    destruct U1 as [T1 U1]. simpl in T1, U1.
    rewrite UPDATE_users_unread.
    intros Eq. inversion Eq; subst; simpl. clear Eq.
    eapply Forall2_unread_step; [apply unread_map_grown | | |].
    + eapply Forall2_unread_step; [exact U1 | apply unread_map_grown | |].
      * intros u v Huv. cbv beta. rewrite (id_IN_same _ _ _ _ Huv). reflexivity.
      * intros u. cbv beta. reflexivity.
    + intros u v Huv. cbv beta. rewrite (id_IN_same _ _ _ _ Huv). reflexivity.
    + intros u. cbv beta.
      destruct (id_IN (transactions.sender_id t) (transactions.receiver_id t) u);
        reflexivity.
Qed.

(** X13 on the scenario: Bob accepts, Alice's list receives the id twice. *)
Lemma unread_lists_after_status_change_witness :
  exists t,
    find_transaction 7%N Scenario.db_pending = Some t /\
    Forall2 (fun u u' => unread_grown (notifications accepted t u) 7%N u u')
            (public_users Scenario.db_pending) (public_users Scenario.db_accepted).
Proof.
  destruct (find_transaction 7%N Scenario.db_pending) as [t|] eqn:F;
    [|vm_compute in F; discriminate].
  exists t. split; [reflexivity|].
  apply (unread_lists_after_status_change Scenario.half_hour 7%N accepted t
           Scenario.db_pending Scenario.db_accepted).
  - vm_compute. repeat constructor; simpl; intuition discriminate.
  - exact F.
  - vm_compute in F. inversion F. simpl. discriminate.
  - vm_compute. reflexivity.
Defined.

(** ** The BEFORE INSERT triggers *)

Lemma trigger_column (width : nat) (md5_random : nat -> string) (stored : list string)
      (fuel : nat) (db db' : database) (NEW_column column : option string)
      (f : option string -> plpgsql (option string)) :
  (width <= 32)%nat ->
  (forall i, is_md5_text (md5_random i) = true) ->
  (forall c, f (Some c) = ret (Some c)) ->
  f None db = (code <~ generate_LOOP width md5_random stored fuel 0 ;;
               Returned (Some code, db)) ->
  BEFORE_INSERT_WHEN_NULL f NEW_column db = Returned (column, db') ->
  db' = db /\
  match NEW_column with
  | Some _ => column = NEW_column
  | None => exists code, column = Some code /\
                         String.length code = width /\
                         string_forall is_upper_alnum code = true /\
                         ~ In code stored
  end.
Proof.
  intros W Hmd5 Hsome Hnone. unfold BEFORE_INSERT_WHEN_NULL.
  destruct NEW_column as [c|].
  - unfold ret. intros E. inversion E. split; reflexivity.
  - rewrite Hnone.
    destruct (generate_LOOP width md5_random stored fuel 0) as [code| |] eqn:L;
      simpl; try discriminate.
    intros E. inversion E; subst. split; [reflexivity|].
    exists code. split; [reflexivity|].
    apply (generate_LOOP_code width md5_random stored fuel code W Hmd5 L).
Qed.

Lemma set_vault_id_NULL (md5_random : nat -> string) (fuel : nat) (db : database) :
  set_vault_id md5_random fuel None db =
  (code <~ generate_LOOP 8 md5_random (map users.vault_id (public_users db)) fuel 0 ;;
   Returned (Some code, db)).
Proof.
  unfold set_vault_id, generate_vid, bind, obind, ret.
  destruct (generate_LOOP 8 md5_random _ fuel 0); reflexivity.
Qed.

Lemma set_vtid_NULL (md5_random : nat -> string) (fuel : nat) (db : database) :
  set_vtid md5_random fuel None db =
  (code <~ generate_LOOP 12 md5_random
             (map transactions.vtid (public_transactions db)) fuel 0 ;;
   Returned (Some code, db)).
Proof.
  unfold set_vtid, generate_vtid, bind, obind, ret.
  destruct (generate_LOOP 12 md5_random _ fuel 0); reflexivity.
Qed.



(** ** The client's clock *)


(** X16.  The client and the sweep agree on expired pending transactions.
    Whatever the clocks, the client never offers to accept a transaction it
    asks to cancel, and to the receiver of a pending transaction it does one
    of the two.  When the client's reading of a timestamp is not after the
    timestamp and its clock is not behind the server's, a transaction that
    the sweep selects is expired for the client too: no accept button, and
    the request for 'cancelled'. *)
Theorem expired_pending_on_the_client (getTime : timestamptz -> Z) (NOW : timestamptz)
        (Date_now : Z) (user : option uuid) (transaction : transactions.row) :
  (forall ts, 1000 * getTime ts <= ts) ->
  NOW < 1000 * (Date_now + 1) ->
  (TransactionDetails.accept_button getTime Date_now user transaction = true ->
   TransactionDetails.checkExpiration getTime Date_now transaction = []) /\
  (TransactionDetails.isReceiver user transaction = true ->
   transactions.status transaction = pending ->
   TransactionDetails.accept_button getTime Date_now user transaction = true \/
   TransactionDetails.checkExpiration getTime Date_now transaction
   = [updateTransaction_status (transactions.id transaction) "cancelled"]) /\
  (expired_cursor NOW transaction = true ->
   TransactionDetails.isExpired getTime Date_now transaction = true /\
   TransactionDetails.accept_button getTime Date_now user transaction = false /\
   TransactionDetails.checkExpiration getTime Date_now transaction
   = [updateTransaction_status (transactions.id transaction) "cancelled"]).
Proof.
  intros Hms Hclock.
  unfold TransactionDetails.accept_button, TransactionDetails.checkExpiration.
  split; [|split].
  - intros A. apply andb_true_iff in A. destruct A as [_ A].
    apply negb_true_iff in A. rewrite A. reflexivity.
  - intros -> ->. simpl.
    destruct (TransactionDetails.isExpired getTime Date_now transaction); auto.
  - unfold expired_cursor. intros E. apply andb_true_iff in E. destruct E as [St E].
    assert (X : TransactionDetails.isExpired getTime Date_now transaction = true).
    { unfold TransactionDetails.isExpired.
      destruct (transactions.created_at transaction) as [created|]; [|discriminate].
      simpl. apply Z.ltb_lt in E. apply Z.leb_le.
      pose proof (Hms created). unfold INTERVAL_1_hour in E. lia. }
    rewrite X, St. simpl. rewrite andb_false_r. auto.
Qed.

(** X16 on the scenario: two hours after Alice sent the money, with one hour
    allowed, Bob's client reads timestamps to the millisecond. *)
Lemma expired_pending_on_the_client_witness :
  exists transaction,
    find_transaction 7%N Scenario.db_pending = Some transaction /\
    TransactionDetails.accept_button (fun ts => ts / 1000) 7200000 (Some 2%N) transaction
    = false.
Proof.
  destruct (find_transaction 7%N Scenario.db_pending) as [t|] eqn:F;
    [|vm_compute in F; discriminate].
  exists t. split; [reflexivity|].
  destruct (expired_pending_on_the_client (fun ts => ts / 1000) Scenario.two_hours
              7200000 (Some 2%N) t) as (_ & _ & S).
  - intros ts. apply Z.mul_div_le. lia.
  - vm_compute. reflexivity.
  - apply S. vm_compute in F. inversion F. vm_compute. reflexivity.
Defined.

(** ** Ticking conditions *)

Lemma mark_condition_at (conditions : list TransactionCondition.t) (completed : bool) :
  forall index condition,
    nth_error conditions index = Some condition ->
    mark_condition conditions index completed =
    Some (firstn index conditions ++
          TransactionCondition.mk (TransactionCondition.description condition) completed
          :: skipn (S index) conditions)%list.
Proof.
  induction conditions as [|c rest IH]; intros [|index] condition; simpl;
    try discriminate.
  - intros E. inversion E. reflexivity.
  - intros E. rewrite (IH index condition E). reflexivity.
Qed.



(** ** The conditions of the send-money form *)

Lemma filter_index_beyond {A : Type} (index : nat) (array : list A) :
  forall i,
    (index < i)%nat ->
    TransactionModal.filter_index (fun j => negb (Nat.eqb j index)) i array = array.
Proof.
  induction array as [|x rest IH]; intros i Hi; simpl; [reflexivity|].
  destruct (Nat.eqb_spec i index) as [E | _]; [lia|]. simpl. f_equal.
  apply IH. lia.
Qed.

Lemma filter_index_removes {A : Type} (array : list A) :
  forall index i,
    TransactionModal.filter_index (fun j => negb (Nat.eqb j (i + index))) i array
    = (firstn index array ++ skipn (S index) array)%list.
Proof.
  induction array as [|x rest IH]; intros index i; simpl.
  - destruct index; reflexivity.
  - destruct index as [|index]; simpl.
    + rewrite Nat.add_0_r, Nat.eqb_refl. simpl.
      apply filter_index_beyond. lia.
    + destruct (Nat.eqb_spec i (i + S index)) as [E | _]; [lia|]. simpl. f_equal.
      replace (i + S index)%nat with (S i + index)%nat by lia. apply IH.
Qed.

Lemma Forall_without {A : Type} (P : A -> Prop) (array : list A) :
  forall index,
    Forall P array -> Forall P (firstn index array ++ skipn (S index) array)%list.
Proof.
  induction array as [|x rest IH]; intros index H.
  - destruct index; constructor.
  - inversion H; subst. destruct index as [|index]; simpl.
    + assumption.
    + constructor; [assumption | apply IH; assumption].
Qed.

Lemma removeCondition_conditions (index : nat) (f : TransactionModal.form) :
  TransactionModal.conditions (TransactionModal.removeCondition index f) =
  if (List.length (TransactionModal.conditions f) <=? MIN_CONDITIONS)%nat
  then TransactionModal.conditions f
  else (firstn index (TransactionModal.conditions f) ++
        skipn (S index) (TransactionModal.conditions f))%list.
Proof.
  unfold TransactionModal.removeCondition.
  destruct (List.length (TransactionModal.conditions f) <=? MIN_CONDITIONS)%nat;
    [reflexivity|].
  simpl. apply (filter_index_removes _ index 0%nat).
Qed.

Lemma handle_keeps_filled (trim : string -> string) (e : TransactionModal.event)
      (f : TransactionModal.form) :
  TransactionModal.conditions f <> [] ->
  TransactionModal.conditions (TransactionModal.handle trim f e) <> [].
Proof.
  intros NE. destruct e as [text | | index]; simpl.
  - exact NE.
  - unfold TransactionModal.addCondition.
    destruct (String.eqb _ _); [exact NE|]. simpl.
    intros E. apply app_eq_nil in E. destruct E as [_ E]. discriminate.
  - rewrite removeCondition_conditions.
    destruct (Nat.leb_spec (List.length (TransactionModal.conditions f)) MIN_CONDITIONS)
      as [_ | L]; [exact NE|].
    intros E. apply (f_equal (@List.length _)) in E.
    rewrite length_app, length_firstn, length_skipn in E. simpl in E.
    unfold MIN_CONDITIONS in L. lia.
Qed.

Lemma handle_keeps_open (trim : string -> string) (e : TransactionModal.event)
      (f : TransactionModal.form) :
  Forall (fun c => TransactionCondition.completed c = false /\
                   TransactionCondition.description c <> "")
         (TransactionModal.conditions f) ->
  Forall (fun c => TransactionCondition.completed c = false /\
                   TransactionCondition.description c <> "")
         (TransactionModal.conditions (TransactionModal.handle trim f e)).
Proof.
  intros H. destruct e as [text | | index]; simpl.
  - exact H.
  - unfold TransactionModal.addCondition.
    destruct (String.eqb_spec (trim (TransactionModal.newCondition f)) "") as [_ | NE];
      [exact H|].
    simpl. apply Forall_app. split; [exact H|].
    constructor; [|constructor]. simpl. split; [reflexivity | exact NE].
  - rewrite removeCondition_conditions.
    destruct (List.length (TransactionModal.conditions f) <=? MIN_CONDITIONS)%nat;
      [exact H|].
    apply Forall_without. exact H.
Qed.

(** X18.  The conditions of the form, whatever the user types and presses
    from the empty form on.  Every condition in the list is open and has a
    description that is not empty.  Removing takes out the condition at the
    index, and nothing when that would leave fewer than MIN_CONDITIONS; so
    once the list has a condition it keeps one, and from then on
    [validateTransaction] depends on the time limit alone. *)
Theorem conditions_of_the_form (trim : string -> string)
        (events : list TransactionModal.event) :
  let form := TransactionModal.after trim events TransactionModal.initial in
  Forall (fun c => TransactionCondition.completed c = false /\
                   TransactionCondition.description c <> "")
         (TransactionModal.conditions form) /\
  (forall index,
      TransactionModal.conditions (TransactionModal.removeCondition index form) =
      if (List.length (TransactionModal.conditions form) <=? 1)%nat
      then TransactionModal.conditions form
      else (firstn index (TransactionModal.conditions form) ++
            skipn (S index) (TransactionModal.conditions form))%list) /\
  (forall later parseInt timeLimit,
      TransactionModal.conditions form <> [] ->
      TransactionModal.conditions (TransactionModal.after trim later form) <> [] /\
      validateTransaction parseInt
        (TransactionModal.conditions (TransactionModal.after trim later form)) timeLimit
      = match parseInt timeLimit with
        | Some timeLimitNum => 1 <=? timeLimitNum
        | None => false
        end).
Proof.
  intros form. split; [|split].
  - unfold form, TransactionModal.after.
    assert (G : forall f,
               Forall (fun c => TransactionCondition.completed c = false /\
                                TransactionCondition.description c <> "")
                      (TransactionModal.conditions f) ->
               Forall (fun c => TransactionCondition.completed c = false /\
                                TransactionCondition.description c <> "")
                      (TransactionModal.conditions
                         (fold_left (TransactionModal.handle trim) events f))).
    { induction events as [|e events IH]; intros f H; simpl; [exact H|].
      apply IH. apply handle_keeps_open. exact H. }
    apply G. constructor.
  - intros index. apply removeCondition_conditions.
  - intros later parseInt timeLimit NE.
    assert (K : TransactionModal.conditions (TransactionModal.after trim later form)
                <> []).
    { unfold TransactionModal.after. generalize dependent form. clear.
      induction later as [|e later IH]; intros f NE; simpl; [exact NE|].
      apply IH. apply handle_keeps_filled. exact NE. }
    split; [exact K|].
    unfold validateTransaction, MIN_CONDITIONS.
    destruct (TransactionModal.conditions (TransactionModal.after trim later form))
      as [|c rest]; [congruence|].
    simpl. destruct (parseInt timeLimit) as [n|]; [|reflexivity].
    destruct (Z.ltb_spec n 1), (Z.leb_spec 1 n); try reflexivity; lia.
Qed.

(** X18 on an example: with one condition entered, pressing its remove
    button leaves it, and the form with a time limit of 12 is valid. *)
Lemma conditions_of_the_form_witness :
  validateTransaction (fun _ => Some 12)
    (TransactionModal.conditions
       (TransactionModal.after (fun s => s)
          [TransactionModal.typed "goods delivered"; TransactionModal.add_pressed;
           TransactionModal.remove_pressed 0]
          TransactionModal.initial)) "12" = true.
Proof.
  destruct (conditions_of_the_form (fun s => s)
              [TransactionModal.typed "goods delivered"; TransactionModal.add_pressed])
    as (_ & _ & K).
  assert (NE : TransactionModal.conditions
                 (TransactionModal.after (fun s => s)
                    [TransactionModal.typed "goods delivered";
                     TransactionModal.add_pressed]
                    TransactionModal.initial) <> [])
    by (vm_compute; discriminate).
  destruct (K [TransactionModal.remove_pressed 0] (fun _ => Some 12) "12" NE) as [_ V].
  exact V.
Defined.

(** ** The notification queue *)

Lemma compareFn_precedes (a b : NotificationManager.NotificationQueueItem) :
  NotificationManager.compareFn a b <= 0 <-> precedes a b.
Proof.
  unfold NotificationManager.compareFn, precedes.
  destruct (NotificationManager.priority a), (NotificationManager.priority b);
    simpl; split; intros H.
  all: try lia.
  all: try (left; lia).
  all: try (right; split; [reflexivity | lia]).
  all: destruct H as [H | [H H']]; try lia; try discriminate.
Qed.

Lemma precedes_total (a b : NotificationManager.NotificationQueueItem) :
  ~ precedes a b -> precedes b a.
Proof.
  unfold precedes.
  destruct (NotificationManager.priority a), (NotificationManager.priority b);
    simpl; intros H.
  all: try (left; lia).
  all: try (exfalso; apply H; left; lia).
  all: right; split; [reflexivity|].
  all: destruct (Z_le_gt_dec (NotificationManager.timestamp b)
                             (NotificationManager.timestamp a)) as [L | G];
    [exact L|].
  all: exfalso; apply H; right; split; [reflexivity | lia].
Qed.

Lemma precedes_trans (a b c : NotificationManager.NotificationQueueItem) :
  precedes a b -> precedes b c -> precedes a c.
Proof.
  unfold precedes.
  destruct (NotificationManager.priority a), (NotificationManager.priority b),
    (NotificationManager.priority c); simpl;
    intros [H1 | [E1 H1]] [H2 | [E2 H2]].
  all: try lia.
  all: try discriminate.
  all: try (left; lia).
  all: right; split; [reflexivity | lia].
Qed.

Lemma insert_Permutation (a : NotificationManager.NotificationQueueItem)
      (l : list NotificationManager.NotificationQueueItem) :
  Permutation (NotificationManager.insert a l) (a :: l).
Proof.
  induction l as [|b rest IH]; simpl; [apply Permutation_refl|].
  destruct (NotificationManager.compareFn a b <=? 0); [apply Permutation_refl|].
  eapply Permutation_trans; [apply perm_skip; exact IH | apply perm_swap].
Qed.

Lemma sort_Permutation (l : list NotificationManager.NotificationQueueItem) :
  Permutation (NotificationManager.sort l) l.
Proof.
  induction l as [|a rest IH]; simpl; [constructor|].
  eapply Permutation_trans; [apply insert_Permutation | apply perm_skip; exact IH].
Qed.

Lemma insert_sorted (a : NotificationManager.NotificationQueueItem)
      (l : list NotificationManager.NotificationQueueItem) :
  StronglySorted precedes l -> StronglySorted precedes (NotificationManager.insert a l).
Proof.
  induction 1 as [|b rest S IH F]; simpl.
  - constructor; constructor.
  - destruct (Z.leb_spec (NotificationManager.compareFn a b) 0) as [L | G].
    + apply compareFn_precedes in L. constructor.
      * constructor; assumption.
      * constructor; [exact L|].
        eapply Forall_impl; [|exact F]. intros c Hc.
        eapply precedes_trans; eassumption.
    + assert (B : precedes b a).
      { apply precedes_total. intros P. apply compareFn_precedes in P. lia. }
      constructor; [exact IH|].
      eapply Permutation_Forall; [apply Permutation_sym, insert_Permutation|].
      constructor; assumption.
Qed.

Lemma sort_sorted (l : list NotificationManager.NotificationQueueItem) :
  StronglySorted precedes (NotificationManager.sort l).
Proof.
  induction l as [|a rest IH]; simpl; [constructor | apply insert_sorted; exact IH].
Qed.



Lemma checks_left_Permutation (l l' : list NotificationManager.NotificationQueueItem) :
  Permutation l l' ->
  NotificationManager.checks_left l = NotificationManager.checks_left l'.
Proof.
  induction 1; simpl; lia.
Qed.

Lemma checks_left_app (l l' : list NotificationManager.NotificationQueueItem) :
  NotificationManager.checks_left (l ++ l') =
  (NotificationManager.checks_left l + NotificationManager.checks_left l')%nat.
Proof.
  induction l as [|a l IH]; simpl; lia.
Qed.

Lemma checks_left_cons (n : NotificationManager.NotificationQueueItem)
      (l : list NotificationManager.NotificationQueueItem) :
  NotificationManager.checks_left (n :: l) =
  (1 + (3 - NotificationManager.attempts n) + NotificationManager.checks_left l)%nat.
Proof. reflexivity. Qed.

Lemma checks_left_bound (l : list NotificationManager.NotificationQueueItem) :
  (NotificationManager.checks_left l <= 4 * List.length l)%nat.
Proof.
  induction l as [|a l IH]; [simpl; lia|].
  change (NotificationManager.checks_left (a :: l))
    with (1 + (NotificationManager.maxRetries - NotificationManager.attempts a)
          + NotificationManager.checks_left l)%nat.
  change (List.length (a :: l)) with (S (List.length l)).
  unfold NotificationManager.maxRetries. lia.
Qed.

Lemma spaced_next (Date_now : nat -> Z) (w : NotificationManager.world)
      (n : NotificationManager.NotificationQueueItem) :
  monotone Date_now ->
  recorded Date_now w ->
  NotificationManager.canSendNotification (NotificationManager.this w)
    (Date_now (NotificationManager.readings w)) (NotificationManager.userId n)
    (NotificationManager.type (NotificationManager.data n))
    (NotificationManager.priority n) = true ->
  recorded Date_now
    (NotificationManager.mkWorld
       (NotificationManager.mkFields
          (NotificationManager.queue (NotificationManager.this w)) true
          (NotificationManager.notified (NotificationManager.userId n)
             (NotificationManager.type (NotificationManager.data n))
             (Date_now (S (NotificationManager.readings w)))
             (NotificationManager.userLastNotified (NotificationManager.this w))))
       (S (S (NotificationManager.readings w)))
       (NotificationManager.mkDelivery n (Date_now (NotificationManager.readings w))
          (Date_now (S (NotificationManager.readings w)))
        :: NotificationManager.sent w)).
Proof.
  intros Mono (Cover & Clock & Spaced) Can.
  unfold NotificationManager.canSendNotification, NotificationManager.lastNotified in Can.
  apply Z.leb_le in Can.
  split; [|split]; simpl.
  - intros d [<- | Hd]; simpl.
    + exists (Date_now (S (NotificationManager.readings w))).
      unfold NotificationManager.notified.
      rewrite N.eqb_refl, String.eqb_refl. simpl. split; [reflexivity | lia].
    + destruct (Cover d Hd) as (t & Et & Le).
      unfold NotificationManager.notified.
      destruct (_ && _) eqn:Same.
      * exists (Date_now (S (NotificationManager.readings w))). split; [reflexivity|].
        destruct (Clock _ _ _ Et) as (i & Hi & ->).
        pose proof (Mono i (S (NotificationManager.readings w)) ltac:(lia)). lia.
      * exists t. split; assumption.
  - intros u k t. unfold NotificationManager.notified.
    destruct (_ && _).
    + intros E. inversion E.
      exists (S (NotificationManager.readings w)). split; [lia | reflexivity].
    + intros E. destruct (Clock _ _ _ E) as (i & Hi & ->).
      exists i. split; [lia | reflexivity].
  - rewrite Spaced, andb_true_r. apply forallb_forall. intros d Hd.
    destruct (NotificationManager.same_target (NotificationManager.notification d) n)
      eqn:Same; [|reflexivity].
    simpl. apply Z.leb_le.
    destruct (Cover d Hd) as (t & Et & Le).
    unfold NotificationManager.same_target in Same.
    apply andb_true_iff in Same. destruct Same as [U K].
    apply N.eqb_eq in U. apply String.eqb_eq in K.
    rewrite U, K in Et. rewrite Et in Can. lia.
Qed.

Lemma recorded_later (Date_now : nat -> Z) (f f' : NotificationManager.fields)
      (r r' : nat) (s : list NotificationManager.delivery) :
  NotificationManager.userLastNotified f' = NotificationManager.userLastNotified f ->
  (r <= r')%nat ->
  recorded Date_now (NotificationManager.mkWorld f r s) ->
  recorded Date_now (NotificationManager.mkWorld f' r' s).
Proof.
  intros E Le (Cover & Clock & Spaced). unfold recorded. simpl in *. rewrite E.
  split; [exact Cover | split; [|exact Spaced]].
  intros u k t Et. destruct (Clock _ _ _ Et) as (i & Hi & ->).
  exists i. split; [lia | reflexivity].
Qed.

Lemma processQueue_recorded (Date_now : nat -> Z) :
  monotone Date_now ->
  forall fuel w,
    (NotificationManager.checks_left (NotificationManager.queue (NotificationManager.this w))
     < fuel)%nat ->
    recorded Date_now w ->
    exists w',
      NotificationManager.processQueue fuel Date_now w = Some w' /\
      recorded Date_now w' /\
      (List.length (NotificationManager.queue (NotificationManager.this w'))
       <= List.length (NotificationManager.queue (NotificationManager.this w)))%nat.
Proof.
  intros Mono. induction fuel as [|fuel IH]; intros [[q p last] r s] Hfuel Rec;
    [lia|].
  simpl in *.
  pose proof (sort_Permutation q) as P.
  destruct q as [|x q'].
  - eexists. split; [reflexivity|]. split; [|simpl; lia].
    eapply recorded_later; [| |exact Rec]; [reflexivity | lia].
  - remember (x :: q') as q eqn:Q.
    destruct (NotificationManager.sort q) as [|n rest] eqn:Sorted.
    { apply Permutation_nil in P. congruence. }
    clear Q x q'.
    pose proof (checks_left_Permutation _ _ P) as C. rewrite checks_left_cons in C.
    pose proof (Permutation_length P) as Len. simpl in Len.
    destruct (NotificationManager.canSendNotification _ _ _ _ _) eqn:Can.
    + eexists. split; [reflexivity|]. split; [|simpl; lia].
      pose proof (spaced_next Date_now
                    (NotificationManager.mkWorld
                       (NotificationManager.mkFields rest p last) r s) n Mono) as X.
      simpl in X.
      assert (R0 : recorded Date_now
                     (NotificationManager.mkWorld
                        (NotificationManager.mkFields rest p last) r s))
        by (eapply recorded_later; [| |exact Rec]; [reflexivity | lia]).
      exact (X R0 Can).
    + destruct (Nat.ltb_spec (NotificationManager.attempts n)
                             NotificationManager.maxRetries) as [Lt | Ge].
      * match goal with
        | |- context [NotificationManager.processQueue fuel Date_now ?w2] =>
            destruct (IH w2) as (w' & E & R' & L')
        end.
        -- cbn [NotificationManager.queue NotificationManager.this].
           rewrite checks_left_app, checks_left_cons.
           cbn [NotificationManager.attempts NotificationManager.checks_left].
           unfold NotificationManager.maxRetries in Lt. lia.
        -- eapply recorded_later; [| |exact Rec]; [reflexivity | simpl; lia].
        -- exists w'. split; [exact E | split; [exact R'|]].
           simpl in L'. rewrite length_app in L'. simpl in L'. lia.
      * match goal with
        | |- context [NotificationManager.processQueue fuel Date_now ?w2] =>
            destruct (IH w2) as (w' & E & R' & L')
        end.
        -- cbn [NotificationManager.queue NotificationManager.this]. lia.
        -- eapply recorded_later; [| |exact Rec]; [reflexivity | simpl; lia].
        -- exists w'. split; [exact E | split; [exact R'|]].
           simpl in L'. lia.
Qed.

Lemma after_recorded (Date_now : nat -> Z) (fuel : nat) :
  monotone Date_now ->
  forall events w,
    (4 * (List.length (NotificationManager.queue (NotificationManager.this w))
          + List.length events) < fuel)%nat ->
    recorded Date_now w ->
    exists w',
      NotificationManager.after fuel Date_now events w = Some w' /\
      recorded Date_now w'.
Proof.
  intros Mono. induction events as [|e events IH]; intros w Hfuel Rec; simpl.
  - exists w. split; [reflexivity | exact Rec].
  - simpl in Hfuel.
    assert (Step : exists w1,
               NotificationManager.handle fuel Date_now w e = Some w1 /\
               recorded Date_now w1 /\
               (List.length (NotificationManager.queue (NotificationManager.this w1))
                <= S (List.length (NotificationManager.queue (NotificationManager.this w))))%nat).
    { destruct e as [u ti bo da pr|]; simpl.
      - unfold NotificationManager.queueNotification.
        match goal with
        | |- context [NotificationManager.processQueue fuel Date_now ?w2] =>
            set (pushed := w2)
        end.
        assert (Rp : recorded Date_now pushed).
        { destruct w as [f r s]. unfold pushed. simpl.
          eapply recorded_later; [| |exact Rec]; [reflexivity | lia]. }
        assert (Lp : List.length (NotificationManager.queue (NotificationManager.this pushed))
                     = S (List.length (NotificationManager.queue (NotificationManager.this w)))).
        { unfold pushed. simpl. rewrite length_app. simpl. lia. }
        destruct (negb (NotificationManager.processing (NotificationManager.this w))).
        + destruct (processQueue_recorded Date_now Mono fuel pushed) as (w1 & E & R1 & L1).
          * pose proof (checks_left_bound
                          (NotificationManager.queue (NotificationManager.this pushed))).
            lia.
          * exact Rp.
          * exists w1. split; [exact E | split; [exact R1 | lia]].
        + exists pushed. split; [reflexivity | split; [exact Rp | lia]].
      - destruct (processQueue_recorded Date_now Mono fuel w) as (w1 & E & R1 & L1).
        + pose proof (checks_left_bound
                        (NotificationManager.queue (NotificationManager.this w))).
          lia.
        + exact Rec.
        + exists w1. split; [exact E | split; [exact R1 | lia]]. }
    destruct Step as (w1 & E & R1 & L1). rewrite E.
    apply IH; [lia | exact R1].
Qed.



(** X21.  Retries do not wait.  A notification that fails its cooldown check
    is put back with one more attempt and [processQueue] calls itself at
    once; so when the clock does not get past the cooldowns of the queued
    notifications during the call, the call ends with the queue empty and
    nothing sent: every notification was dropped, after at most
    [maxRetries + 1] checks each. *)
Theorem blocked_notifications_are_dropped (Date_now : nat -> Z) (fuel : nat)
        (w : NotificationManager.world) :
  (NotificationManager.checks_left (NotificationManager.queue (NotificationManager.this w))
   < fuel)%nat ->
  (forall n k,
      In n (NotificationManager.queue (NotificationManager.this w)) ->
      (NotificationManager.readings w <= k
       < NotificationManager.readings w
         + 2 * NotificationManager.checks_left
                 (NotificationManager.queue (NotificationManager.this w)))%nat ->
      NotificationManager.canSendNotification (NotificationManager.this w) (Date_now k)
        (NotificationManager.userId n)
        (NotificationManager.type (NotificationManager.data n))
        (NotificationManager.priority n) = false) ->
  exists readings,
    NotificationManager.processQueue fuel Date_now w =
    Some (NotificationManager.mkWorld
            (NotificationManager.mkFields [] false
               (NotificationManager.userLastNotified (NotificationManager.this w)))
            readings (NotificationManager.sent w)) /\
    (readings <= NotificationManager.readings w
                 + 2 * NotificationManager.checks_left
                         (NotificationManager.queue (NotificationManager.this w)))%nat.
Proof.
  revert w. induction fuel as [|fuel IH]; intros [[q p last] r s] Hfuel Blocked;
    [lia|].
  cbn [NotificationManager.processQueue NotificationManager.queue NotificationManager.this
       NotificationManager.userLastNotified NotificationManager.readings
       NotificationManager.sent] in *.
  pose proof (sort_Permutation q) as P.
  destruct q as [|x q'].
  - exists r. split; [reflexivity | lia].
  - remember (x :: q') as q eqn:Q.
    destruct (NotificationManager.sort q) as [|n rest] eqn:Sorted.
    { apply Permutation_nil in P. congruence. }
    clear Q x q'.
    pose proof (checks_left_Permutation _ _ P) as C. rewrite checks_left_cons in C.
    assert (Hn : In n q) by (eapply Permutation_in; [exact P | left; reflexivity]).
    assert (Hrest : forall m, In m rest -> In m q)
      by (intros m Hm; eapply Permutation_in; [exact P | right; exact Hm]).
    pose proof (Blocked n r Hn ltac:(lia)) as B0.
    change (NotificationManager.canSendNotification
              (NotificationManager.mkFields q p last) (Date_now r)
              (NotificationManager.userId n)
              (NotificationManager.type (NotificationManager.data n))
              (NotificationManager.priority n))
      with (NotificationManager.PRIORITY_COOLDOWNS (NotificationManager.priority n)
            <=? Date_now r
                - NotificationManager.lastNotified (NotificationManager.mkFields q p last)
                    (NotificationManager.userId n)
                    (NotificationManager.type (NotificationManager.data n))) in B0.
    unfold NotificationManager.canSendNotification at 1.
    cbv zeta.
    change (NotificationManager.lastNotified
              (NotificationManager.this
                 (NotificationManager.mkWorld (NotificationManager.mkFields q p last) r s)))
      with (NotificationManager.lastNotified (NotificationManager.mkFields q p last)).
    cbn [NotificationManager.this NotificationManager.readings].
    rewrite B0.
    destruct (Nat.ltb_spec (NotificationManager.attempts n)
                           NotificationManager.maxRetries) as [Lt | Ge];
      unfold NotificationManager.maxRetries in *.
    + match goal with
      | |- context [NotificationManager.processQueue fuel Date_now ?w2] =>
          destruct (IH w2) as (r' & E & Hr)
      end.
      * cbn [NotificationManager.queue NotificationManager.this].
        rewrite checks_left_app, checks_left_cons.
        cbn [NotificationManager.attempts NotificationManager.checks_left]. lia.
      * cbn [NotificationManager.queue NotificationManager.this
             NotificationManager.readings].
        rewrite checks_left_app, checks_left_cons.
        cbn [NotificationManager.attempts NotificationManager.checks_left].
        intros m k Hm Hk. apply in_app_or in Hm. destruct Hm as [Hm | [<- | []]].
        -- apply (Blocked m k (Hrest m Hm)). lia.
        -- apply (Blocked n k Hn). lia.
      * exists r'. split; [exact E|].
        cbn [NotificationManager.queue NotificationManager.this
             NotificationManager.readings] in Hr.
        rewrite checks_left_app, checks_left_cons in Hr.
        cbn [NotificationManager.attempts NotificationManager.checks_left] in Hr. lia.
    + match goal with
      | |- context [NotificationManager.processQueue fuel Date_now ?w2] =>
          destruct (IH w2) as (r' & E & Hr)
      end.
      * cbn [NotificationManager.queue NotificationManager.this]. lia.
      * cbn [NotificationManager.queue NotificationManager.this
             NotificationManager.readings].
        intros m k Hm Hk. apply (Blocked m k (Hrest m Hm)). lia.
      * exists r'. split; [exact E|].
        cbn [NotificationManager.queue NotificationManager.this
             NotificationManager.readings] in Hr. lia.
Qed.

(** X21 on an example: queued two seconds after the same notification went
    out, the second one is dropped when the timer fires. *)
Lemma blocked_notifications_are_dropped_witness :
  exists readings,
    NotificationManager.processQueue 5 ticking just_notified =
    Some (NotificationManager.mkWorld
            (NotificationManager.mkFields [] false
               (NotificationManager.userLastNotified
                  (NotificationManager.this just_notified)))
            readings []).
Proof.
  destruct (blocked_notifications_are_dropped ticking 5 just_notified)
    as (readings & E & _).
  - unfold just_notified. cbn [NotificationManager.queue NotificationManager.this].
    rewrite checks_left_cons. cbn. lia.
  - unfold just_notified.
    cbn [NotificationManager.queue NotificationManager.this NotificationManager.readings].
    rewrite checks_left_cons.
    cbn [NotificationManager.attempts NotificationManager.checks_left].
    intros n k [<- | []] Hk.
    unfold NotificationManager.canSendNotification, NotificationManager.lastNotified.
    cbn [NotificationManager.userId NotificationManager.type NotificationManager.data
         NotificationManager.priority NotificationManager.userLastNotified].
    unfold NotificationManager.notified.
    rewrite N.eqb_refl, String.eqb_refl. cbn [andb].
    unfold NotificationManager.PRIORITY_COOLDOWNS, ticking.
    apply Z.leb_gt. lia.
  - exists readings. exact E.
Defined.
